(** * Working-day calendar extracted from free text

    A shallow embedding of [caledar_get_from_consultant.py]: the regular
    expressions and the four extraction loops of [extract_nonworking_dates],
    the year detector, and the calendar builder [build_year_map], together
    with the parts of the Python runtime they rest on ([datetime.date],
    [str] methods, the backtracking semantics of [re]). *)

From Stdlib Require Import ZArith NArith Lia String Ascii List Bool DecimalString.
From stdpp Require Import gmap strings list.

(** ** Python values *)

(** A Python [str] is a sequence of Unicode code points. *)
Definition cp := N.
Definition str := list cp.

(** Source literals are written as UTF-8 [string]s and decoded once. *)
Fixpoint bytes_of (s : string) : list N :=
  match s with
  | EmptyString => []
  | String a s' => N_of_ascii a :: bytes_of s'
  end.

Fixpoint utf8_decode (bs : list N) : str :=
  match bs with
  | [] => []
  | b0 :: r =>
      if (b0 <? 0x80)%N then b0 :: utf8_decode r
      else if (b0 <? 0xE0)%N then
        match r with
        | b1 :: r1 => ((b0 mod 0x20) * 0x40 + b1 mod 0x40)%N :: utf8_decode r1
        | _ => []
        end
      else if (b0 <? 0xF0)%N then
        match r with
        | b1 :: b2 :: r2 =>
            ((b0 mod 0x10) * 0x1000 + (b1 mod 0x40) * 0x40 + b2 mod 0x40)%N
              :: utf8_decode r2
        | _ => []
        end
      else
        match r with
        | b1 :: b2 :: b3 :: r3 =>
            ((b0 mod 0x8) * 0x40000 + (b1 mod 0x40) * 0x1000
             + (b2 mod 0x40) * 0x40 + b3 mod 0x40)%N :: utf8_decode r3
        | _ => []
        end
  end.

Definition utf8 (s : string) : str := utf8_decode (bytes_of s).

(** Exceptions the modelled code can meet, and the result of a call. *)
Inductive exn := ValueError | OverflowError | TypeError | AttributeError.

Inductive res (A : Type) : Type :=
| Ok (a : A)
| Raise (e : exn)
| OutOfFuel.
Arguments Ok {A} a.
Arguments Raise {A} e.
Arguments OutOfFuel {A}.

#[global] Instance res_ret : MRet res := @Ok.
#[global] Instance res_bind : MBind res := fun A B f m =>
  match m with
  | Ok a => f a
  | Raise e => Raise e
  | OutOfFuel => OutOfFuel
  end.

(** ** [datetime.date] *)

Module Date.
Local Open Scope Z_scope.

Record date := mkdate { date_year : Z; date_month : Z; date_day : Z }.

#[global] Instance date_eq_dec : EqDecision date.
Proof. solve_decision. Defined.

#[global] Instance date_countable : Countable date.
Proof.
  refine (inj_countable' (fun d => (date_year d, date_month d, date_day d))
                         (fun t => mkdate t.1.1 t.1.2 t.2) _).
  by intros [].
Defined.

Definition MINYEAR : Z := 1.
Definition MAXYEAR : Z := 9999.

Definition _DAYS_IN_MONTH : list Z :=
  [-1; 31; 28; 31; 30; 31; 30; 31; 31; 30; 31; 30; 31].

Definition _DAYS_BEFORE_MONTH : list Z :=
  [-1; 0; 31; 59; 90; 120; 151; 181; 212; 243; 273; 304; 334].

Definition _is_leap (year : Z) : bool :=
  (year mod 4 =? 0) && (negb (year mod 100 =? 0) || (year mod 400 =? 0)).

Definition _days_before_year (year : Z) : Z :=
  let y := year - 1 in y * 365 + y / 4 - y / 100 + y / 400.

Definition _days_in_month (year month : Z) : Z :=
  if (month =? 2) && _is_leap year then 29
  else nth (Z.to_nat month) _DAYS_IN_MONTH 0.

Definition _days_before_month (year month : Z) : Z :=
  nth (Z.to_nat month) _DAYS_BEFORE_MONTH 0
  + (if (2 <? month) && _is_leap year then 1 else 0).

Definition _ymd2ord (year month day : Z) : Z :=
  _days_before_year year + _days_before_month year month + day.

(** The C implementation of [date] parses its three arguments as C [int]s:
    an argument outside that range raises [OverflowError] before any range
    check is made; the range checks raise [ValueError]. *)
Definition fits_c_int (z : Z) : bool := (-2147483648 <=? z) && (z <=? 2147483647).

Definition date_new (year month day : Z) : res date :=
  if negb (fits_c_int year && fits_c_int month && fits_c_int day) then
    Raise OverflowError
  else if negb ((MINYEAR <=? year) && (year <=? MAXYEAR)) then Raise ValueError
  else if negb ((1 <=? month) && (month <=? 12)) then Raise ValueError
  else if negb ((1 <=? day) && (day <=? _days_in_month year month)) then
    Raise ValueError
  else Ok (mkdate year month day).

Definition valid_date (d : date) : Prop :=
  MINYEAR <= date_year d <= MAXYEAR
  /\ 1 <= date_month d <= 12
  /\ 1 <= date_day d <= _days_in_month (date_year d) (date_month d).

Definition toordinal (d : date) : Z :=
  _ymd2ord (date_year d) (date_month d) (date_day d).

(** [d.weekday()]: Monday is 0, Sunday is 6. *)
Definition weekday (d : date) : Z := (toordinal d + 6) mod 7.

(** [(d1 - d2).days] *)
Definition days_between (d1 d2 : date) : Z := toordinal d1 - toordinal d2.

(** [d1 < d2]: dates compare as (year, month, day) triples. *)
Definition date_ltb (d1 d2 : date) : bool :=
  (date_year d1 <? date_year d2)
  || ((date_year d1 =? date_year d2)
      && ((date_month d1 <? date_month d2)
          || ((date_month d1 =? date_month d2)
              && (date_day d1 <? date_day d2)))).

(** [d + timedelta(days=1)].  Python returns the date whose ordinal is
    [d.toordinal() + 1] and raises [OverflowError] past 9999-12-31; the
    successor is written out on the (year, month, day) fields, and
    [toordinal_add_day] below relates it to the ordinal. *)
Definition date_add_day (d : date) : res date :=
  let '(mkdate y m dd) := d in
  if dd <? _days_in_month y m then Ok (mkdate y m (dd + 1))
  else if m <? 12 then Ok (mkdate y (m + 1) 1)
  else if y <? MAXYEAR then Ok (mkdate (y + 1) 1 1)
  else Raise OverflowError.

End Date.
Export Date.

(** ** The calendar builder *)

Definition WORKING : str := utf8 "рабочий".
Definition NON_WORKING : str := utf8 "нерабочий".

(** The body of [while d < end] in [build_year_map]. *)
Fixpoint build_year_loop (fuel : nat) (start end_ d : date)
    (nonworking_set : gset date) (result : gmap Z str) : res (gmap Z str) :=
  match fuel with
  | O => OutOfFuel
  | S fuel' =>
      if date_ltb d end_ then
        let doy := (days_between d start + 1)%Z in
        let is_weekend := (5 <=? weekday d)%Z in
        let val :=
          if is_weekend || bool_decide (d ∈ nonworking_set)
          then NON_WORKING else WORKING in
        d' ← date_add_day d;
        build_year_loop fuel' start end_ d' nonworking_set (<[doy := val]> result)
      else Ok result
  end.

Definition build_year_map (fuel : nat) (year : Z) (nonworking : list date)
    : res (gmap Z str) :=
  let nonworking_set : gset date := list_to_set nonworking in
  start ← date_new year 1 1;
  end_ ← date_new (year + 1) 1 1;
  build_year_loop fuel start end_ start nonworking_set ∅.

(** Number of days of a year, and the label the builder gives a day. *)
Definition days_in_year (year : Z) : Z := if _is_leap year then 366 else 365.

Definition day_of_year (d : date) : Z :=
  (days_between d (mkdate (date_year d) 1 1) + 1)%Z.

Definition day_label (nonworking_set : gset date) (d : date) : str :=
  if (5 <=? weekday d)%Z || bool_decide (d ∈ nonworking_set)
  then NON_WORKING else WORKING.

(** ** The Unicode character database

    The character classes and case mappings that [re] and [str] consult
    are taken as an interface; the theorems about every input text hold for
    every database, the worked examples use the instance [unicode_ru]. *)

Class UnicodeDB : Type := {
  is_decimal : cp -> bool;      (* category Nd: [\d], the digits of [int()] *)
  decimal_value : cp -> Z;
  is_digit : cp -> bool;        (* [str.isdigit] *)
  is_space : cp -> bool;        (* [\s], [str.strip()] *)
  is_alnum : cp -> bool;        (* [str.isalnum]; [\w] adds the underscore *)
  lower : cp -> cp;             (* simple lower-case mapping *)
  iscased : cp -> bool;         (* differs from its lower or upper case *)
  case_fixes : cp -> list cp;   (* extra case-equivalent characters of [re] *)
  str_lower : str -> str        (* [str.lower()] *)
}.

Section Charsets.
Context {U : UnicodeDB}.

Inductive category := CatDigit | CatSpace | CatWord.

Definition is_word (c : cp) : bool := is_alnum c || (c =? 0x5F)%N.

Definition cat_match (k : category) (c : cp) : bool :=
  match k with
  | CatDigit => is_decimal c
  | CatSpace => is_space c
  | CatWord => is_word c
  end.

(** An item of a bracketed set. *)
Inductive citem :=
| ILit (x : cp)
| IRange (lo hi : cp)
| ICat (k : category).

(** One-character tests of a pattern. *)
Inductive cset :=
| CLit (x : cp)                 (* a literal character *)
| CIn (items : list citem)      (* [[...]], and [\d], [\s], [\w] alone *)
| CAny.                         (* [.] *)

Definition cp_range (lo hi : cp) : list cp :=
  map (fun i => (lo + N.of_nat i)%N) (seq 0 (N.to_nat (hi + 1 - lo))).

(** [c] is the folded character [lo] or one of its extra equivalents. *)
Definition fold_eq (lo c : cp) : bool :=
  (c =? lo)%N || existsb (N.eqb c) (case_fixes lo).

(** A literal under IGNORECASE: a cased literal is compiled to its lower
    case, joined by its extra equivalents, and tested against the lowered
    character; an uncased literal is compared as it stands. *)
Definition lit_match (ignorecase : bool) (x c : cp) : bool :=
  if ignorecase && iscased x then fold_eq (lower x) (lower c) else (c =? x)%N.

Definition item_cased (i : citem) : bool :=
  match i with
  | ILit x => iscased x
  | IRange lo hi => existsb iscased (cp_range lo hi)
  | ICat _ => false
  end.

Definition item_match (c : cp) (i : citem) : bool :=
  match i with
  | ILit x => (c =? x)%N
  | IRange lo hi => (lo <=? c)%N && (c <=? hi)%N
  | ICat k => cat_match k c
  end.

Definition item_match_fold (c : cp) (i : citem) : bool :=
  match i with
  | ILit x => fold_eq (lower x) c
  | IRange lo hi => existsb (fun j => fold_eq (lower j) c) (cp_range lo hi)
  | ICat k => cat_match k c
  end.

(** A set under IGNORECASE holds the lowered literals and range members and
    their extra equivalents; when one of its items is cased the character is
    lowered before the test, classes included. *)
Definition cset_match (ignorecase dotall : bool) (s : cset) (c : cp) : bool :=
  match s with
  | CLit x => lit_match ignorecase x c
  | CIn items =>
      if ignorecase then
        let c' := if existsb item_cased items then lower c else c in
        existsb (item_match_fold c') items
      else existsb (item_match c) items
  | CAny => dotall || negb (c =? 0x0A)%N
  end.

End Charsets.

(** What the theorems on every text need of a database; all of it holds of
    the Unicode tables. *)
Class UnicodeLaws (U : UnicodeDB) : Prop := {
  decimal_value_range :
    forall c, is_decimal c = true -> (0 <= decimal_value c <= 9)%Z;
  decimal_is_digit : forall c, is_decimal c = true -> is_digit c = true;
  digit_not_space : forall c, is_digit c = true -> is_space c = false;
  (* ignoring case, a digit is matched by itself only *)
  digit_only_self :
    forall x c, is_digit c = true -> lit_match true x c = true -> c = x;
  ascii_digit :
    forall c, (0x30 <= c <= 0x39)%N -> is_decimal c = true /\ iscased c = false;
  comma_not_digit : is_digit 0x2C%N = false;
  cyrillic_not_digit :
    forall c, (0x400 <= c <= 0x4FF)%N -> is_digit c = false;
  blank_is_space : is_space 0x20%N = true
}.

(** ** Regular expressions: the fragment of [re] the patterns use *)

Inductive re :=
| Eps
| Chr (s : cset)
| Seq (r1 r2 : re)
| Alt (r1 r2 : re)
| Rep (greedy : bool) (lo : nat) (hi : option nat) (r : re)
| Group (name : string) (r : re)
| WordB                          (* [\b] *)
| NotBehind (s : cset).          (* [(?<!x)] for a one-character [x] *)

Record pattern := {
  pat_re : re;
  pat_ignorecase : bool;
  pat_dotall : bool
}.

(** Capture marks, most recent first. *)
Definition caps := list (string * (nat * nat)).

Fixpoint cap_lookup (g : string) (c : caps) : option (nat * nat) :=
  match c with
  | [] => None
  | (g', v) :: c' => if String.eqb g g' then Some v else cap_lookup g c'
  end.

Definition can_more (hi : option nat) : bool :=
  match hi with Some O => false | _ => true end.

Definition dec_hi (hi : option nat) : option nat :=
  match hi with Some n => Some (Nat.pred n) | None => None end.

Definition mresult : Type := nat * caps.
Definition mcont : Type := nat -> caps -> option mresult.

(** A repetition, given the matcher [mr] of its body.  Greedy repeats try
    one more iteration before the continuation, lazy repeats the
    continuation first.  An iteration must consume input; no repeated body
    of the patterns below can match the empty string. *)
Fixpoint rep_loop (mr : nat -> caps -> mcont -> option mresult)
    (greedy : bool) (fuel lo : nat) (hi : option nat)
    (p : nat) (c : caps) (k : mcont) : option mresult :=
  match fuel with
  | O => None
  | S fuel' =>
      let more (_ : unit) :=
        if can_more hi then
          mr p c (fun p' c' =>
            if (p <? p')%nat
            then rep_loop mr greedy fuel' (Nat.pred lo) (dec_hi hi) p' c' k
            else None)
        else None in
      match lo with
      | S _ => more tt
      | O =>
          if greedy then
            match more tt with Some r => Some r | None => k p c end
          else
            match k p c with Some r => Some r | None => more tt end
      end
  end.

(** A match object: its span and its groups. *)
Record pymatch := { m_start : nat; m_end : nat; m_caps : caps }.

Section Matcher.
Context {U : UnicodeDB}.
Variable (P : pattern) (text : str).

Definition char_ok (s : cset) (c : cp) : bool :=
  cset_match (pat_ignorecase P) (pat_dotall P) s c.

Definition word_at (p : nat) : bool :=
  match text !! p with Some c => is_word c | None => false end.

Definition word_boundary (p : nat) : bool :=
  let before := match p with O => false | S q => word_at q end in
  xorb before (word_at p).

Definition behind (s : cset) (p : nat) : bool :=
  match p with
  | O => false
  | S q => match text !! q with Some c => char_ok s c | None => false end
  end.

(** The backtracking matcher, in continuation-passing style: [k] is what
    remains of the pattern after [r]. *)
Fixpoint re_match (r : re) (p : nat) (c : caps) (k : mcont) : option mresult :=
  match r with
  | Eps => k p c
  | Chr s =>
      match text !! p with
      | Some x => if char_ok s x then k (S p) c else None
      | None => None
      end
  | Seq r1 r2 => re_match r1 p c (fun p' c' => re_match r2 p' c' k)
  | Alt r1 r2 =>
      match re_match r1 p c k with
      | Some res => Some res
      | None => re_match r2 p c k
      end
  | Rep greedy lo hi r' =>
      rep_loop (re_match r') greedy (S (length text - p)) lo hi p c k
  | Group g r' => re_match r' p c (fun p' c' => k p' ((g, (p, p')) :: c'))
  | WordB => if word_boundary p then k p c else None
  | NotBehind s => if behind s p then None else k p c
  end.

Definition match_at (p : nat) : option pymatch :=
  match re_match (pat_re P) p [] (fun p' c' => Some (p', c')) with
  | Some (e, c) => Some {| m_start := p; m_end := e; m_caps := c |}
  | None => None
  end.

(** Try the start positions [p], [p+1], ..., [p+n] in turn. *)
Fixpoint search_from (n p : nat) : option pymatch :=
  match match_at p with
  | Some m => Some m
  | None => match n with O => None | S n' => search_from n' (S p) end
  end.

(** [pattern.search(text, pos)] *)
Definition search (pos : nat) : option pymatch :=
  if (pos <=? length text)%nat then search_from (length text - pos) pos else None.

(** [pattern.finditer(text)]: the successive leftmost matches, each search
    starting where the previous match ended, one character further after an
    empty match (none of the patterns below has one). *)
Fixpoint finditer_from (fuel pos : nat) : list pymatch :=
  match fuel with
  | O => []
  | S fuel' =>
      match search pos with
      | None => []
      | Some m =>
          let next := if (m_end m =? m_start m)%nat then S (m_end m) else m_end m in
          m :: finditer_from fuel' next
      end
  end.

Definition finditer : list pymatch := finditer_from (S (length text)) 0.

End Matcher.

(** *** What a match is, declaratively

    [Matches r p c p' c']: [r] can consume [text] from [p] to [p'], turning
    the capture marks [c] into [c'].  The matcher above explores these
    derivations in Python's order of preference. *)

Section Semantics.
Context {U : UnicodeDB}.
Variable (P : pattern) (text : str).

Inductive Matches : re -> nat -> caps -> nat -> caps -> Prop :=
| M_eps p c : Matches Eps p c p c
| M_chr s p c x :
    text !! p = Some x -> char_ok P s x = true ->
    Matches (Chr s) p c (S p) c
| M_seq r1 r2 p c p1 c1 p2 c2 :
    Matches r1 p c p1 c1 -> Matches r2 p1 c1 p2 c2 ->
    Matches (Seq r1 r2) p c p2 c2
| M_alt_l r1 r2 p c p' c' :
    Matches r1 p c p' c' -> Matches (Alt r1 r2) p c p' c'
| M_alt_r r1 r2 p c p' c' :
    Matches r2 p c p' c' -> Matches (Alt r1 r2) p c p' c'
| M_rep_stop g hi r p c : Matches (Rep g 0 hi r) p c p c
| M_rep_step g lo hi r p c p1 c1 p2 c2 :
    can_more hi = true ->
    Matches r p c p1 c1 -> (p < p1)%nat ->
    Matches (Rep g (Nat.pred lo) (dec_hi hi) r) p1 c1 p2 c2 ->
    Matches (Rep g lo hi r) p c p2 c2
| M_group g r p c p' c' :
    Matches r p c p' c' -> Matches (Group g r) p c p' ((g, (p, p')) :: c')
| M_wordb p c : word_boundary text p = true -> Matches WordB p c p c
| M_notbehind s p c : behind P text s p = false -> Matches (NotBehind s) p c p c.

(** Characters some test of [r] accepts. *)
Fixpoint re_chars (r : re) (x : cp) : bool :=
  match r with
  | Chr s => char_ok P s x
  | Seq r1 r2 | Alt r1 r2 => re_chars r1 x || re_chars r2 x
  | Rep _ _ _ r' | Group _ r' => re_chars r' x
  | Eps | WordB | NotBehind _ => false
  end.

End Semantics.

(** Fewest and most characters a match of [r] consumes. *)
Fixpoint min_len (r : re) : nat :=
  match r with
  | Eps | WordB | NotBehind _ => 0
  | Chr _ => 1
  | Seq r1 r2 => min_len r1 + min_len r2
  | Alt r1 r2 => Nat.min (min_len r1) (min_len r2)
  | Rep _ lo _ r' => lo * min_len r'
  | Group _ r' => min_len r'
  end.

Fixpoint max_len (r : re) : option nat :=
  match r with
  | Eps | WordB | NotBehind _ => Some 0
  | Chr _ => Some 1
  | Seq r1 r2 =>
      match max_len r1, max_len r2 with
      | Some a, Some b => Some (a + b)
      | _, _ => None
      end
  | Alt r1 r2 =>
      match max_len r1, max_len r2 with
      | Some a, Some b => Some (Nat.max a b)
      | _, _ => None
      end
  | Rep _ _ hi r' =>
      match hi, max_len r' with
      | Some n, Some a => Some (n * a)
      | _, _ => None
      end
  | Group _ r' => max_len r'
  end.

(** Every repeated body of [r] consumes at least one character. *)
Fixpoint reps_consume (r : re) : bool :=
  match r with
  | Eps | Chr _ | WordB | NotBehind _ => true
  | Seq r1 r2 | Alt r1 r2 => reps_consume r1 && reps_consume r2
  | Rep _ _ _ r' => (1 <=? min_len r')%nat && reps_consume r'
  | Group _ r' => reps_consume r'
  end.

(** The groups of [r] with their bodies, and the groups every match sets. *)
Fixpoint groups (r : re) : list (string * re) :=
  match r with
  | Group g r' => (g, r') :: groups r'
  | Seq r1 r2 | Alt r1 r2 => groups r1 ++ groups r2
  | Rep _ _ _ r' => groups r'
  | Eps | Chr _ | WordB | NotBehind _ => []
  end.

Fixpoint sure_groups (r : re) : list string :=
  match r with
  | Group g r' => g :: sure_groups r'
  | Seq r1 r2 => sure_groups r1 ++ sure_groups r2
  | Alt _ _ | Rep _ _ _ _ | Eps | Chr _ | WordB | NotBehind _ => []
  end.

(** ** [str] methods and conversions *)

Section PyStr.
Context {U : UnicodeDB}.

(** [s[i:j]] for non-negative bounds *)
Definition slice (s : str) (i j : nat) : str := take (j - i) (drop i s).

Fixpoint lstrip_by (f : cp -> bool) (s : str) : str :=
  match s with
  | [] => []
  | c :: s' => if f c then lstrip_by f s' else s
  end.

Definition strip_by (f : cp -> bool) (s : str) : str :=
  rev (lstrip_by f (rev (lstrip_by f s))).

(** [s.strip(chars)] and [s.strip()] *)
Definition strip_chars (chars s : str) : str :=
  strip_by (fun c => existsb (N.eqb c) chars) s.
Definition strip (s : str) : str := strip_by is_space s.

Fixpoint prefix_b (key s : str) : bool :=
  match key, s with
  | [], _ => true
  | a :: key', b :: s' => (a =? b)%N && prefix_b key' s'
  | _ :: _, [] => false
  end.

(** [key in s] *)
Fixpoint contains (key s : str) : bool :=
  prefix_b key s || match s with [] => false | _ :: s' => contains key s' end.

(** [s.replace(old, new)] for a non-empty [old]: the occurrences are
    replaced left to right without overlap; [skip] counts the characters of
    an occurrence still to be dropped. *)
Fixpoint replace_go (old new : str) (skip : nat) (s : str) : str :=
  match s with
  | [] => []
  | c :: s' =>
      match skip with
      | S n => replace_go old new n s'
      | O =>
          if prefix_b old s
          then new ++ replace_go old new (length old - 1) s'
          else c :: replace_go old new 0 s'
      end
  end.

Definition replace (old new s : str) : str := replace_go old new 0 s.

(** [s.split(sep)] for a one-character separator *)
Fixpoint split_on (sep : cp) (s : str) : list str :=
  match s with
  | [] => [[]]
  | c :: s' =>
      if (c =? sep)%N then [] :: split_on sep s'
      else match split_on sep s' with
           | t :: ts => (c :: t) :: ts
           | [] => [[c]]
           end
  end.

(** [s.isdigit()] *)
Definition isdigit (s : str) : bool :=
  match s with [] => false | _ => forallb is_digit s end.

(** [int(s)] on a run of decimal digits.  Signs, surrounding blanks and
    underscores, which [int] also accepts, never reach the calls below and
    are answered with [ValueError] here. *)
Definition py_int (s : str) : res Z :=
  match s with
  | [] => Raise ValueError
  | _ =>
      if forallb is_decimal s
      then Ok (fold_left (fun acc c => (10 * acc + decimal_value c)%Z) s 0%Z)
      else Raise ValueError
  end.

(** [str(n)] of an integer, as in an f-string *)
Definition str_of_int (n : Z) : str :=
  bytes_of (DecimalString.NilZero.string_of_int (Z.to_int n)).

(** [m.group(name)]: [None] when the group took no part in the match *)
Definition group (text : str) (m : pymatch) (name : string) : option str :=
  match cap_lookup name (m_caps m) with
  | Some (s, e) => Some (slice text s e)
  | None => None
  end.

End PyStr.

(** [range(a, b)] *)
Definition py_range (a b : Z) : list Z :=
  map (fun i => (a + Z.of_nat i)%Z) (seq 0 (Z.to_nat (b - a))).

(** A [for] loop whose body may raise. *)
Fixpoint for_each {A S : Type} (xs : list A) (s : S) (body : S -> A -> res S)
    : res S :=
  match xs with
  | [] => Ok s
  | x :: xs' => s' ← body s x; for_each xs' s' body
  end.

(** Using a value that may be [None] where [e] is raised on [None]. *)
Definition need {A : Type} (e : exn) (o : option A) : res A :=
  match o with Some a => Ok a | None => Raise e end.

(** ** The patterns of the source *)

Fixpoint cat (rs : list re) : re :=
  match rs with
  | [] => Eps
  | [r] => r
  | r :: rs' => Seq r (cat rs')
  end.

Definition lit (s : string) : re := cat (map (fun c => Chr (CLit c)) (utf8 s)).

Definition digit : re := Chr (CIn [ICat CatDigit]).          (* [\d] *)
Definition space : re := Chr (CIn [ICat CatSpace]).          (* [\s] *)
Definition wordc : re := Chr (CIn [ICat CatWord]).           (* [\w] *)
Definition cyr : re := Chr (CIn [IRange 0x430%N 0x44F%N]).       (* [[а-я]] *)

Definition star (r : re) : re := Rep true 0 None r.
Definition plus (r : re) : re := Rep true 1 None r.
Definition opt (r : re) : re := Rep true 0 (Some 1) r.
Definition digits_1_2 : re := Rep true 1 (Some 2) digit.     (* [\d{1,2}] *)
Definition year_20xx : re := Seq (lit "20") (Rep true 2 (Some 2) digit).

Definition ignorecase (r : re) : pattern :=
  {| pat_re := r; pat_ignorecase := true; pat_dotall := false |}.

Definition YEAR_PATTERNS : list pattern :=
  [ ignorecase (cat [Group "year" year_20xx; star space; lit "года"]);
    ignorecase (cat [lit "за"; plus space; Group "year" year_20xx;
                     star space; lit "год"]);
    ignorecase (cat [lit "календар";
                     Chr (CIn [ILit 0x44C%N; ILit 0x44F%N; ILit 0x435%N]);
                     plus (Chr (CIn [ICat CatWord; ICat CatSpace]));
                     Group "year" year_20xx]) ].

(** The day list: comma-separated days, a day, and an optional last day
    after the conjunction. *)
Definition days_unit : re := cat [digits_1_2; star space; lit ","; star space].
Definition days_tail : re := cat [star space; lit "и"; star space; digits_1_2].
Definition days_body : re := cat [star days_unit; digits_1_2; opt days_tail].

(** The separator inside [days_unit] *)
Definition days_sep1 : re :=
  Seq (star space) (Seq (Chr (CLit 0x2C%N)) (star space)).

Definition LISTED_DAYS_RE : pattern :=
  ignorecase
    (cat [Group "days" days_body; plus space; Group "month" (plus cyr); WordB]).

Definition RANGE_RE : pattern :=
  ignorecase
    (cat [lit "с"; plus space; Group "d1" digits_1_2; plus space;
          lit "по"; plus space; Group "d2" digits_1_2; plus space;
          Group "month" (plus cyr); WordB]).

Definition SINGLE_DAY_RE : pattern :=
  ignorecase
    (cat [NotBehind (CIn [ICat CatDigit]); Group "day" digits_1_2;
          plus space; Group "month" (plus cyr); WordB]).

Definition TRANSFER_RE : pattern :=
  {| pat_re :=
       cat [Group "1"
              (Alt (Seq (lit "перенос") (star wordc))
              (Alt (Seq (lit "перенести") (star wordc))
              (Alt (Seq (lit "переносят") (star wordc))
                   (Seq (lit "переносят") (star wordc)))));
            Rep false 0 (Some 80) (Chr CAny);
            Group "from_day" digits_1_2; plus space;
            Group "from_month" (plus cyr);
            Rep false 0 (Some 40) (Chr CAny);
            lit "на"; plus space;
            Group "to_day" digits_1_2; plus space;
            Group "to_month" (plus cyr)];
     pat_ignorecase := true;
     pat_dotall := true |}.

(** [r"\d"], searched in the matched day list *)
Definition DIGIT_RE : pattern :=
  {| pat_re := digit; pat_ignorecase := false; pat_dotall := false |}.

(** ** The extractor *)

Record ParseResult := {
  year : Z;
  nonworking_dates : gset date;
  notes : list str
}.

Section Extractor.
Context {U : UnicodeDB}.

Definition MONTHS_RU : gmap str Z :=
  list_to_map
    [ (utf8 "января", 1%Z); (utf8 "февраля", 2%Z); (utf8 "марта", 3%Z);
      (utf8 "апреля", 4%Z); (utf8 "мая", 5%Z); (utf8 "июня", 6%Z);
      (utf8 "июля", 7%Z); (utf8 "августа", 8%Z); (utf8 "сентября", 9%Z);
      (utf8 "октября", 10%Z); (utf8 "ноября", 11%Z); (utf8 "декабря", 12%Z) ].

(** [int(m.group(name))] and [m.group(name)] used as a string *)
Definition int_group (text : str) (m : pymatch) (name : string) : res Z :=
  s ← need TypeError (group text m name); py_int s.

Definition str_group (text : str) (m : pymatch) (name : string) : res str :=
  need AttributeError (group text m name).

Fixpoint detect_year_loop (pats : list pattern) (text : str) : option (res Z) :=
  match pats with
  | [] => None
  | pat :: pats' =>
      match search pat text 0 with
      | Some m => Some (int_group text m "year")
      | None => detect_year_loop pats' text
      end
  end.

(** [today_year] stands for [date.today().year]. *)
Definition _detect_year (today_year : Z) (text : str) (fallback : option Z)
    : res Z :=
  match detect_year_loop YEAR_PATTERNS text with
  | Some r => r
  | None =>
      match fallback with
      | Some f => if (f =? 0)%Z then Ok today_year else Ok f
      | None => Ok today_year
      end
  end.

Definition _normalize_month (token : str) : option Z :=
  MONTHS_RU !! strip_chars (utf8 " .,:;") (str_lower token).

Definition _safe_date (year month day : Z) : res (option date) :=
  match date_new year month day with
  | Ok d => Ok (Some d)
  | Raise ValueError => Ok None
  | Raise e => Raise e
  | OutOfFuel => OutOfFuel
  end.

Definition state : Type := gset date * list str.

(** 1) ranges *)
Definition range_body (year month : Z) (nonworking : gset date) (dday : Z)
    : res (gset date) :=
  dt ← _safe_date year month dday;
  match dt with
  | Some d => Ok ({[d]} ∪ nonworking)
  | None => Ok nonworking
  end.

Definition range_step (year : Z) (text : str) (st : state) (m : pymatch)
    : res state :=
  let '(nonworking, notes) := st in
  month_text ← str_group text m "month";
  match _normalize_month month_text with
  | None | Some 0%Z => Ok st
  | Some month =>
      d1 ← int_group text m "d1";
      d2 ← int_group text m "d2";
      nonworking' ← for_each (py_range (Z.min d1 d2) (Z.max d1 d2 + 1))
                             nonworking (range_body year month);
      Ok (nonworking',
          notes ++ [utf8 "Диапазон: " ++ str_of_int d1 ++ utf8 "-"
                    ++ str_of_int d2 ++ utf8 " " ++ month_text])
  end.

(** 2) lists *)
Definition listed_days (raw_days : str) : res (list Z) :=
  let chunk := replace (utf8 " и ") (utf8 ",") raw_days in
  for_each (split_on 0x2C%N chunk) []
    (fun days token =>
       let token := strip token in
       if isdigit token then d ← py_int token; Ok (days ++ [d]) else Ok days).

Definition listed_body (year month : Z) (acc : gset date * bool) (dday : Z)
    : res (gset date * bool) :=
  let '(nonworking, added_any) := acc in
  dt ← _safe_date year month dday;
  match dt with
  | Some d =>
      if bool_decide (d ∈ nonworking) then Ok acc
      else Ok ({[d]} ∪ nonworking, true)
  | None => Ok acc
  end.

Definition listed_step (year : Z) (text : str) (st : state) (m : pymatch)
    : res state :=
  let '(nonworking, notes) := st in
  month_text ← str_group text m "month";
  match _normalize_month month_text with
  | None | Some 0%Z => Ok st
  | Some month =>
      match group text m "days" with
      | None => Ok st
      | Some raw_days =>
          match raw_days, search DIGIT_RE raw_days 0 with
          | [], _ | _, None => Ok st
          | _, Some _ =>
              days ← listed_days raw_days;
              match days with
              | [] => Ok st
              | _ =>
                  '(nonworking', added_any) ←
                    for_each days (nonworking, false) (listed_body year month);
                  if added_any : bool then
                    Ok (nonworking',
                        notes ++ [utf8 "Перечень: " ++ raw_days ++ utf8 " "
                                  ++ month_text])
                  else Ok (nonworking', notes)
              end
          end
      end
  end.

(** 3) single dates *)
Definition TRIGGERS : list str :=
  [utf8 "нерабоч"; utf8 "празднич"; utf8 "выходн"].

Definition single_step (year : Z) (text : str) (st : state) (m : pymatch)
    : res state :=
  let '(nonworking, notes) := st in
  month_text ← str_group text m "month";
  match _normalize_month month_text with
  | None | Some 0%Z => Ok st
  | Some month =>
      dday ← int_group text m "day";
      dt ← _safe_date year month dday;
      match dt with
      | Some d =>
          if bool_decide (d ∈ nonworking) then Ok st
          else
            let window :=
              str_lower (slice text (m_start m - 40) (m_end m + 40)) in
            if existsb (fun key => contains key window) TRIGGERS then
              Ok ({[d]} ∪ nonworking,
                  notes ++ [utf8 "Одиночная дата: " ++ str_of_int dday
                            ++ utf8 " " ++ month_text])
            else Ok st
      | None => Ok st
      end
  end.

(** 4) transfers *)
Definition transfer_step (year : Z) (text : str) (st : state) (m : pymatch)
    : res state :=
  let '(nonworking, notes) := st in
  d_from ← int_group text m "from_day";
  d_to ← int_group text m "to_day";
  from_text ← str_group text m "from_month";
  let m_from := _normalize_month from_text in
  to_text ← str_group text m "to_month";
  match _normalize_month to_text with
  | None | Some 0%Z => Ok st
  | Some m_to =>
      dt_to ← _safe_date year m_to d_to;
      match dt_to with
      | Some d =>
          Ok ({[d]} ∪ nonworking,
              notes ++ [utf8 "Перенос на: " ++ str_of_int d_to ++ utf8 " "
                        ++ to_text])
      | None => Ok st
      end
  end.

Definition range_stage (year : Z) (text : str) (st : state) : res state :=
  for_each (finditer RANGE_RE text) st (range_step year text).
Definition listed_stage (year : Z) (text : str) (st : state) : res state :=
  for_each (finditer LISTED_DAYS_RE text) st (listed_step year text).
Definition single_stage (year : Z) (text : str) (st : state) : res state :=
  for_each (finditer SINGLE_DAY_RE text) st (single_step year text).
Definition transfer_stage (year : Z) (text : str) (st : state) : res state :=
  for_each (finditer TRANSFER_RE text) st (transfer_step year text).

Definition extract_nonworking_dates (today_year : Z) (text : str)
    (year_hint : option Z) : res ParseResult :=
  year ← _detect_year today_year text year_hint;
  st1 ← range_stage year text (∅, []);
  st2 ← listed_stage year text st1;
  st3 ← single_stage year text st2;
  st4 ← transfer_stage year text st3;
  Ok {| year := year; nonworking_dates := st4.1; notes := st4.2 |}.

End Extractor.

(** ** A database for Latin and Cyrillic text

    The tables of Unicode 14 for the blocks U+0000..U+00FF and
    U+0400..U+04FF, and the white space of every block.  A code point of
    another block has no class and no case here, which is what the database
    says of punctuation such as the dash U+2014. *)

Definition in_ranges (tbl : list (N * N)) (c : cp) : bool :=
  existsb (fun r => (fst r <=? c)%N && (c <=? snd r)%N) tbl.

Definition DECIMAL_RANGES : list (N * N) := [(0x30, 0x39)]%N.

Definition DIGIT_RANGES : list (N * N) :=
  [(0x30, 0x39); (0xB2, 0xB3); (0xB9, 0xB9)]%N.

Definition SPACE_RANGES : list (N * N) :=
  [(0x09, 0x0D); (0x1C, 0x20); (0x85, 0x85); (0xA0, 0xA0); (0x1680, 0x1680);
   (0x2000, 0x200A); (0x2028, 0x2029); (0x202F, 0x202F); (0x205F, 0x205F);
   (0x3000, 0x3000)]%N.

Definition ALNUM_RANGES : list (N * N) :=
  [(0x30, 0x39); (0x41, 0x5A); (0x61, 0x7A); (0xAA, 0xAA); (0xB2, 0xB3);
   (0xB5, 0xB5); (0xB9, 0xBA); (0xBC, 0xBE); (0xC0, 0xD6); (0xD8, 0xF6);
   (0xF8, 0xFF); (0x400, 0x481); (0x48A, 0x4FF)]%N.

Definition CASED_RANGES : list (N * N) :=
  [(0x41, 0x5A); (0x61, 0x7A); (0xB5, 0xB5); (0xC0, 0xD6); (0xD8, 0xF6);
   (0xF8, 0xFF); (0x400, 0x481); (0x48A, 0x4FF)]%N.

Definition lower_ru (c : cp) : cp :=
  if in_ranges [(0x41, 0x5A); (0xC0, 0xD6); (0xD8, 0xDE); (0x410, 0x42F)]%N c
  then (c + 32)%N
  else if in_ranges [(0x400, 0x40F)]%N c then (c + 80)%N
  else if (c =? 0x4C0)%N then 0x4CF%N
  else if in_ranges [(0x460, 0x480); (0x48A, 0x4BE); (0x4D0, 0x4FE)]%N c
          && N.even c
  then (c + 1)%N
  else if in_ranges [(0x4C1, 0x4CD)]%N c && N.odd c then (c + 1)%N
  else c.

Definition CASE_FIXES : list (cp * list cp) :=
  [ (0x69, [0x131]); (0x131, [0x69]); (0x73, [0x17F]); (0x17F, [0x73]);
    (0xB5, [0x3BC]); (0x3BC, [0xB5]);
    (0x432, [0x1C80]); (0x1C80, [0x432]); (0x434, [0x1C81]); (0x1C81, [0x434]);
    (0x43E, [0x1C82]); (0x1C82, [0x43E]); (0x441, [0x1C83]); (0x1C83, [0x441]);
    (0x442, [0x1C84; 0x1C85]); (0x1C84, [0x442; 0x1C85]);
    (0x1C85, [0x442; 0x1C84]);
    (0x44A, [0x1C86]); (0x1C86, [0x44A]); (0x463, [0x1C87]); (0x1C87, [0x463])
  ]%N.

Fixpoint assoc_fixes (tbl : list (cp * list cp)) (c : cp) : list cp :=
  match tbl with
  | [] => []
  | (k, v) :: tbl' => if (c =? k)%N then v else assoc_fixes tbl' c
  end.

#[global] Instance unicode_ru : UnicodeDB := {|
  is_decimal := in_ranges DECIMAL_RANGES;
  decimal_value := fun c => (Z.of_N c - 0x30)%Z;
  is_digit := in_ranges DIGIT_RANGES;
  is_space := in_ranges SPACE_RANGES;
  is_alnum := in_ranges ALNUM_RANGES;
  lower := lower_ru;
  iscased := in_ranges CASED_RANGES;
  case_fixes := assoc_fixes CASE_FIXES;
  str_lower := map lower_ru
|}.

(** ** Vocabulary of the statements *)

(** Dates made for the year [y]. *)
Definition of_year (y : Z) (nw : gset date) : Prop :=
  forall d, d ∈ nw -> date_year d = y /\ valid_date d.

(** The notes of the four stages. *)
Definition range_note (d1 d2 : Z) (month_text : str) : str :=
  utf8 "Диапазон: " ++ str_of_int d1 ++ utf8 "-" ++ str_of_int d2
  ++ utf8 " " ++ month_text.

Definition listed_note (raw_days month_text : str) : str :=
  utf8 "Перечень: " ++ raw_days ++ utf8 " " ++ month_text.

Definition single_note (dday : Z) (month_text : str) : str :=
  utf8 "Одиночная дата: " ++ str_of_int dday ++ utf8 " " ++ month_text.

Definition transfer_note (d_to : Z) (to_text : str) : str :=
  utf8 "Перенос на: " ++ str_of_int d_to ++ utf8 " " ++ to_text.

(** Every iteration only adds dates, all of them valid dates of the year,
    and appends at most one note. *)
Definition grows (y : Z) (st st' : state) : Prop :=
  st.1 ⊆ st'.1
  /\ (of_year y st.1 -> of_year y st'.1)
  /\ exists added, st'.2 = st.2 ++ added.

(** The matcher [re_match] answers with derivations of [Matches] only. *)
Definition body_sound `{U : UnicodeDB} (P : pattern) (text : str) (r : re) : Prop :=
  forall p c k res,
    re_match P text r p c k = Some res ->
    exists p' c', Matches P text r p c p' c' /\ k p' c' = Some res.

(** Two continuations that answer alike up to position [n]. *)
Definition agree_upto (n : nat) (k k' : mcont) : Prop :=
  forall p c, (p <= n)%nat -> k p c = k' p c.

(** [u] occurs in [w] as a run of consecutive characters. *)
Definition factor (u w : str) : Prop := exists a b, w = a ++ u ++ b.

Section Positions.
Context {U : UnicodeDB}.
Variable text : str.

(** Positions of [text] holding a decimal digit. *)
Definition dec_at (i : nat) : Prop :=
  exists x, text !! i = Some x /\ is_decimal x = true.

Definition nondec_span (a b : nat) : Prop :=
  forall i, (a <= i < b)%nat -> ~ dec_at i.

(** No three decimal digits in a row between [a] and [b]. *)
Definition no3_span (a b : nat) : Prop :=
  forall i, (a <= i)%nat -> (i + 2 < b)%nat ->
            ~ (dec_at i /\ dec_at (i + 1) /\ dec_at (i + 2)).

End Positions.

(** [m] is a match object of [P] on [text]. *)
Definition found `{U : UnicodeDB} (P : pattern) (text : str) (m : pymatch) : Prop :=
  exists q, (q <= length text)%nat /\ match_at P text q = Some m.

(** A year hint the C [date] constructor can take. *)
Definition hint_fits (hint : option Z) : Prop :=
  match hint with Some h => fits_c_int h = true | None => True end.

(** What the range stage owes a match [m]: every valid date between its two
    day bounds, and its note. *)
Definition range_done `{U : UnicodeDB} (y : Z) (text : str) (m : pymatch) (st : state) : Prop :=
  forall mt mo d1 d2,
    group text m "month" = Some mt -> _normalize_month mt = Some mo ->
    int_group text m "d1" = Ok d1 -> int_group text m "d2" = Ok d2 ->
    (forall dd d, (Z.min d1 d2 <= dd <= Z.max d1 d2)%Z ->
                  date_new y mo dd = Ok d -> d ∈ st.1)
    /\ range_note d1 d2 mt ∈ st.2.

(** [d] is the destination date of the transfer match [m]. *)
Definition destination `{U : UnicodeDB} (y : Z) (text : str) (m : pymatch) (d : date) : Prop :=
  exists to_text m_to d_to,
    group text m "to_month" = Some to_text
    /\ _normalize_month to_text = Some m_to
    /\ int_group text m "to_day" = Ok d_to
    /\ date_new y m_to d_to = Ok d.

(** Texts and results of the worked examples. *)
(** The dates of the first eight days of January 2025. *)
Definition JAN_1_8 : gset date :=
  list_to_set (map (fun dd => mkdate 2025 1 dd) (py_range 1 9)).

Definition TRANSFER_TEXT : str := utf8 "перенос выходного с 5 января на 8 января".

Definition RESULT_2026 : ParseResult :=
  {| year := 2026;
     nonworking_dates := {[ mkdate 2026 1 5; mkdate 2026 1 8 ]};
     notes := [utf8 "Перечень: 5 и 8 января"] |}.

(** ** The entry point *)

(** [fetch_consultant_text] asks the network for a page and strips its
    markup.  It is taken as a function [fetch] of the address and the
    cookies, answering the text of the page, or [None] when the request or
    the status check raised. *)
Section EntryPoint.
Context {U : UnicodeDB} {Cookies : Type}.
Variable fetch : str -> option Cookies -> option str.

Definition parse_calendar_from_consultant (fuel : nat) (today_year : Z)
    (url : str) (year_hint : option Z) (cookies : option Cookies)
    : option (res (Z * gmap Z str * list str)) :=
  match fetch url cookies with
  | None => None
  | Some raw_text =>
      Some (parsed ← extract_nonworking_dates today_year raw_text year_hint;
            day_map ← build_year_map fuel (year parsed)
                        (elements (nonworking_dates parsed));
            Ok (year parsed, day_map, notes parsed))
  end.

End EntryPoint.

(** ** Vocabulary of the further properties *)

(** Whether the [k]-th day of [year] is a Saturday or a Sunday: the day's
    ordinal is [_days_before_year year + k]. *)
Definition weekend_key (year k : Z) : bool :=
  (5 <=? (_days_before_year year + k + 6) mod 7)%Z.

(** The test [\d]. *)
Definition is_digit_class (s : cset) : bool :=
  match s with
  | CIn [ICat CatDigit] => true
  | _ => false
  end.

(** Every match of [r] consumes a character through the test [\d]. *)
Fixpoint needs_digit (r : re) : bool :=
  match r with
  | Chr s => is_digit_class s
  | Seq r1 r2 => needs_digit r1 || needs_digit r2
  | Alt r1 r2 => needs_digit r1 && needs_digit r2
  | Rep _ lo _ r' => (1 <=? lo)%nat && needs_digit r'
  | Group _ r' => needs_digit r'
  | Eps | WordB | NotBehind _ => false
  end.

(** The window of the single-date stage around the match [m] holds one of
    the trigger words. *)
Definition triggered `{U : UnicodeDB} (text : str) (m : pymatch) : bool :=
  existsb
    (fun key =>
       contains key (str_lower (slice text (m_start m - 40) (m_end m + 40))))
    TRIGGERS.

(** [d] is the date the single-date pattern reads in its match [m]. *)
Definition single_date `{U : UnicodeDB} (y : Z) (text : str) (m : pymatch) (d : date) : Prop :=
  exists mt mo dday,
    group text m "month" = Some mt
    /\ _normalize_month mt = Some mo
    /\ int_group text m "day" = Ok dday
    /\ date_new y mo dday = Ok d.

(** The shapes of the notes. *)
Definition is_range_note (n : str) : Prop :=
  exists d1 d2 mt, n = range_note d1 d2 mt.
Definition is_listed_note (n : str) : Prop :=
  exists raw mt, n = listed_note raw mt.
Definition is_single_note (n : str) : Prop :=
  exists dd mt, n = single_note dd mt.
Definition is_transfer_note (n : str) : Prop :=
  exists dd mt, n = transfer_note dd mt.

(** The characters [str.strip] is asked to remove from a month token. *)
Definition MONTH_PUNCT : str := utf8 " .,:;".

(** The year when no pattern of [YEAR_PATTERNS] matches. *)
Definition fallback_year (today_year : Z) (fallback : option Z) : Z :=
  match fallback with
  | Some f => if (f =? 0)%Z then today_year else f
  | None => today_year
  end.

(** [d] is a date between the bounds of the range match [m]. *)
Definition range_date `{U : UnicodeDB} (y : Z) (text : str) (m : pymatch) (d : date) : Prop :=
  exists mt mo d1 d2 dd,
    group text m "month" = Some mt
    /\ _normalize_month mt = Some mo
    /\ int_group text m "d1" = Ok d1
    /\ int_group text m "d2" = Ok d2
    /\ (Z.min d1 d2 <= dd <= Z.max d1 d2)%Z
    /\ date_new y mo dd = Ok d.

(** [d] is a date of the day list of the match [m]. *)
Definition listed_date `{U : UnicodeDB} (y : Z) (text : str) (m : pymatch) (d : date) : Prop :=
  exists mt mo raw days dd,
    group text m "month" = Some mt
    /\ _normalize_month mt = Some mo
    /\ group text m "days" = Some raw
    /\ listed_days raw = Ok days
    /\ dd ∈ days
    /\ date_new y mo dd = Ok d.

(** A day as it stands in a day list: its digits, with white space before
    and after. *)
Record day_unit := { pad_before : str; unit_digits : str; pad_after : str }.

Definition unit_text (u : day_unit) : str :=
  pad_before u ++ unit_digits u ++ pad_after u.

(** The separators the list stage knows: the comma, and the conjunction
    between two blanks. *)
Inductive day_sep := SepComma | SepConj.

Definition sep_text (s : day_sep) : str :=
  match s with
  | SepComma => [0x2C%N]
  | SepConj => [0x20%N; 0x438%N; 0x20%N]
  end.

(** A day list: a first day, then separators each followed by a day. *)
Fixpoint day_list_text (u : day_unit) (rest : list (day_sep * day_unit)) : str :=
  unit_text u
  ++ match rest with
     | [] => []
     | (s, u') :: rest' => sep_text s ++ day_list_text u' rest'
     end.

Definition well_formed_unit `{U : UnicodeDB} (u : day_unit) : Prop :=
  Forall (fun x => is_space x = true) (pad_before u)
  /\ unit_digits u <> []
  /\ Forall (fun x => is_decimal x = true) (unit_digits u)
  /\ Forall (fun x => is_space x = true) (pad_after u).

(** The number a run of decimal digits denotes. *)
Definition digits_value `{U : UnicodeDB} (w : str) : Z :=
  fold_left (fun acc c => (10 * acc + decimal_value c)%Z) w 0%Z.

(** * Proofs *)

(** ** Calendar arithmetic *)

Lemma month_cases (m : Z) :
  (1 <= m <= 12)%Z ->
  (m = 1 \/ m = 2 \/ m = 3 \/ m = 4 \/ m = 5 \/ m = 6 \/ m = 7 \/ m = 8
  \/ m = 9 \/ m = 10 \/ m = 11 \/ m = 12)%Z.
Proof. lia. Qed.

Ltac eval_bool t :=
  let v := eval vm_compute in t in
  match v with
  | true => change t with true in *
  | false => change t with false in *
  end.

Ltac table :=
  repeat match goal with
  | |- context [Z.to_nat ?n] =>
      let v := eval vm_compute in (Z.to_nat n) in
      progress change (Z.to_nat n) with v
  | H : context [Z.to_nat ?n] |- _ =>
      let v := eval vm_compute in (Z.to_nat n) in
      progress change (Z.to_nat n) with v in H
  | |- context [Z.ltb ?a ?b] => eval_bool (Z.ltb a b)
  | |- context [Z.eqb ?a ?b] => eval_bool (Z.eqb a b)
  | H : context [Z.ltb ?a ?b] |- _ => eval_bool (Z.ltb a b)
  | H : context [Z.eqb ?a ?b] |- _ => eval_bool (Z.eqb a b)
  end;
  cbn in *.

Ltac split_month H :=
  apply month_cases in H;
  repeat (destruct H as [H | H]); subst.

Section DateFacts.
Local Open Scope Z_scope.

Lemma days_before_year_succ (y : Z) :
  _days_before_year (y + 1) = _days_before_year y + days_in_year y.
Proof.
  unfold _days_before_year, days_in_year, _is_leap.
  replace (y + 1 - 1) with y by lia.
  destruct (Z.eqb_spec (y mod 4) 0), (Z.eqb_spec (y mod 100) 0),
    (Z.eqb_spec (y mod 400) 0); cbn [andb orb negb];
    Z.div_mod_to_equations; lia.
Qed.

Lemma days_in_month_pos (y m : Z) : 1 <= m <= 12 -> 28 <= _days_in_month y m <= 31.
Proof.
  intros H. unfold _days_in_month.
  split_month H; destruct (_is_leap y); table; lia.
Qed.

Lemma days_before_month_succ (y m : Z) :
  1 <= m <= 11 ->
  _days_before_month y (m + 1) = _days_before_month y m + _days_in_month y m.
Proof.
  intros H. assert (H' : 1 <= m <= 12) by lia.
  unfold _days_before_month, _days_in_month.
  split_month H'; try lia; destruct (_is_leap y); table; lia.
Qed.

Lemma days_before_month_12 (y : Z) :
  _days_before_month y 12 + _days_in_month y 12 = days_in_year y.
Proof.
  unfold _days_before_month, _days_in_month, days_in_year.
  destruct (_is_leap y); table; lia.
Qed.

Lemma day_of_year_eq (d : date) :
  day_of_year d = _days_before_month (date_year d) (date_month d) + date_day d.
Proof.
  unfold day_of_year, days_between, toordinal, _ymd2ord; cbn.
  unfold _days_before_month at 2. table. lia.
Qed.

Lemma day_of_year_range (d : date) :
  valid_date d -> 1 <= day_of_year d <= days_in_year (date_year d).
Proof.
  intros (_ & Hm & Hd). rewrite day_of_year_eq.
  destruct d as [y m dd]; cbn in *.
  unfold _days_before_month, _days_in_month, days_in_year in *.
  split_month Hm; destruct (_is_leap y); table; lia.
Qed.

Lemma day_of_year_inj (d1 d2 : date) :
  valid_date d1 -> valid_date d2 -> date_year d1 = date_year d2 ->
  day_of_year d1 = day_of_year d2 -> d1 = d2.
Proof.
  intros (_ & Hm1 & Hd1) (_ & Hm2 & Hd2) Hy. rewrite !day_of_year_eq.
  destruct d1 as [y m1 a1], d2 as [y2 m2 a2]; cbn in *. subst y2.
  unfold _days_before_month, _days_in_month in *.
  intros H.
  split_month Hm1; split_month Hm2; destruct (_is_leap y); table;
    first [ f_equal; lia | exfalso; lia ].
Qed.

End DateFacts.

Section BuildYearMap.
Local Open Scope Z_scope.

Lemma date_new_ok (y m dd : Z) :
  valid_date (mkdate y m dd) -> date_new y m dd = Ok (mkdate y m dd).
Proof.
  unfold valid_date, MINYEAR, MAXYEAR; cbn. intros (Hy & Hm & Hd).
  pose proof (days_in_month_pos y m Hm) as Hb.
  unfold date_new, fits_c_int, MINYEAR, MAXYEAR.
  rewrite !(proj2 (Z.leb_le _ _)) by lia. reflexivity.
Qed.

Lemma date_new_inv (y m dd : Z) (d : date) :
  date_new y m dd = Ok d -> d = mkdate y m dd /\ valid_date d.
Proof.
  unfold date_new, valid_date, MINYEAR, MAXYEAR.
  repeat match goal with
  | |- context [negb ?b] => destruct b eqn:?; cbn [negb]; try discriminate
  end.
  intros [= <-]; cbn. split; [reflexivity | lia].
Qed.

Lemma date_add_day_spec (d : date) :
  valid_date d -> date_year d < MAXYEAR ->
  exists d', date_add_day d = Ok d' /\ valid_date d'
    /\ toordinal d' = toordinal d + 1
    /\ ((date_year d' = date_year d /\ day_of_year d' = day_of_year d + 1)
        \/ (d' = mkdate (date_year d + 1) 1 1
            /\ day_of_year d = days_in_year (date_year d))).
Proof.
  destruct d as [y m dd]. unfold valid_date, MINYEAR, MAXYEAR; cbn.
  intros (Hy & Hm & Hd) Hlt. unfold MAXYEAR.
  destruct (Z.ltb_spec dd (_days_in_month y m)) as [Hlast | Hlast].
  - exists (mkdate y m (dd + 1)). repeat split; cbn; try lia.
    + unfold toordinal, _ymd2ord; cbn. lia.
    + left. rewrite !day_of_year_eq; cbn. lia.
  - destruct (Z.ltb_spec m 12) as [Hm12 | Hm12].
    + exists (mkdate y (m + 1) 1).
      pose proof (days_in_month_pos y (m + 1) ltac:(lia)).
      pose proof (days_before_month_succ y m ltac:(lia)) as Hs.
      repeat split; cbn; try lia.
      * unfold toordinal, _ymd2ord; cbn. lia.
      * left. rewrite !day_of_year_eq; cbn. lia.
    + assert (m = 12) by lia. subst m.
      destruct (Z.ltb_spec y 9999) as [_ | ?]; [|lia].
      exists (mkdate (y + 1) 1 1).
      pose proof (days_before_month_12 y) as H12.
      pose proof (days_before_year_succ y) as Hsucc.
      repeat split; cbn; try lia.
      * unfold _days_in_month. table. lia.
      * unfold toordinal, _ymd2ord; cbn.
        unfold _days_before_month at 1. table. lia.
      * right. split; [reflexivity|]. rewrite day_of_year_eq; cbn. lia.
Qed.

(** [d + timedelta(days=1)] is the date whose ordinal is one more. *)
Lemma toordinal_add_day (d d' : date) :
  valid_date d -> date_add_day d = Ok d' -> toordinal d' = toordinal d + 1.
Proof.
  intros Hv Hd.
  destruct (Z.ltb_spec (date_year d) MAXYEAR) as [Hy | Hy].
  - destruct (date_add_day_spec d Hv Hy) as (d1 & H1 & _ & Ho & _). congruence.
  - destruct d as [y m dd]. destruct Hv as (Hy' & Hm & Hdd); cbn in *.
    unfold MAXYEAR in *. assert (y = 9999) by lia. subst y.
    revert Hd.
    destruct (Z.ltb_spec dd (_days_in_month 9999 m)).
    + intros [= <-]. unfold toordinal, _ymd2ord; cbn. lia.
    + destruct (Z.ltb_spec m 12).
      * intros [= <-].
        pose proof (days_before_month_succ 9999 m ltac:(lia)).
        unfold toordinal, _ymd2ord; cbn. lia.
      * discriminate.
Qed.

Lemma build_year_loop_spec (y : Z) (nw : gset date) :
  1 <= y <= 9998 ->
  forall (fuel : nat) (d : date) (result : gmap Z str),
    valid_date d -> date_year d = y ->
    days_in_year y - day_of_year d + 1 < Z.of_nat fuel ->
    (forall k, is_Some (result !! k) <-> 1 <= k < day_of_year d) ->
    Z.of_nat (size result) = day_of_year d - 1 ->
    (forall d0, valid_date d0 -> date_year d0 = y ->
                day_of_year d0 < day_of_year d ->
                result !! day_of_year d0 = Some (day_label nw d0)) ->
    exists m,
      build_year_loop fuel (mkdate y 1 1) (mkdate (y + 1) 1 1) d nw result = Ok m
      /\ (forall k, is_Some (m !! k) <-> 1 <= k <= days_in_year y)
      /\ Z.of_nat (size m) = days_in_year y
      /\ (forall d0, valid_date d0 -> date_year d0 = y ->
                     m !! day_of_year d0 = Some (day_label nw d0)).
Proof.
  intros Hy. induction fuel as [|fuel IH]; intros d result Hv Hyd Hfuel Hkeys Hsize Hlab.
  - pose proof (day_of_year_range d Hv) as Hr. rewrite Hyd in Hr. lia.
  - pose proof (day_of_year_range d Hv) as Hr. rewrite Hyd in Hr.
    cbn [build_year_loop].
    assert (Hlt : date_ltb d (mkdate (y + 1) 1 1) = true).
    { unfold date_ltb; cbn. rewrite Hyd.
      rewrite (proj2 (Z.ltb_lt y (y + 1))) by lia. reflexivity. }
    rewrite Hlt.
    assert (Hdoy : days_between d (mkdate y 1 1) + 1 = day_of_year d).
    { unfold day_of_year. by rewrite Hyd. }
    rewrite Hdoy.
    destruct (date_add_day_spec d Hv) as (d' & Hadd & Hv' & _ & Hcase).
    { unfold MAXYEAR. lia. }
    rewrite Hadd. cbn [mbind res_bind].
    fold (day_label nw d).
    set (result' := <[day_of_year d := day_label nw d]> result).
    assert (Hnone : result !! day_of_year d = None).
    { apply eq_None_not_Some. rewrite Hkeys. lia. }
    assert (Hkeys' : forall k, is_Some (result' !! k) <-> 1 <= k < day_of_year d + 1).
    { intros k. unfold result'. rewrite lookup_insert_is_Some, Hkeys. lia. }
    assert (Hsize' : Z.of_nat (size result') = day_of_year d + 1 - 1).
    { unfold result'. rewrite map_size_insert_None by exact Hnone. lia. }
    assert (Hlab' : forall d0, valid_date d0 -> date_year d0 = y ->
                day_of_year d0 < day_of_year d + 1 ->
                result' !! day_of_year d0 = Some (day_label nw d0)).
    { intros d0 Hv0 Hy0 Hlt0. unfold result'.
      destruct (decide (day_of_year d0 = day_of_year d)) as [Heq | Hne].
      - assert (d0 = d) by (apply day_of_year_inj; congruence). subst d0.
        by rewrite lookup_insert_eq.
      - rewrite lookup_insert_ne by congruence. apply Hlab; [done..|lia]. }
    destruct Hcase as [[Hy' Hd'] | [Hd' Hlast]].
    + apply IH; rewrite ?Hd'; try done; try congruence. lia.
    + subst d'. rewrite Hyd in *.
      destruct fuel as [|fuel]; [lia|].
      cbn [build_year_loop].
      assert (Hge : date_ltb (mkdate (y + 1) 1 1) (mkdate (y + 1) 1 1) = false).
      { unfold date_ltb; cbn. rewrite Z.ltb_irrefl, Z.eqb_refl. reflexivity. }
      rewrite Hge. exists result'. split; [reflexivity|].
      split; [|split].
      * intros k. rewrite Hkeys'. lia.
      * lia.
      * intros d0 Hv0 Hy0. apply Hlab'; [done..|].
        pose proof (day_of_year_range d0 Hv0) as Hr0. rewrite Hy0 in Hr0. lia.
Qed.

Lemma build_year_map_spec (fuel : nat) (year : Z) (nonworking : list date) :
  (366 < fuel)%nat -> 1 <= year <= 9998 ->
  exists m,
    build_year_map fuel year nonworking = Ok m
    /\ (forall k, is_Some (m !! k) <-> 1 <= k <= days_in_year year)
    /\ Z.of_nat (size m) = days_in_year year
    /\ (forall d, valid_date d -> date_year d = year ->
                  m !! day_of_year d
                  = Some (day_label (list_to_set nonworking) d)).
Proof.
  intros Hfuel Hy. unfold build_year_map.
  assert (Hv1 : valid_date (mkdate year 1 1)).
  { unfold valid_date, MINYEAR, MAXYEAR; cbn. unfold _days_in_month. table. lia. }
  assert (Hv2 : valid_date (mkdate (year + 1) 1 1)).
  { unfold valid_date, MINYEAR, MAXYEAR; cbn. unfold _days_in_month. table. lia. }
  rewrite (date_new_ok _ _ _ Hv1), (date_new_ok _ _ _ Hv2). cbn [mbind res_bind].
  assert (Hd1 : day_of_year (mkdate year 1 1) = 1).
  { rewrite day_of_year_eq; cbn. unfold _days_before_month. table. lia. }
  apply build_year_loop_spec; try done.
  - rewrite Hd1. unfold days_in_year. destruct (_is_leap year); lia.
  - intros k. rewrite lookup_empty, Hd1. split; [intros []; discriminate | lia].
  - rewrite Hd1. rewrite map_size_empty. lia.
  - intros d0 Hv0 _. rewrite Hd1. pose proof (day_of_year_range d0 Hv0). lia.
Qed.

End BuildYearMap.

#[local] Set Warnings "-clear-no-such-hyp".

(** ** Loops in the result monad *)

Lemma bind_Ok {A B : Type} (m : res A) (f : A -> res B) (b : B) :
  m ≫= f = Ok b -> exists a, m = Ok a /\ f a = Ok b.
Proof. destruct m; cbn; [eauto | discriminate..]. Qed.

Ltac inv_bind H :=
  let x := fresh "x" in
  let Hx := fresh "Hx" in
  apply bind_Ok in H as (x & Hx & H).

Section ForEach.
Context {A S : Type}.
Implicit Types (xs : list A) (body : S -> A -> res S).

(** A property kept by every iteration holds at the end. *)
Lemma for_each_inv (I : S -> Prop) xs body s s' :
  (forall s0 x s1, x ∈ xs -> I s0 -> body s0 x = Ok s1 -> I s1) ->
  I s -> for_each xs s body = Ok s' -> I s'.
Proof.
  revert s. induction xs as [|x xs IH]; intros s Hstep Hs Hrun; cbn in Hrun.
  - by injection Hrun as <-.
  - inv_bind Hrun. eapply IH; [| |exact Hrun].
    + intros s0 y s1 Hy. apply Hstep. by right.
    + eapply Hstep; [left | exact Hs | exact Hx].
Qed.

(** What an iteration establishes for its element, and no later iteration
    undoes, holds of every element at the end. *)
Lemma for_each_established (Q : A -> S -> Prop) xs body s s' :
  (forall s0 x s1, x ∈ xs -> body s0 x = Ok s1 -> Q x s1) ->
  (forall y s0 x s1, Q y s0 -> body s0 x = Ok s1 -> Q y s1) ->
  for_each xs s body = Ok s' -> forall x, x ∈ xs -> Q x s'.
Proof.
  revert s. induction xs as [|x xs IH]; intros s Hest Hkeep Hrun y Hy.
  - by apply elem_of_nil in Hy.
  - cbn in Hrun. inv_bind Hrun.
    apply elem_of_cons in Hy as [-> | Hy].
    + eapply (for_each_inv (Q x)); [| |exact Hrun].
      * intros s0 z s1 _ HQ Hb. eapply Hkeep; eauto.
      * eapply Hest; [left | exact Hx].
    + eapply IH; [| exact Hkeep | exact Hrun | exact Hy].
      intros s0 z s1 Hz. apply Hest. by right.
Qed.

(** A loop whose body cannot raise does not raise. *)
Lemma for_each_total (I : S -> Prop) xs body s :
  (forall s0 x, x ∈ xs -> I s0 -> exists s1, body s0 x = Ok s1 /\ I s1) ->
  I s -> exists s', for_each xs s body = Ok s' /\ I s'.
Proof.
  revert s. induction xs as [|x xs IH]; intros s Hstep Hs; cbn.
  - eauto.
  - destruct (Hstep s x) as (s1 & -> & Hs1); [left | exact Hs |]. cbn.
    apply IH; [|exact Hs1]. intros s0 y Hy. apply Hstep. by right.
Qed.

End ForEach.

Lemma elem_of_py_range (a b x : Z) : x ∈ py_range a b <-> (a <= x < b)%Z.
Proof.
  unfold py_range. rewrite list_elem_of_fmap. split.
  - intros (i & -> & Hi). apply elem_of_seq in Hi. lia.
  - intros H. exists (Z.to_nat (x - a)). split; [lia|].
    apply elem_of_seq. lia.
Qed.

(** ** What the extractor puts into the set *)

Section ExtractorFacts.
Context {U : UnicodeDB}.

Lemma safe_date_Some (y m dd : Z) (d : date) :
  _safe_date y m dd = Ok (Some d) <-> date_new y m dd = Ok d.
Proof.
  unfold _safe_date. destruct (date_new y m dd) as [d'| [] |]; split;
    intros H; try discriminate; congruence.
Qed.

Lemma safe_date_inv (y m dd : Z) (o : option date) :
  _safe_date y m dd = Ok o ->
  match o with
  | Some d => date_new y m dd = Ok d
  | None => date_new y m dd = Raise ValueError
  end.
Proof.
  unfold _safe_date. destruct (date_new y m dd) as [d'| [] |];
    intros H; try discriminate; by injection H as <-.
Qed.


Lemma of_year_add (y m dd : Z) (d : date) (nw : gset date) :
  date_new y m dd = Ok d -> of_year y nw -> of_year y ({[d]} ∪ nw).
Proof.
  intros Hd Hnw d' Hd'. apply date_new_inv in Hd as [-> Hv].
  apply elem_of_union in Hd' as [Hd' | Hd']; [|by apply Hnw].
  apply elem_of_singleton in Hd' as ->. done.
Qed.

(** *** The inner loops *)

Lemma range_body_spec (y mo : Z) (nw nw' : gset date) (dd : Z) :
  range_body y mo nw dd = Ok nw' ->
  (exists d, date_new y mo dd = Ok d /\ nw' = {[d]} ∪ nw)
  \/ (date_new y mo dd = Raise ValueError /\ nw' = nw).
Proof.
  unfold range_body. intros H. inv_bind H. apply safe_date_inv in Hx.
  destruct x as [d|]; injection H as <-; eauto.
Qed.

Lemma range_loop_spec (y mo : Z) (days : list Z) (nw nw' : gset date) :
  for_each days nw (range_body y mo) = Ok nw' ->
  nw ⊆ nw'
  /\ (forall dd d, dd ∈ days -> date_new y mo dd = Ok d -> d ∈ nw')
  /\ (forall d, d ∈ nw' ->
        d ∈ nw \/ exists dd, dd ∈ days /\ date_new y mo dd = Ok d).
Proof.
  intros Hrun. split; [|split].
  - revert Hrun. apply (for_each_inv (fun s => nw ⊆ s)); [|done].
    intros s0 x s1 _ Hs0 Hb.
    apply range_body_spec in Hb as [(d & _ & ->) | (_ & ->)]; set_solver.
  - intros dd d Hdd Hd.
    refine (for_each_established
              (fun dd s => forall d, date_new y mo dd = Ok d -> d ∈ s)
              days (range_body y mo) nw nw' _ _ Hrun dd Hdd d Hd).
    + intros s0 x s1 _ Hb d0 Hd0.
      apply range_body_spec in Hb as [(d' & Hd' & ->) | (Hd' & ->)];
        [|congruence].
      assert (d' = d0) by congruence. set_solver.
    + intros dd0 s0 x s1 HQ Hb d0 Hd0. specialize (HQ d0 Hd0).
      apply range_body_spec in Hb as [(d' & _ & ->) | (_ & ->)]; set_solver.
  - revert Hrun.
    apply (for_each_inv (fun s => forall d, d ∈ s ->
             d ∈ nw \/ exists dd, dd ∈ days /\ date_new y mo dd = Ok d));
      [|by left].
    intros s0 x s1 Hx Hs0 Hb d Hd.
    apply range_body_spec in Hb as [(d' & Hd' & ->) | (_ & ->)]; [|by apply Hs0].
    apply elem_of_union in Hd as [Hd | Hd]; [|by apply Hs0].
    apply elem_of_singleton in Hd as ->. right. eauto.
Qed.

Lemma listed_body_spec (y mo : Z) (nw nw' : gset date) (a a' : bool) (dd : Z) :
  listed_body y mo (nw, a) dd = Ok (nw', a') ->
  (exists d, date_new y mo dd = Ok d /\ (d ∉ nw) /\ nw' = {[d]} ∪ nw /\ a' = true)
  \/ (exists d, date_new y mo dd = Ok d /\ d ∈ nw /\ nw' = nw /\ a' = a)
  \/ (date_new y mo dd = Raise ValueError /\ nw' = nw /\ a' = a).
Proof.
  unfold listed_body. intros H. inv_bind H. apply safe_date_inv in Hx.
  destruct x as [d|].
  - case_bool_decide; injection H as <- <-; [right; left | left]; eauto 10.
  - injection H as <- <-. right; right. eauto.
Qed.

(** After the inner loop of the list stage: the set has grown by exactly the
    valid dates of [days], and the flag tells whether one of them was new. *)
Lemma listed_loop_spec (y mo : Z) (days : list Z) (nw nw' : gset date)
    (a a' : bool) :
  for_each days (nw, a) (listed_body y mo) = Ok (nw', a') ->
  nw ⊆ nw'
  /\ (forall dd d, dd ∈ days -> date_new y mo dd = Ok d -> d ∈ nw')
  /\ (forall d, d ∈ nw' ->
        d ∈ nw \/ exists dd, dd ∈ days /\ date_new y mo dd = Ok d)
  /\ (a' = true <-> a = true \/ exists d, d ∈ nw' /\ d ∉ nw).
Proof.
  revert nw a. induction days as [|dd days IH]; intros nw a Hrun; cbn in Hrun.
  - injection Hrun as <- <-. split; [done|]. split; [|split].
    + intros dd d Hdd. by apply elem_of_nil in Hdd.
    + by left.
    + split; [by left | intros [H | (d & H1 & H2)]; done].
  - inv_bind Hrun. destruct x as [nw1 a1].
    apply IH in Hrun as (Hsub & Hall & Honly & Hflag).
    apply listed_body_spec in Hx
      as [(d & Hd & Hnew & -> & ->) | [(d & Hd & Hold & -> & ->) | (Hd & -> & ->)]].
    + split; [set_solver|]. split; [|split].
      * intros dd' d' Hdd' Hd'. apply elem_of_cons in Hdd' as [-> | Hdd'].
        -- assert (d' = d) by congruence. set_solver.
        -- eapply Hall; eauto.
      * intros d' Hd'. destruct (Honly d' Hd') as [Hin | (dd' & Hin & Hnew')].
        -- apply elem_of_union in Hin as [Hin | Hin]; [|by left].
           apply elem_of_singleton in Hin as ->. right. exists dd.
           split; [left | done].
        -- right. exists dd'. split; [by right | done].
      * split; [intros _ | intros _; apply Hflag; by left].
        right. exists d. split; [set_solver | done].
    + split; [done|]. split; [|split].
      * intros dd' d' Hdd' Hd'. apply elem_of_cons in Hdd' as [-> | Hdd'].
        -- assert (d' = d) by congruence. set_solver.
        -- eapply Hall; eauto.
      * intros d' Hd'. destruct (Honly d' Hd') as [Hin | (dd' & Hin & Hnew')];
          [by left|]. right. exists dd'. split; [by right | done].
      * done.
    + split; [done|]. split; [|split].
      * intros dd' d' Hdd' Hd'. apply elem_of_cons in Hdd' as [-> | Hdd'];
          [congruence|]. eapply Hall; eauto.
      * intros d' Hd'. destruct (Honly d' Hd') as [Hin | (dd' & Hin & Hnew')];
          [by left|]. right. exists dd'. split; [by right | done].
      * done.
Qed.

(** *** The month table *)

Lemma normalize_month_range (token : str) (mo : Z) :
  _normalize_month token = Some mo -> (1 <= mo <= 12)%Z.
Proof.
  unfold _normalize_month, MONTHS_RU. intros H.
  apply elem_of_list_to_map_2 in H.
  repeat (apply elem_of_cons in H as [[= _ ->] | H]; [lia|]).
  by apply elem_of_nil in H.
Qed.

(** *** One iteration of each stage *)


Lemma need_Ok {A : Type} (e : exn) (o : option A) (a : A) :
  need e o = Ok a <-> o = Some a.
Proof. destruct o; cbn; split; intros H; congruence. Qed.

Lemma range_step_spec (y : Z) (text : str) (nw nw' : gset date)
    (ns ns' : list str) (m : pymatch) :
  range_step y text (nw, ns) m = Ok (nw', ns') ->
  exists mt, group text m "month" = Some mt
    /\ ((_normalize_month mt = None /\ nw' = nw /\ ns' = ns)
        \/ exists mo d1 d2,
             _normalize_month mt = Some mo
             /\ int_group text m "d1" = Ok d1
             /\ int_group text m "d2" = Ok d2
             /\ for_each (py_range (Z.min d1 d2) (Z.max d1 d2 + 1)) nw
                  (range_body y mo) = Ok nw'
             /\ ns' = ns ++ [range_note d1 d2 mt]).
Proof.
  unfold range_step. intros H. inv_bind H. rename x into mt.
  apply need_Ok in Hx. exists mt. split; [exact Hx|].
  destruct (_normalize_month mt) as [mo|] eqn:Hmo;
    [|injection H as <- <-; by left].
  pose proof (normalize_month_range _ _ Hmo) as Hr.
  destruct mo as [|mo|mo]; [lia| |lia].
  inv_bind H. inv_bind H. inv_bind H. injection H as <- <-.
  right. eauto 10.
Qed.

Lemma listed_step_spec (y : Z) (text : str) (nw nw' : gset date)
    (ns ns' : list str) (m : pymatch) :
  listed_step y text (nw, ns) m = Ok (nw', ns') ->
  exists mt, group text m "month" = Some mt
    /\ ((nw' = nw /\ ns' = ns
         /\ (_normalize_month mt = None
             \/ group text m "days" = None
             \/ group text m "days" = Some []
             \/ (exists raw, group text m "days" = Some raw
                             /\ search DIGIT_RE raw 0 = None)
             \/ (exists raw, group text m "days" = Some raw
                             /\ listed_days raw = Ok [])))
        \/ exists mo raw days added_any,
             _normalize_month mt = Some mo
             /\ group text m "days" = Some raw
             /\ raw <> [] /\ search DIGIT_RE raw 0 <> None
             /\ listed_days raw = Ok days /\ days <> []
             /\ for_each days (nw, false) (listed_body y mo)
                = Ok (nw', added_any)
             /\ ns' = if added_any then ns ++ [listed_note raw mt] else ns).
Proof.
  unfold listed_step. intros H. inv_bind H. rename x into mt.
  apply need_Ok in Hx. exists mt. split; [exact Hx|].
  destruct (_normalize_month mt) as [mo|] eqn:Hmo;
    [|injection H as <- <-; left; eauto].
  pose proof (normalize_month_range _ _ Hmo) as Hr.
  destruct mo as [|mo|mo]; [lia| |lia].
  destruct (group text m "days") as [raw|] eqn:Hraw;
    [|injection H as <- <-; left; eauto 10].
  destruct raw as [|c raw]; [injection H as <- <-; left; eauto 10|].
  destruct (search DIGIT_RE (c :: raw) 0) as [md|] eqn:Hdig;
    [|injection H as <- <-; left; eauto 10].
  inv_bind H. rename x into days.
  destruct days as [|dd days]; [injection H as <- <-; left; eauto 10|].
  inv_bind H. destruct x as [nw1 added_any].
  right. exists (Z.pos mo), (c :: raw), (dd :: days), added_any.
  rewrite Hdig.
  destruct added_any; injection H as <- <-; repeat split; try done.
Qed.

Lemma single_step_spec (y : Z) (text : str) (nw nw' : gset date)
    (ns ns' : list str) (m : pymatch) :
  single_step y text (nw, ns) m = Ok (nw', ns') ->
  (nw' = nw /\ ns' = ns)
  \/ exists mt mo dday d,
       group text m "month" = Some mt
       /\ _normalize_month mt = Some mo
       /\ int_group text m "day" = Ok dday
       /\ date_new y mo dday = Ok d /\ (d ∉ nw)
       /\ existsb (fun key =>
            contains key
              (str_lower (slice text (m_start m - 40) (m_end m + 40))))
            TRIGGERS = true
       /\ nw' = {[d]} ∪ nw /\ ns' = ns ++ [single_note dday mt].
Proof.
  unfold single_step. intros H. inv_bind H. rename x into mt.
  apply need_Ok in Hx.
  destruct (_normalize_month mt) as [mo|] eqn:Hmo;
    [|injection H as <- <-; by left].
  pose proof (normalize_month_range _ _ Hmo) as Hr.
  destruct mo as [|mo|mo]; [lia| |lia].
  inv_bind H. rename x into dday. inv_bind H. apply safe_date_inv in Hx1.
  destruct x as [d|]; [|injection H as <- <-; by left].
  case_bool_decide as Hin; [injection H as <- <-; by left|].
  destruct (existsb _ TRIGGERS) eqn:Htrig; injection H as <- <-; [|by left].
  right. exists mt, (Z.pos mo), dday, d. repeat split; done.
Qed.

Lemma transfer_step_spec (y : Z) (text : str) (nw nw' : gset date)
    (ns ns' : list str) (m : pymatch) :
  transfer_step y text (nw, ns) m = Ok (nw', ns') ->
  (nw' = nw /\ ns' = ns)
  \/ exists to_text m_to d_to d,
       group text m "to_month" = Some to_text
       /\ _normalize_month to_text = Some m_to
       /\ int_group text m "to_day" = Ok d_to
       /\ date_new y m_to d_to = Ok d
       /\ nw' = {[d]} ∪ nw /\ ns' = ns ++ [transfer_note d_to to_text].
Proof.
  unfold transfer_step. intros H. inv_bind H. inv_bind H. rename x0 into d_to.
  inv_bind H. inv_bind H. rename x1 into to_text. apply need_Ok in Hx2.
  destruct (_normalize_month to_text) as [mo|] eqn:Hmo;
    [|injection H as <- <-; by left].
  pose proof (normalize_month_range _ _ Hmo) as Hr.
  destruct mo as [|mo|mo]; [lia| |lia].
  inv_bind H. apply safe_date_inv in Hx3.
  destruct x1 as [d|]; injection H as <- <-; [|by left].
  right. exists to_text, (Z.pos mo), d_to, d. repeat split; done.
Qed.


Lemma grows_refl (y : Z) (st : state) : grows y st st.
Proof. split; [done|]. split; [done|]. exists []. by rewrite app_nil_r. Qed.

Lemma grows_trans (y : Z) (a b c : state) : grows y a b -> grows y b c -> grows y a c.
Proof.
  intros (H1 & H2 & n1 & H3) (H4 & H5 & n2 & H6). split; [set_solver|].
  split; [tauto|]. exists (n1 ++ n2). rewrite H6, H3. by rewrite app_assoc.
Qed.

Lemma grows_add (y mo dd : Z) (d : date) (nw : gset date) (ns : list str)
    (note : str) :
  date_new y mo dd = Ok d -> grows y (nw, ns) ({[d]} ∪ nw, ns ++ [note]).
Proof.
  intros Hd. split; [set_solver|]. split; [by eapply of_year_add | by eexists].
Qed.

Lemma range_step_grows (y : Z) (text : str) (st st' : state) (m : pymatch) :
  range_step y text st m = Ok st' -> grows y st st'.
Proof.
  destruct st as [nw ns], st' as [nw' ns']. intros H.
  apply range_step_spec in H
    as (mt & _ & [(_ & -> & ->) | (mo & d1 & d2 & _ & _ & _ & Hloop & ->)]);
    [apply grows_refl|].
  apply range_loop_spec in Hloop as (Hsub & _ & Honly).
  split; [done|]. split; [|by eexists]. cbn [fst snd].
  intros Hof d Hd. destruct (Honly d Hd) as [Hin | (dd & _ & Hnew)];
    [by apply Hof|]. apply date_new_inv in Hnew as [-> Hv]. done.
Qed.

Lemma listed_step_grows (y : Z) (text : str) (st st' : state) (m : pymatch) :
  listed_step y text st m = Ok st' -> grows y st st'.
Proof.
  destruct st as [nw ns], st' as [nw' ns']. intros H.
  apply listed_step_spec in H
    as (mt & _ & [(-> & -> & _)
                 | (mo & raw & days & a & _ & _ & _ & _ & _ & _ & Hloop & ->)]);
    [apply grows_refl|].
  apply listed_loop_spec in Hloop as (Hsub & _ & Honly & _).
  split; [done|]. split.
  - cbn [fst snd]. intros Hof d Hd.
    destruct (Honly d Hd) as [Hin | (dd & _ & Hnew)];
      [by apply Hof|]. apply date_new_inv in Hnew as [-> Hv]. done.
  - cbn [fst snd]. destruct a; [by eexists | exists []; by rewrite app_nil_r].
Qed.

Lemma single_step_grows (y : Z) (text : str) (st st' : state) (m : pymatch) :
  single_step y text st m = Ok st' -> grows y st st'.
Proof.
  destruct st as [nw ns], st' as [nw' ns']. intros H.
  apply single_step_spec in H
    as [(-> & ->) | (mt & mo & dd & d & _ & _ & _ & Hd & _ & _ & -> & ->)];
    [apply grows_refl | by eapply grows_add].
Qed.

Lemma transfer_step_grows (y : Z) (text : str) (st st' : state) (m : pymatch) :
  transfer_step y text st m = Ok st' -> grows y st st'.
Proof.
  destruct st as [nw ns], st' as [nw' ns']. intros H.
  apply transfer_step_spec in H
    as [(-> & ->) | (tt & mo & dd & d & _ & _ & _ & Hd & -> & ->)];
    [apply grows_refl | by eapply grows_add].
Qed.

Lemma stage_grows (y : Z) (ms : list pymatch)
    (step : state -> pymatch -> res state) (st st' : state) :
  (forall s m s', step s m = Ok s' -> grows y s s') ->
  for_each ms st step = Ok st' -> grows y st st'.
Proof.
  intros Hstep. apply (for_each_inv (grows y st)); [|apply grows_refl].
  intros s0 m s1 _ H0 Hb. eapply grows_trans; eauto.
Qed.

(** The four stages of a run, laid out. *)
Lemma extract_stages (today : Z) (text : str) (hint : option Z) (r : ParseResult) :
  extract_nonworking_dates today text hint = Ok r ->
  exists st1 st2 st3 st4,
    _detect_year today text hint = Ok (year r)
    /\ range_stage (year r) text (∅, []) = Ok st1
    /\ listed_stage (year r) text st1 = Ok st2
    /\ single_stage (year r) text st2 = Ok st3
    /\ transfer_stage (year r) text st3 = Ok st4
    /\ nonworking_dates r = st4.1 /\ notes r = st4.2.
Proof.
  unfold extract_nonworking_dates. intros H.
  inv_bind H. inv_bind H. inv_bind H. inv_bind H. inv_bind H.
  injection H as <-. exists x0, x1, x2, x3. cbn [year nonworking_dates notes].
  repeat split; assumption.
Qed.

Lemma extract_grows (today : Z) (text : str) (hint : option Z) (r : ParseResult) :
  extract_nonworking_dates today text hint = Ok r ->
  exists st1,
    range_stage (year r) text (∅, []) = Ok st1
    /\ grows (year r) (∅, []) st1
    /\ grows (year r) st1 (nonworking_dates r, notes r).
Proof.
  intros H. apply extract_stages in H
    as (st1 & st2 & st3 & st4 & _ & H1 & H2 & H3 & H4 & -> & ->).
  exists st1. split; [exact H1|].
  assert (G1 : grows (year r) (∅, []) st1).
  { eapply stage_grows; [|exact H1]. intros s m s'. apply range_step_grows. }
  assert (G2 : grows (year r) st1 st2).
  { eapply stage_grows; [|exact H2]. intros s m s'. apply listed_step_grows. }
  assert (G3 : grows (year r) st2 st3).
  { eapply stage_grows; [|exact H3]. intros s m s'. apply single_step_grows. }
  assert (G4 : grows (year r) st3 st4).
  { eapply stage_grows; [|exact H4]. intros s m s'. apply transfer_step_grows. }
  split; [exact G1|]. destruct st4 as [nw4 ns4]; cbn [fst snd].
  eauto using grows_trans.
Qed.

End ExtractorFacts.

(** ** The matcher finds matches only *)

Section MatcherSound.
Context {U : UnicodeDB}.
Variable (P : pattern) (text : str).

#[local] Abbreviation Matches := (Matches P text).
#[local] Abbreviation re_match := (re_match P text).


Lemma rep_loop_sound (r : re) (g : bool) :
  body_sound P text r ->
  forall fuel lo hi p c k res,
    rep_loop (re_match r) g fuel lo hi p c k = Some res ->
    exists p' c', Matches (Rep g lo hi r) p c p' c' /\ k p' c' = Some res.
Proof.
  intros Hbody. induction fuel as [|fuel IH]; intros lo hi p c k res H;
    [discriminate|].
  cbn [rep_loop] in H.
  set (more := if can_more hi then
                 re_match r p c (fun p' c' =>
                   if (p <? p')%nat
                   then rep_loop (re_match r) g fuel (Nat.pred lo) (dec_hi hi) p' c' k
                   else None)
               else None) in H.
  assert (Hmore : more = Some res ->
            exists p' c', Matches (Rep g lo hi r) p c p' c' /\ k p' c' = Some res).
  { unfold more. destruct (can_more hi) eqn:Hhi; [|discriminate].
    intros Hm. apply Hbody in Hm as (p1 & c1 & Hm1 & Hk1).
    destruct (Nat.ltb_spec p p1) as [Hlt|]; [|discriminate].
    apply IH in Hk1 as (p2 & c2 & Hm2 & Hk2).
    exists p2, c2. split; [|exact Hk2]. eapply M_rep_step; eauto. }
  assert (Hstop : lo = 0%nat -> k p c = Some res ->
            exists p' c', Matches (Rep g lo hi r) p c p' c' /\ k p' c' = Some res).
  { intros -> Hk. exists p, c. split; [apply M_rep_stop | exact Hk]. }
  destruct lo as [|lo]; [|by apply Hmore].
  destruct g.
  - destruct more as [res'|]; [apply Hmore; congruence | by apply Hstop].
  - destruct (k p c) as [res'|] eqn:Hk; [|by apply Hmore].
    apply Hstop; congruence.
Qed.

Lemma re_match_sound (r : re) : body_sound P text r.
Proof.
  induction r as [|s|r1 IH1 r2 IH2|r1 IH1 r2 IH2|g lo hi r IH|g r IH| |s];
    intros p c k res H.
  - exists p, c. split; [constructor | exact H].
  - cbn in H. destruct (text !! p) as [x|] eqn:Hx; [|discriminate].
    destruct (char_ok P s x) eqn:Hs; [|discriminate].
    exists (S p), c. split; [by econstructor | exact H].
  - cbn in H. apply IH1 in H as (p1 & c1 & H1 & H).
    apply IH2 in H as (p2 & c2 & H2 & H).
    exists p2, c2. split; [by econstructor | exact H].
  - cbn in H. destruct (re_match r1 p c k) as [res'|] eqn:H1.
    + injection H as ->. apply IH1 in H1 as (p1 & c1 & H1 & Hk).
      exists p1, c1. split; [by apply M_alt_l | exact Hk].
    + apply IH2 in H as (p1 & c1 & H2 & Hk).
      exists p1, c1. split; [by apply M_alt_r | exact Hk].
  - apply (rep_loop_sound r g IH (S (length text - p))). exact H.
  - cbn in H. apply IH in H as (p1 & c1 & H1 & Hk).
    exists p1, ((g, (p, p1)) :: c1). split; [by constructor | exact Hk].
  - cbn in H. destruct (word_boundary text p) eqn:Hb; [|discriminate].
    exists p, c. split; [by constructor | exact H].
  - cbn in H. destruct (behind P text s p) eqn:Hb; [discriminate|].
    exists p, c. split; [by constructor | exact H].
Qed.

(** *** Consequences for a match: its span, its characters, its groups *)

Lemma Matches_min (r : re) p c p' c' :
  Matches r p c p' c' -> (p + min_len r <= p')%nat.
Proof.
  induction 1; cbn [min_len] in *; try lia.
  destruct lo; cbn [Nat.pred] in *; nia.
Qed.

Lemma Matches_max (r : re) p c p' c' :
  Matches r p c p' c' -> forall n, max_len r = Some n -> (p' <= p + n)%nat.
Proof.
  induction 1; cbn [max_len]; intros n Hn.
  - lia.
  - injection Hn as <-. lia.
  - destruct (max_len r1) as [a|], (max_len r2) as [b|]; try discriminate.
    injection Hn as <-. specialize (IHMatches1 _ eq_refl).
    specialize (IHMatches2 _ eq_refl). lia.
  - destruct (max_len r1) as [a|], (max_len r2) as [b|]; try discriminate.
    injection Hn as <-. specialize (IHMatches _ eq_refl). lia.
  - destruct (max_len r1) as [a|], (max_len r2) as [b|]; try discriminate.
    injection Hn as <-. specialize (IHMatches _ eq_refl). lia.
  - lia.
  - destruct hi as [h|]; [|discriminate].
    destruct (max_len r) as [a|] eqn:Ha; [|discriminate].
    injection Hn as <-. specialize (IHMatches1 _ eq_refl).
    cbn [dec_hi max_len] in IHMatches2. rewrite Ha in IHMatches2.
    specialize (IHMatches2 _ eq_refl).
    destruct h; [discriminate|]. cbn [Nat.pred] in *. nia.
  - eauto.
  - injection Hn as <-. lia.
  - injection Hn as <-. lia.
Qed.

Lemma Matches_chars (r : re) p c p' c' :
  Matches r p c p' c' ->
  forall i x, (p <= i < p')%nat -> text !! i = Some x -> re_chars P r x = true.
Proof.
  induction 1; cbn [re_chars]; intros i y Hi Hy; try lia.
  - assert (i = p) by lia. subst i. congruence.
  - apply orb_true_iff. destruct (Nat.lt_ge_cases i p1);
      [left; apply (IHMatches1 i) | right; apply (IHMatches2 i)]; done || lia.
  - apply orb_true_iff. left. eauto.
  - apply orb_true_iff. right. eauto.
  - destruct (Nat.lt_ge_cases i p1);
      [apply (IHMatches1 i) | apply (IHMatches2 i)]; done || lia.
  - eauto.
Qed.

Lemma Matches_in_text (r : re) p c p' c' :
  Matches r p c p' c' -> (p <= length text -> p' <= length text)%nat.
Proof.
  induction 1; intros Hp; try lia; eauto.
  apply lookup_lt_Some in H. lia.
Qed.

(** A match that consumes something ends inside the text. *)
Lemma Matches_end (r : re) p c p' c' :
  Matches r p c p' c' -> p' = p \/ (p' <= length text)%nat.
Proof.
  induction 1; try (by left); try lia.
  right. apply lookup_lt_Some in H. lia.
Qed.

Lemma slice_lookup (s e j : nat) (x : cp) :
  slice text s e !! j = Some x -> text !! (s + j)%nat = Some x /\ (j < e - s)%nat.
Proof.
  unfold slice. rewrite lookup_take_Some, lookup_drop. done.
Qed.

Lemma slice_length (s e : nat) :
  e = s \/ (e <= length text)%nat -> length (slice text s e) = (e - s)%nat.
Proof.
  unfold slice. rewrite length_take, length_drop. lia.
Qed.

Lemma cap_lookup_cons (g g' : string) (v : nat * nat) (c : caps) :
  cap_lookup g ((g', v) :: c) = if String.eqb g g' then Some v else cap_lookup g c.
Proof. reflexivity. Qed.

Lemma Matches_caps_mono (r : re) p c p' c' :
  Matches r p c p' c' ->
  forall g, is_Some (cap_lookup g c) -> is_Some (cap_lookup g c').
Proof.
  induction 1; intros g0 Hg; eauto.
  rewrite cap_lookup_cons. destruct (String.eqb g0 g); eauto.
Qed.

Lemma Matches_sure (r : re) p c p' c' :
  Matches r p c p' c' ->
  forall g, In g (sure_groups r) -> is_Some (cap_lookup g c').
Proof.
  induction 1; cbn [sure_groups]; intros g0 Hg; try (by destruct Hg).
  - apply in_app_or in Hg as [Hg | Hg]; [|eauto].
    eapply Matches_caps_mono; eauto.
  - rewrite cap_lookup_cons. destruct (String.eqb_spec g0 g) as [->|Hne]; [eauto|].
    destruct Hg as [Hg | Hg]; [congruence | eauto].
Qed.

Lemma Matches_caps (r : re) p c p' c' :
  Matches r p c p' c' ->
  forall g s e, cap_lookup g c' = Some (s, e) ->
    cap_lookup g c = Some (s, e)
    \/ exists body c1 c2, In (g, body) (groups r) /\ Matches body s c1 e c2.
Proof.
  induction 1; cbn [groups]; intros g0 s0 e0 Hg; eauto.
  - apply IHMatches2 in Hg as [Hg | (b & c3 & c4 & Hin & Hm)].
    + apply IHMatches1 in Hg as [Hg | (b & c3 & c4 & Hin & Hm)]; [by left|].
      right. exists b, c3, c4. split; [apply in_or_app; by left | done].
    + right. exists b, c3, c4. split; [apply in_or_app; by right | done].
  - apply IHMatches in Hg as [Hg | (b & c3 & c4 & Hin & Hm)]; [by left|].
    right. exists b, c3, c4. split; [apply in_or_app; by left | done].
  - apply IHMatches in Hg as [Hg | (b & c3 & c4 & Hin & Hm)]; [by left|].
    right. exists b, c3, c4. split; [apply in_or_app; by right | done].
  - apply IHMatches2 in Hg as [Hg | (b & c3 & c4 & Hin & Hm)].
    + apply IHMatches1 in Hg as [Hg | (b & c3 & c4 & Hin & Hm)]; [by left|].
      right. exists b, c3, c4. done.
    + right. exists b, c3, c4. done.
  - rewrite cap_lookup_cons in Hg.
    destruct (String.eqb_spec g0 g) as [->|Hne].
    + injection Hg as <- <-. right. exists r, c, c'. split; [by left | done].
    + apply IHMatches in Hg as [Hg | (b & c3 & c4 & Hin & Hm)]; [by left|].
      right. exists b, c3, c4. split; [by right | done].
Qed.

(** *** From a search to its match *)

Lemma match_at_Matches (p : nat) (m : pymatch) :
  match_at P text p = Some m ->
  m_start m = p /\ Matches (pat_re P) p [] (m_end m) (m_caps m).
Proof.
  unfold match_at. destruct (re_match _ _ _ _) as [[e c]|] eqn:H; [|discriminate].
  intros [= <-]. cbn. apply re_match_sound in H as (p' & c' & Hm & [= <- <-]).
  done.
Qed.

Lemma search_from_match_at (n p : nat) (m : pymatch) :
  search_from P text n p = Some m ->
  exists q, (p <= q <= p + n)%nat /\ match_at P text q = Some m.
Proof.
  revert p. induction n as [|n IH]; intros p; cbn [search_from];
    destruct (match_at P text p) as [m'|] eqn:Hm.
  - intros [= <-]. exists p. split; [lia | done].
  - discriminate.
  - intros [= <-]. exists p. split; [lia | done].
  - intros H. apply IH in H as (q & Hq & H). exists q. split; [lia | done].
Qed.

Lemma search_match_at (pos : nat) (m : pymatch) :
  search P text pos = Some m ->
  exists q, (pos <= q <= length text)%nat /\ match_at P text q = Some m.
Proof.
  unfold search. destruct (Nat.leb_spec pos (length text)) as [Hle|]; [|discriminate].
  intros H. apply search_from_match_at in H as (q & Hq & H).
  exists q. split; [lia | done].
Qed.

Lemma finditer_match_at (m : pymatch) :
  m ∈ finditer P text ->
  exists q, (q <= length text)%nat /\ match_at P text q = Some m.
Proof.
  unfold finditer. generalize (S (length text)) 0%nat.
  intros fuel. induction fuel as [|fuel IH]; intros pos; cbn [finditer_from].
  - intros Hin. by apply elem_of_nil in Hin.
  - destruct (search P text pos) as [m'|] eqn:Hs;
      [|intros Hin; by apply elem_of_nil in Hin].
    intros Hin. apply elem_of_cons in Hin as [-> | Hin]; [|eauto].
    apply search_match_at in Hs as (q & Hq & Hs). exists q. split; [lia | done].
Qed.

Lemma Matches_slice_chars (r : re) a c b c' :
  Matches r a c b c' ->
  Forall (fun x => re_chars P r x = true) (slice text a b).
Proof.
  intros Hm. apply Forall_lookup_2. intros j x Hj.
  apply slice_lookup in Hj as [Hj Hlt].
  eapply Matches_chars; [exact Hm | | exact Hj]. lia.
Qed.

(** A group that every match sets spans a match of its body. *)
Lemma match_at_group_span (p : nat) (m : pymatch) (g : string) (body : re) :
  match_at P text p = Some m ->
  In g (sure_groups (pat_re P)) ->
  (forall b, In (g, b) (groups (pat_re P)) -> b = body) ->
  exists s e c1 c2,
    group text m g = Some (slice text s e) /\ Matches body s c1 e c2.
Proof.
  intros Hm Hsure Hbody.
  apply match_at_Matches in Hm as (_ & Hm).
  destruct (Matches_sure _ _ _ _ _ Hm g Hsure) as [[s e] Hse].
  destruct (Matches_caps _ _ _ _ _ Hm g s e Hse)
    as [Hnil | (b & c1 & c2 & Hin & Hb)]; [discriminate|].
  apply Hbody in Hin as ->.
  exists s, e, c1, c2. split; [|done]. unfold group. by rewrite Hse.
Qed.

(** The text of a group that every match sets is a match of the group's
    body. *)
Lemma match_at_group (p : nat) (m : pymatch) (g : string) (body : re) :
  match_at P text p = Some m -> (p <= length text)%nat ->
  In g (sure_groups (pat_re P)) ->
  (forall b, In (g, b) (groups (pat_re P)) -> b = body) ->
  exists w, group text m g = Some w
    /\ Forall (fun x => re_chars P body x = true) w
    /\ (min_len body <= length w)%nat
    /\ (forall n, max_len body = Some n -> (length w <= n)%nat).
Proof.
  intros Hm Hp Hsure Hbody.
  apply match_at_Matches in Hm as (_ & Hm).
  destruct (Matches_sure _ _ _ _ _ Hm g Hsure) as [[s e] Hse].
  destruct (Matches_caps _ _ _ _ _ Hm g s e Hse)
    as [Hnil | (b & c1 & c2 & Hin & Hb)]; [discriminate|].
  apply Hbody in Hin as ->.
  unfold group. rewrite Hse. eexists. split; [reflexivity|].
  pose proof (Matches_min _ _ _ _ _ Hb) as Hmin.
  pose proof (slice_length s e (Matches_end _ _ _ _ _ Hb)) as Hlen.
  split; [|split].
  - apply Forall_lookup_2. intros j x Hj. apply slice_lookup in Hj as [Hj Hlt].
    eapply Matches_chars; [exact Hb | | exact Hj]. lia.
  - lia.
  - intros n Hn. pose proof (Matches_max _ _ _ _ _ Hb n Hn). lia.
Qed.

End MatcherSound.

(** ** The fuel of the matcher is never short

    More fuel changes neither a repetition nor the list of matches: the
    bounds taken from the length of the text are upper bounds of the number
    of iterations. *)

(** No pattern of the source matches the empty string, and none repeats a
    body that could. *)
Example patterns_consume :
  forallb (fun P => (1 <=? min_len (pat_re P))%nat && reps_consume (pat_re P))
    (YEAR_PATTERNS
     ++ [LISTED_DAYS_RE; RANGE_RE; SINGLE_DAY_RE; TRANSFER_RE; DIGIT_RE])
  = true.
Proof. reflexivity. Qed.

Section MatcherFuel.
Context {U : UnicodeDB}.
Variable (P : pattern) (text : str).

#[local] Abbreviation re_match := (re_match P text).

Lemma rep_loop_ext (mr : nat -> caps -> mcont -> option mresult) (g : bool) :
  (forall p c k k', (p <= length text)%nat ->
     agree_upto (length text) k k' -> mr p c k = mr p c k') ->
  forall fuel lo hi p c k k',
    (p <= length text)%nat -> agree_upto (length text) k k' ->
    rep_loop mr g fuel lo hi p c k = rep_loop mr g fuel lo hi p c k'.
Proof.
  intros Hmr. induction fuel as [|fuel IH]; intros lo hi p c k k' Hp Hk; [done|].
  cbn [rep_loop].
  assert (Hmore :
    mr p c (fun p' c' =>
      if (p <? p')%nat then rep_loop mr g fuel (Nat.pred lo) (dec_hi hi) p' c' k
      else None)
    = mr p c (fun p' c' =>
      if (p <? p')%nat then rep_loop mr g fuel (Nat.pred lo) (dec_hi hi) p' c' k'
      else None)).
  { apply Hmr; [done|]. intros p' c' Hp'. destruct (p <? p')%nat; [|done].
    by apply IH. }
  rewrite Hmore, (Hk p c Hp). reflexivity.
Qed.

Lemma re_match_ext (r : re) :
  forall p c k k', (p <= length text)%nat ->
    agree_upto (length text) k k' -> re_match r p c k = re_match r p c k'.
Proof.
  induction r as [|s|r1 IH1 r2 IH2|r1 IH1 r2 IH2|g lo hi r IH|g r IH| |s];
    intros p c k k' Hp Hk.
  - apply Hk, Hp.
  - cbn. destruct (text !! p) as [x|] eqn:Hx; [|done].
    apply lookup_lt_Some in Hx. destruct (char_ok P s x); [|done].
    apply Hk. lia.
  - cbn. apply IH1; [done|]. intros p' c' Hp'. by apply IH2.
  - cbn. by rewrite (IH1 p c k k'), (IH2 p c k k').
  - change (rep_loop (re_match r) g (S (length text - p)) lo hi p c k
            = rep_loop (re_match r) g (S (length text - p)) lo hi p c k').
    by apply rep_loop_ext.
  - cbn. apply IH; [done|]. intros p' c' Hp'. by apply Hk.
  - cbn. by rewrite (Hk p c Hp).
  - cbn. by rewrite (Hk p c Hp).
Qed.

Lemma rep_loop_fuel_step (r : re) (g : bool) :
  forall fuel lo hi p c k,
    (p <= length text)%nat -> (length text - p < fuel)%nat ->
    rep_loop (re_match r) g fuel lo hi p c k
    = rep_loop (re_match r) g (S fuel) lo hi p c k.
Proof.
  induction fuel as [|fuel IH]; intros lo hi p c k Hp Hfuel; [lia|].
  cbn [rep_loop].
  assert (Hmore :
    re_match r p c (fun p' c' =>
      if (p <? p')%nat
      then rep_loop (re_match r) g fuel (Nat.pred lo) (dec_hi hi) p' c' k
      else None)
    = re_match r p c (fun p' c' =>
      if (p <? p')%nat
      then rep_loop (re_match r) g (S fuel) (Nat.pred lo) (dec_hi hi) p' c' k
      else None)).
  { apply re_match_ext; [done|]. intros p' c' Hp'.
    destruct (Nat.ltb_spec p p'); [|done]. apply IH; lia. }
  cbn [rep_loop] in Hmore. rewrite Hmore. reflexivity.
Qed.

(** Whatever is added to the fuel [re_match] gives a repetition, the
    repetition matches the same. *)
Lemma rep_loop_fuel (r : re) (g : bool) (extra lo : nat) (hi : option nat)
    (p : nat) (c : caps) (k : mcont) :
  (p <= length text)%nat ->
  rep_loop (re_match r) g (S (length text - p) + extra) lo hi p c k
  = re_match (Rep g lo hi r) p c k.
Proof.
  intros Hp. induction extra as [|extra IH].
  - by rewrite Nat.add_0_r.
  - rewrite Nat.add_succ_r, <- rep_loop_fuel_step by lia. exact IH.
Qed.

Lemma match_at_span (p : nat) (m : pymatch) :
  match_at P text p = Some m -> m_start m = p /\ (p <= m_end m)%nat.
Proof.
  intros H. apply match_at_Matches in H as [Hs Hm]. split; [done|].
  apply Matches_min in Hm. lia.
Qed.

Lemma finditer_from_fuel_step :
  forall fuel pos,
    (S (length text) - pos <= fuel)%nat ->
    finditer_from P text fuel pos = finditer_from P text (S fuel) pos.
Proof.
  induction fuel as [|fuel IH]; intros pos Hfuel.
  - cbn [finditer_from]. unfold search.
    destruct (Nat.leb_spec pos (length text)); [lia | done].
  - cbn [finditer_from]. destruct (search P text pos) as [m|] eqn:Hs; [|done].
    f_equal. apply search_match_at in Hs as (q & Hq & Hm).
    apply match_at_span in Hm as [Hstart Hend].
    apply IH. destruct (Nat.eqb_spec (m_end m) (m_start m)); lia.
Qed.

(** Whatever is added to the fuel of [finditer], the matches are the same. *)
Lemma finditer_fuel (extra : nat) :
  finditer_from P text (S (length text) + extra) 0 = finditer P text.
Proof.
  induction extra as [|extra IH].
  - by rewrite Nat.add_0_r.
  - rewrite Nat.add_succ_r, <- finditer_from_fuel_step by lia. exact IH.
Qed.

End MatcherFuel.

(** ** The year detector *)

Section DetectYear.
Context {U : UnicodeDB}.

Lemma detect_year_loop_first (pats : list pattern) (text : str) (i : nat)
    (pat : pattern) (m : pymatch) :
  pats !! i = Some pat -> search pat text 0 = Some m ->
  (forall j pj, (j < i)%nat -> pats !! j = Some pj -> search pj text 0 = None) ->
  detect_year_loop pats text = Some (int_group text m "year").
Proof.
  revert i. induction pats as [|p0 pats IH]; intros i Hi Hm Hbefore; [done|].
  destruct i as [|i]; cbn in Hi; cbn [detect_year_loop].
  - injection Hi as ->. by rewrite Hm.
  - rewrite (Hbefore 0%nat p0) by (done || lia).
    apply (IH i); [done..|].
    intros j pj Hj Hpj. apply (Hbefore (S j) pj); [lia | done].
Qed.

Lemma detect_year_loop_none (pats : list pattern) (text : str) :
  (forall pat, pat ∈ pats -> search pat text 0 = None) ->
  detect_year_loop pats text = None.
Proof.
  induction pats as [|p0 pats IH]; intros Hnone; [done|].
  cbn [detect_year_loop]. rewrite (Hnone p0) by left.
  apply IH. intros pat Hpat. apply Hnone. by right.
Qed.

End DetectYear.

(** ** Pieces of a string *)


Lemma factor_refl (w : str) : factor w w.
Proof. exists [], []. by rewrite app_nil_r. Qed.

Lemma factor_nil (w : str) : factor [] w.
Proof. by exists [], w. Qed.

Lemma factor_trans (u v w : str) : factor u v -> factor v w -> factor u w.
Proof.
  intros (a & b & ->) (a' & b' & ->). exists (a' ++ a), (b ++ b').
  by rewrite <- !app_assoc.
Qed.

Lemma factor_cons (c : cp) (u w : str) : factor u w -> factor u (c :: w).
Proof. intros (a & b & ->). by exists (c :: a), b. Qed.

Lemma factor_prefix (u w : str) : u `prefix_of` w -> factor u w.
Proof. intros [k ->]. by exists [], k. Qed.

Lemma factor_Forall (Q : cp -> Prop) (u w : str) :
  factor u w -> Forall Q w -> Forall Q u.
Proof.
  intros (a & b & ->) H. apply Forall_app in H as [_ H].
  by apply Forall_app in H as [H _].
Qed.

(** A piece of [a ++ b] that shares no character with [a] lies in [b]. *)
Lemma factor_app_avoid (u a b : str) :
  factor u (a ++ b) -> Forall (fun x => x ∉ a) u -> u = [] \/ factor u b.
Proof.
  intros (p & q & Heq) Hu. apply app_eq_app in Heq as [l [[-> Hl] | [-> ->]]].
  - destruct l as [|x l]; [right; cbn in Hl; subst b; by exists [], q|].
    destruct u as [|y u]; [by left|]. exfalso.
    cbn in Hl. injection Hl as -> _. apply Forall_cons in Hu as [Hy _].
    apply Hy. apply elem_of_app. right. left.
  - right. by exists l, q.
Qed.

Section StrFacts.
Context {U : UnicodeDB}.

Lemma lstrip_by_suffix (f : cp -> bool) (s : str) :
  exists p, s = p ++ lstrip_by f s.
Proof.
  induction s as [|c s [p IH]]; [by exists []|]. cbn.
  destruct (f c); [|by exists []]. exists (c :: p). cbn. by f_equal.
Qed.

Lemma strip_by_factor (f : cp -> bool) (s : str) : factor (strip_by f s) s.
Proof.
  unfold strip_by. destruct (lstrip_by_suffix f s) as [p Hp].
  destruct (lstrip_by_suffix f (rev (lstrip_by f s))) as [q Hq].
  exists p, (rev q). rewrite Hp at 1. f_equal.
  rewrite <- rev_app_distr, <- Hq. by rewrite rev_involutive.
Qed.

(** The pieces of a split: the first starts the string, all occur in it. *)
Lemma split_on_spec (sep : cp) (s : str) :
  exists t ts, split_on sep s = t :: ts
    /\ t `prefix_of` s /\ Forall (fun u => factor u s) ts.
Proof.
  induction s as [|c s (t & ts & Heq & Hpre & Hts)].
  - exists [], []. repeat split; [done | constructor].
  - cbn [split_on]. destruct (c =? sep)%N.
    + exists [], (split_on sep s). split; [done|]. split; [by exists (c :: s)|].
      rewrite Heq. constructor.
      * apply factor_cons. by apply factor_prefix.
      * eapply Forall_impl; [exact Hts|]. intros u. apply factor_cons.
    + rewrite Heq. exists (c :: t), ts. split; [done|]. split.
      * by apply prefix_cons.
      * eapply Forall_impl; [exact Hts|]. intros u. apply factor_cons.
Qed.

Lemma split_on_factor (sep : cp) (s u : str) :
  u ∈ split_on sep s -> factor u s.
Proof.
  destruct (split_on_spec sep s) as (t & ts & -> & Hpre & Hts).
  intros Hu. apply elem_of_cons in Hu as [-> | Hu]; [by apply factor_prefix|].
  rewrite Forall_forall in Hts. by apply Hts.
Qed.

(** A start of the replaced string that avoids the characters of a
    non-empty [new] is a start of the original. *)
Lemma replace_go_prefix (old new s u : str) :
  new <> [] -> Forall (fun x => x ∉ new) u ->
  u `prefix_of` replace_go old new 0 s -> u `prefix_of` s.
Proof.
  intros Hnew. revert u. induction s as [|c s IH]; intros u Hu Hpre.
  - exact Hpre.
  - cbn [replace_go] in Hpre. destruct (prefix_b old (c :: s)).
    + destruct u as [|y u]; [apply prefix_nil|]. exfalso.
      destruct new as [|n0 new]; [done|].
      destruct Hpre as [k Hk]. cbn in Hk. injection Hk as <- _.
      apply Forall_cons in Hu as [Hy _]. apply Hy. left.
    + destruct u as [|y u]; [apply prefix_nil|].
      destruct Hpre as [k Hk]. cbn in Hk. injection Hk as <- Hk.
      apply Forall_cons in Hu as [_ Hu].
      apply prefix_cons. apply IH; [done|]. by exists k.
Qed.

Lemma replace_go_factor (old new s u : str) (skip : nat) :
  new <> [] -> Forall (fun x => x ∉ new) u ->
  factor u (replace_go old new skip s) -> u = [] \/ factor u s.
Proof.
  intros Hnew Hu. revert skip. induction s as [|c s IH]; intros skip Hf.
  - destruct Hf as (a & b & Hf). cbn in Hf.
    destruct a; [|discriminate]. destruct u; [by left | discriminate].
  - cbn [replace_go] in Hf. destruct skip as [|skip].
    + destruct (prefix_b old (c :: s)) eqn:E.
      * apply factor_app_avoid in Hf as [-> | Hf]; [by left | | done].
        apply IH in Hf as [-> | Hf]; [by left | right; by apply factor_cons].
      * destruct Hf as (a & b & Hf). destruct a as [|a0 a].
        -- destruct u as [|y u]; [by left|]. right. apply factor_prefix.
           eapply (replace_go_prefix old new); [done..|].
           cbn [replace_go]. rewrite E. by exists b.
        -- cbn in Hf. injection Hf as <- Hf.
           destruct (IH 0%nat) as [-> | H]; [by exists a, b | by left |].
           right. by apply factor_cons.
    + apply IH in Hf as [-> | Hf]; [by left | right; by apply factor_cons].
Qed.

Lemma replace_go_Forall (Q : cp -> Prop) (old new s : str) (skip : nat) :
  Forall Q new -> Forall Q s -> Forall Q (replace_go old new skip s).
Proof.
  intros Hnew. revert skip. induction s as [|c s IH]; intros skip Hs; [done|].
  apply Forall_cons in Hs as [Hc Hs]. cbn [replace_go].
  destruct skip; [|by apply IH].
  destruct (prefix_b old (c :: s)).
  - apply Forall_app. split; [done | by apply IH].
  - constructor; [done | by apply IH].
Qed.

(** *** [int] *)

Lemma digits_value_bound (w : str) (acc : Z) :
  UnicodeLaws U ->
  Forall (fun x => is_decimal x = true) w -> (0 <= acc)%Z ->
  (0 <= fold_left (fun a c => (10 * a + decimal_value c)%Z) w acc
   < (acc + 1) * 10 ^ Z.of_nat (length w))%Z.
Proof.
  intros HL. revert acc. induction w as [|x w IH]; intros acc Hw Hacc.
  - cbn. lia.
  - apply Forall_cons in Hw as [Hx Hw]. cbn [fold_left length].
    pose proof (decimal_value_range x Hx) as Hv.
    set (v := decimal_value x) in *. clearbody v.
    specialize (IH (10 * acc + v)%Z Hw ltac:(lia)).
    rewrite Nat2Z.inj_succ, Z.pow_succ_r by lia.
    assert (0 < 10 ^ Z.of_nat (length w))%Z by (apply Z.pow_pos_nonneg; lia).
    nia.
Qed.

Lemma py_int_ok (w : str) (n : nat) :
  UnicodeLaws U ->
  Forall (fun x => is_decimal x = true) w -> w <> [] -> (length w <= n)%nat ->
  exists z, py_int w = Ok z /\ (0 <= z < 10 ^ Z.of_nat n)%Z.
Proof.
  intros HL Hw Hne Hlen. unfold py_int. destruct w as [|x w]; [done|].
  assert (forallb is_decimal (x :: w) = true) as ->.
  { apply forallb_forall. intros y Hy. rewrite Forall_forall in Hw.
    apply Hw. by apply list_elem_of_In. }
  eexists. split; [reflexivity|].
  pose proof (digits_value_bound (x :: w) 0 HL Hw ltac:(lia)) as Hb.
  assert (10 ^ Z.of_nat (length (x :: w)) <= 10 ^ Z.of_nat n)%Z
    by (apply Z.pow_le_mono_r; lia).
  lia.
Qed.

End StrFacts.

(** ** Taking a match apart *)

Section MatchesInv.
Context {U : UnicodeDB}.
Variable (P : pattern) (text : str).

#[local] Abbreviation Matches := (Matches P text).

Lemma Matches_seq_inv (r1 r2 : re) a c b c' :
  Matches (Seq r1 r2) a c b c' ->
  exists m c1, Matches r1 a c m c1 /\ Matches r2 m c1 b c'.
Proof. inversion 1; subst. eauto. Qed.

Lemma Matches_opt_inv (g : bool) (r : re) a c b c' :
  Matches (Rep g 0 (Some 1) r) a c b c' ->
  b = a \/ exists c0, Matches r a c b c0.
Proof.
  inversion 1 as [| | | | | |g0 lo hi r0 p c0 p1 c1 p2 c2 Hmore Hr Hlt Hrest| | |];
    subst; [by left|].
  right. cbn in Hrest. inversion Hrest; subst; [eauto | discriminate].
Qed.

(** Induction over the iterations of a starred pattern. *)
Lemma Matches_star_ind (g : bool) (r : re) (Q : nat -> nat -> Prop) :
  (forall a, Q a a) ->
  (forall a m b c c1, Matches r a c m c1 -> (a < m)%nat -> Q m b -> Q a b) ->
  forall a c b c', Matches (Rep g 0 None r) a c b c' -> Q a b.
Proof.
  intros H0 HS a c b c' H.
  remember (Rep g 0 None r) as R eqn:ER.
  induction H; try discriminate.
  - apply H0.
  - injection ER as -> -> -> ->. eapply HS; [eassumption | done |].
    by apply IHMatches2.
Qed.


Lemma no3_short (a b : nat) : (b <= a + 2)%nat -> no3_span text a b.
Proof. intros Hab i Hi Hb. lia. Qed.

Lemma no3_join (a m b : nat) :
  no3_span text a m -> no3_span text m b ->
  ((a < m < b)%nat -> ~ dec_at text (m - 1) \/ ~ dec_at text m) ->
  no3_span text a b.
Proof.
  intros H1 H2 Hm i Hi Hb (D0 & D1 & D2).
  destruct (Nat.le_gt_cases m i) as [Hmi | Hmi]; [by apply (H2 i)|].
  destruct (Nat.lt_ge_cases (i + 2) m) as [Him | Him]; [by apply (H1 i)|].
  destruct Hm as [Hn | Hn]; [lia | |]; apply Hn.
  - assert (m - 1 = i \/ m - 1 = i + 1)%nat as [-> | ->] by lia; done.
  - assert (m = i + 1 \/ m = i + 2)%nat as [-> | ->] by lia; done.
Qed.

Lemma nondec_of_chars (r : re) a c b c' :
  Matches r a c b c' ->
  (forall x, re_chars P r x = true -> is_decimal x = false) ->
  nondec_span text a b.
Proof.
  intros Hm Hr i Hi (x & Hx & Hd).
  pose proof (Matches_chars P text r a c b c' Hm i x Hi Hx) as Hc.
  apply Hr in Hc. congruence.
Qed.

End MatchesInv.

(** ** Character tests under the laws *)

Section CharFacts.
Context {U : UnicodeDB} {HL : UnicodeLaws U}.

Lemma char_ok_digit (P : pattern) (x : cp) :
  char_ok P (CIn [ICat CatDigit]) x = is_decimal x.
Proof.
  unfold char_ok, cset_match. destruct (pat_ignorecase P); cbn;
    by rewrite orb_false_r.
Qed.

Lemma char_ok_space (P : pattern) (x : cp) :
  char_ok P (CIn [ICat CatSpace]) x = is_space x.
Proof.
  unfold char_ok, cset_match. destruct (pat_ignorecase P); cbn;
    by rewrite orb_false_r.
Qed.

Lemma re_chars_digits_1_2 (P : pattern) (x : cp) :
  re_chars P digits_1_2 x = is_decimal x.
Proof. apply char_ok_digit. Qed.

Lemma space_not_decimal (x : cp) : is_space x = true -> is_decimal x = false.
Proof.
  intros Hs. destruct (is_decimal x) eqn:Hd; [|done].
  apply decimal_is_digit, digit_not_space in Hd. congruence.
Qed.

Lemma comma_not_decimal (x : cp) :
  lit_match true 0x2C%N x = true -> is_decimal x = false.
Proof.
  intros Hm. destruct (is_decimal x) eqn:Hd; [|done].
  apply decimal_is_digit in Hd.
  pose proof (digit_only_self _ _ Hd Hm) as ->.
  pose proof comma_not_digit. congruence.
Qed.

Lemma conj_not_decimal (x : cp) :
  lit_match true 0x438%N x = true -> is_decimal x = false.
Proof.
  intros Hm. destruct (is_decimal x) eqn:Hd; [|done].
  apply decimal_is_digit in Hd.
  pose proof (digit_only_self _ _ Hd Hm) as ->.
  rewrite cyrillic_not_digit in Hd by lia. done.
Qed.

(** A literal ASCII digit of a pattern matches that digit only. *)
Lemma ascii_digit_lit (ic : bool) (d x : cp) :
  (0x30 <= d <= 0x39)%N -> lit_match ic d x = true -> is_decimal x = true.
Proof.
  intros Hd. destruct (ascii_digit d Hd) as [Hdec Hcase].
  unfold lit_match. rewrite Hcase, andb_false_r.
  intros ->%N.eqb_eq. done.
Qed.

End CharFacts.

(** ** The day list holds no run of three digits *)

Section DayList.
Context {U : UnicodeDB} {HL : UnicodeLaws U}.
Variable text : str.

#[local] Abbreviation MatchesL := (Matches LISTED_DAYS_RE text).


Lemma days_unit_eq : days_unit = Seq digits_1_2 days_sep1.
Proof. reflexivity. Qed.

Lemma days_tail_eq :
  days_tail = Seq (star space) (Seq (Chr (CLit 0x438%N)) (Seq (star space) digits_1_2)).
Proof. reflexivity. Qed.

Lemma days_body_eq :
  days_body = Seq (star days_unit) (Seq digits_1_2 (opt days_tail)).
Proof. reflexivity. Qed.

Lemma days_sep1_nondec (x : cp) :
  re_chars LISTED_DAYS_RE days_sep1 x = true -> is_decimal x = false.
Proof.
  cbn [re_chars days_sep1 star space]. rewrite !char_ok_space.
  intros H. repeat apply orb_true_iff in H as [H | H];
    auto using space_not_decimal, comma_not_decimal.
Qed.

Lemma days_unit_span a c b c' :
  MatchesL days_unit a c b c' ->
  no3_span text a b /\ (a < b)%nat /\ ~ dec_at text (b - 1).
Proof.
  rewrite days_unit_eq. intros H.
  apply Matches_seq_inv in H as (m & c1 & Hd & Hs).
  pose proof (Matches_max _ _ _ _ _ _ _ Hd 2%nat eq_refl) as Hmax.
  pose proof (Matches_min _ _ _ _ _ _ _ Hd) as Hmin1. cbn in Hmin1.
  pose proof (Matches_min _ _ _ _ _ _ _ Hs) as Hmin. cbn in Hmin.
  pose proof (nondec_of_chars _ _ _ _ _ _ _ Hs days_sep1_nondec) as Hnd.
  split; [|split; [lia|]].
  - intros i Hi Hb (_ & _ & D2). apply (Hnd (i + 2)%nat); [lia | done].
  - apply Hnd. lia.
Qed.

Lemma days_units_span a c b c' :
  MatchesL (star days_unit) a c b c' ->
  no3_span text a b /\ (b = a \/ ~ dec_at text (b - 1)).
Proof.
  apply (Matches_star_ind LISTED_DAYS_RE text true days_unit
           (fun a b => no3_span text a b /\ (b = a \/ ~ dec_at text (b - 1)))).
  - intros a0. split; [apply no3_short; lia | by left].
  - intros a0 m b0 c0 c1 Hu Hlt [Hn Hend].
    apply days_unit_span in Hu as (Hn0 & _ & Hlast).
    split.
    + eapply no3_join; [exact Hn0 | exact Hn | by left].
    + destruct Hend as [-> | Hend]; right; done.
Qed.

Lemma days_tail_span a c b c' :
  MatchesL days_tail a c b c' ->
  no3_span text a b /\ (a < b)%nat /\ ~ dec_at text a.
Proof.
  rewrite days_tail_eq. intros H.
  apply Matches_seq_inv in H as (m1 & c1 & H1 & H).
  apply Matches_seq_inv in H as (m2 & c2 & H2 & H).
  apply Matches_seq_inv in H as (m3 & c3 & H3 & H4).
  pose proof (Matches_max _ _ _ _ _ _ _ H4 2%nat eq_refl) as Hmax.
  pose proof (Matches_min _ _ _ _ _ _ _ H1) as Hm1.
  pose proof (Matches_min _ _ _ _ _ _ _ H2) as Hm2. cbn in Hm2.
  pose proof (Matches_min _ _ _ _ _ _ _ H3) as Hm3.
  pose proof (Matches_min _ _ _ _ _ _ _ H4) as Hm4.
  assert (Hnd : nondec_span text a m3).
  { intros i Hi (x & Hx & Hdx).
    assert (Hc : is_decimal x = false); [|congruence].
    destruct (Nat.lt_ge_cases i m1) as [?|?];
      [|destruct (Nat.lt_ge_cases i m2) as [?|?]].
    - pose proof (Matches_chars _ _ _ _ _ _ _ H1 i x ltac:(lia) Hx) as Hc.
      cbn [re_chars star space] in Hc. rewrite char_ok_space in Hc.
      by apply space_not_decimal.
    - pose proof (Matches_chars _ _ _ _ _ _ _ H2 i x ltac:(lia) Hx) as Hc.
      by apply conj_not_decimal.
    - pose proof (Matches_chars _ _ _ _ _ _ _ H3 i x ltac:(lia) Hx) as Hc.
      cbn [re_chars star space] in Hc. rewrite char_ok_space in Hc.
      by apply space_not_decimal. }
  split; [|split; [lia|]].
  - intros i Hi Hb (D0 & _). apply (Hnd i); [lia | done].
  - apply Hnd. lia.
Qed.

Lemma days_body_span a c b c' :
  MatchesL days_body a c b c' -> no3_span text a b.
Proof.
  rewrite days_body_eq. intros H.
  apply Matches_seq_inv in H as (m1 & c1 & H1 & H).
  apply Matches_seq_inv in H as (m2 & c2 & H2 & H3).
  apply days_units_span in H1 as [Hn1 Hend].
  pose proof (Matches_max _ _ _ _ _ _ _ H2 2%nat eq_refl) as Hmax.
  pose proof (Matches_min _ _ _ _ _ _ _ H2) as Hmin.
  assert (Hn2 : no3_span text a m2).
  { eapply no3_join; [exact Hn1 | apply no3_short; lia |].
    intros Hm. destruct Hend as [-> | Hend]; [lia | by left]. }
  apply Matches_opt_inv in H3 as [-> | (c0 & H3)]; [done|].
  apply days_tail_span in H3 as (Hn3 & Hlt & Hfirst).
  eapply no3_join; [exact Hn2 | exact Hn3 | by right].
Qed.

(** Every run of decimal digits in the matched day list has at most two
    characters. *)
Lemma days_short_runs a c b c' (u : str) :
  MatchesL days_body a c b c' ->
  factor u (slice text a b) -> Forall (fun x => is_decimal x = true) u ->
  (length u <= 2)%nat.
Proof.
  intros Hm (p & q & Hf) Hu. apply days_body_span in Hm.
  destruct u as [|x0 [|x1 [|x2 u]]]; cbn; try lia. exfalso.
  apply Forall_cons in Hu as [D0 Hu]. apply Forall_cons in Hu as [D1 Hu].
  apply Forall_cons in Hu as [D2 _].
  assert (L0 : slice text a b !! length p = Some x0).
  { rewrite Hf. apply list_lookup_middle. done. }
  assert (L1 : slice text a b !! (length p + 1)%nat = Some x1).
  { rewrite Hf. change (p ++ (x0 :: x1 :: x2 :: u) ++ q)
      with (p ++ [x0] ++ x1 :: (x2 :: u) ++ q).
    rewrite app_assoc. apply list_lookup_middle. rewrite length_app. cbn. lia. }
  assert (L2 : slice text a b !! (length p + 2)%nat = Some x2).
  { rewrite Hf. change (p ++ (x0 :: x1 :: x2 :: u) ++ q)
      with (p ++ [x0; x1] ++ x2 :: u ++ q).
    rewrite app_assoc. apply list_lookup_middle. rewrite length_app. cbn. lia. }
  apply slice_lookup in L0 as [L0 _], L1 as [L1 _], L2 as [L2 Hlt].
  apply (Hm (a + length p)%nat); [lia | lia |].
  repeat split.
  - by exists x0.
  - exists x1. split; [|done]. rewrite <- L1. f_equal. lia.
  - exists x2. split; [|done]. rewrite <- L2. f_equal. lia.
Qed.

End DayList.

(** ** The extractor does not raise on a year that fits a C [int] *)

Section Totality.
Context {U : UnicodeDB} {HL : UnicodeLaws U}.


Lemma finditer_found (P : pattern) (text : str) (m : pymatch) :
  m ∈ finditer P text -> found P text m.
Proof. apply finditer_match_at. Qed.

Lemma search_found (P : pattern) (text : str) (pos : nat) (m : pymatch) :
  search P text pos = Some m -> found P text m.
Proof.
  intros H. apply search_match_at in H as (q & Hq & H). exists q.
  split; [lia | done].
Qed.

Lemma str_group_total (P : pattern) (text : str) (m : pymatch) (g : string) :
  found P text m -> In g (sure_groups (pat_re P)) ->
  exists w, group text m g = Some w.
Proof.
  intros (q & _ & Hm) Hsure. apply match_at_Matches in Hm as (_ & Hm).
  destruct (Matches_sure _ _ _ _ _ _ _ Hm g Hsure) as [[s e] Hse].
  unfold group. rewrite Hse. eauto.
Qed.

Lemma int_group_total (P : pattern) (text : str) (m : pymatch) (g : string)
    (body : re) (n : nat) :
  found P text m -> In g (sure_groups (pat_re P)) ->
  (forall b, In (g, b) (groups (pat_re P)) -> b = body) ->
  (forall x, re_chars P body x = true -> is_decimal x = true) ->
  (1 <= min_len body)%nat -> max_len body = Some n ->
  exists z, int_group text m g = Ok z /\ (0 <= z < 10 ^ Z.of_nat n)%Z.
Proof.
  intros (q & Hq & Hm) Hsure Hbody Hdec Hmin Hmax.
  destruct (match_at_group P text q m g body Hm Hq Hsure Hbody)
    as (w & Hw & Hchars & Hlo & Hhi).
  unfold int_group. rewrite Hw. cbn [need mbind res_bind].
  apply py_int_ok; [done | | | by apply Hhi].
  - eapply Forall_impl; [exact Hchars | exact Hdec].
  - destruct w; [cbn in Hlo; lia | done].
Qed.

Lemma fits_small (z : Z) : (0 <= z < 10 ^ 4)%Z -> fits_c_int z = true.
Proof. unfold fits_c_int. intros H. apply andb_true_iff. lia. Qed.

Lemma safe_date_total (y mo dd : Z) :
  fits_c_int y = true -> (1 <= mo <= 12)%Z -> (0 <= dd < 10 ^ 2)%Z ->
  exists o, _safe_date y mo dd = Ok o.
Proof.
  intros Hy Hmo Hdd. unfold _safe_date, date_new.
  rewrite Hy, (fits_small mo), (fits_small dd) by lia. cbn [andb negb].
  repeat match goal with
  | |- context [negb ?b] => destruct b; cbn [negb]
  end; eauto.
Qed.

Ltac sure := vm_compute; repeat ((left; reflexivity) || right).
Ltac unique :=
  let b := fresh "b" in
  let Hb := fresh "Hb" in
  intros b Hb; vm_compute in Hb;
  repeat (destruct Hb as [Hb | Hb]; [try discriminate Hb|]);
  try (injection Hb as <-; reflexivity); try (destruct Hb).

Lemma digits_1_2_decimal (P : pattern) (x : cp) :
  re_chars P digits_1_2 x = true -> is_decimal x = true.
Proof. by rewrite re_chars_digits_1_2. Qed.

(** *** Ranges *)

Lemma range_step_total (y : Z) (text : str) (st : state) (m : pymatch) :
  fits_c_int y = true -> found RANGE_RE text m ->
  exists st', range_step y text st m = Ok st'.
Proof.
  intros Hy Hm. destruct st as [nw ns]. unfold range_step, str_group.
  destruct (str_group_total RANGE_RE text m "month" Hm) as [mt ->]; [sure|].
  cbn [need mbind res_bind].
  destruct (_normalize_month mt) as [mo|] eqn:Hmo; [|eauto].
  pose proof (normalize_month_range _ _ Hmo) as Hr.
  destruct mo as [|mo|mo]; [lia| |lia].
  destruct (int_group_total RANGE_RE text m "d1" digits_1_2 2 Hm)
    as (d1 & -> & Hd1); [sure | unique | apply digits_1_2_decimal | cbn; lia | done |].
  destruct (int_group_total RANGE_RE text m "d2" digits_1_2 2 Hm)
    as (d2 & -> & Hd2); [sure | unique | apply digits_1_2_decimal | cbn; lia | done |].
  cbn [mbind res_bind].
  destruct (for_each_total (fun _ => True)
              (py_range (Z.min d1 d2) (Z.max d1 d2 + 1)) (range_body y (Z.pos mo)) nw)
    as (nw' & -> & _); [|done|cbn [mbind res_bind]; eauto].
  intros s0 dd Hdd _. apply elem_of_py_range in Hdd. unfold range_body.
  destruct (safe_date_total y (Z.pos mo) dd Hy Hr) as [o ->]; [lia|].
  cbn [mbind res_bind]. destruct o; eauto.
Qed.

(** *** Lists *)

Lemma days_body_chars (x : cp) :
  re_chars LISTED_DAYS_RE days_body x = true ->
  is_digit x = true -> is_decimal x = true.
Proof.
  rewrite days_body_eq, days_unit_eq, days_tail_eq.
  cbn [re_chars days_sep1 star opt space digits_1_2 digit].
  rewrite !char_ok_space, !char_ok_digit.
  intros H Hd. destruct (is_decimal x) eqn:Hdec; [done|]. exfalso.
  assert (Hsp : is_space x = false) by by apply digit_not_space.
  rewrite Hsp in H. cbn [orb] in H.
  repeat apply orb_true_iff in H as [H | H]; try discriminate.
  - pose proof (digit_only_self _ _ Hd H) as ->.
    pose proof comma_not_digit. congruence.
  - pose proof (digit_only_self _ _ Hd H) as ->.
    rewrite cyrillic_not_digit in Hd by lia. done.
Qed.

Lemma isdigit_Forall (t : str) :
  isdigit t = true -> t <> [] /\ Forall (fun x => is_digit x = true) t.
Proof.
  unfold isdigit. destruct t as [|x t]; [done|]. intros H. split; [done|].
  apply Forall_forall. intros y Hy. rewrite forallb_forall in H.
  apply H. by apply list_elem_of_In.
Qed.

Lemma listed_days_total (text : str) a c b c' :
  Matches LISTED_DAYS_RE text days_body a c b c' ->
  exists days, listed_days (slice text a b) = Ok days
    /\ Forall (fun d => 0 <= d < 10 ^ 2)%Z days.
Proof.
  intros Hm. unfold listed_days.
  set (raw := slice text a b).
  set (chunk := replace (utf8 " и ") (utf8 ",") raw).
  pose (Qa := fun x : cp => is_digit x = true -> is_decimal x = true).
  assert (Hraw : Forall Qa raw).
  { eapply Forall_impl; [exact (Matches_slice_chars _ _ _ _ _ _ _ Hm)|].
    intros x Hx. unfold Qa. by apply days_body_chars. }
  assert (Hchunk : Forall Qa chunk).
  { apply replace_go_Forall; [|exact Hraw].
    change (utf8 ",") with [0x2C%N].
    constructor; [|constructor]. intros Hd.
    pose proof comma_not_digit. congruence. }
  apply (for_each_total (fun days => Forall (fun d => 0 <= d < 10 ^ 2)%Z days));
    [|constructor].
  intros days token Htok Hdays.
  destruct (isdigit (strip token)) eqn:Hdig; [|eauto].
  apply isdigit_Forall in Hdig as [Hne Hdig].
  assert (Hf : factor (strip token) chunk).
  { eapply factor_trans; [apply strip_by_factor | by eapply split_on_factor]. }
  assert (Hdec : Forall (fun x => is_decimal x = true) (strip token)).
  { pose proof (factor_Forall Qa _ _ Hf Hchunk) as HQ.
    rewrite Forall_forall in HQ, Hdig. apply Forall_forall.
    intros x Hx. apply HQ; auto. }
  assert (Hraw' : factor (strip token) raw).
  { destruct (replace_go_factor (utf8 " и ") (utf8 ",") raw (strip token) 0)
      as [? | ?]; [done | | exact Hf | done | done].
    eapply Forall_impl; [exact Hdec|]. intros x Hx Hin.
    change (utf8 ",") with [0x2C%N] in Hin.
    apply list_elem_of_singleton in Hin. subst x.
    apply decimal_is_digit in Hx.
    pose proof comma_not_digit. congruence. }
  pose proof (days_short_runs text a c b c' _ Hm Hraw' Hdec) as Hlen.
  destruct (py_int_ok (strip token) 2 HL Hdec Hne Hlen) as (z & -> & Hz).
  cbn [mbind res_bind]. eexists. split; [reflexivity|].
  apply Forall_app. split; [done|]. by constructor.
Qed.

Lemma listed_step_total (y : Z) (text : str) (st : state) (m : pymatch) :
  fits_c_int y = true -> found LISTED_DAYS_RE text m ->
  exists st', listed_step y text st m = Ok st'.
Proof.
  intros Hy Hm. destruct st as [nw ns]. unfold listed_step, str_group.
  destruct (str_group_total LISTED_DAYS_RE text m "month" Hm) as [mt ->]; [sure|].
  cbn [need mbind res_bind].
  destruct (_normalize_month mt) as [mo|] eqn:Hmo; [|eauto].
  pose proof (normalize_month_range _ _ Hmo) as Hr.
  destruct mo as [|mo|mo]; [lia| |lia].
  destruct Hm as (q & Hq & Hm).
  destruct (match_at_group_span LISTED_DAYS_RE text q m "days" days_body Hm)
    as (a & b & c1 & c2 & -> & Hbody); [sure | unique |].
  destruct (listed_days_total text a c1 b c2 Hbody) as (days & Hdays & Hbound).
  destruct (slice text a b) as [|x raw] eqn:Hraw; [eauto|].
  destruct (search DIGIT_RE (x :: raw) 0); [|eauto].
  rewrite Hdays. cbn [mbind res_bind].
  destruct days as [|d0 days]; [eauto|].
  destruct (for_each_total (fun _ => True) (d0 :: days)
              (listed_body y (Z.pos mo)) (nw, false))
    as ([nw' a'] & -> & _); [|done|cbn [mbind res_bind]; destruct a'; eauto].
  intros [s0 a0] dd Hdd _. rewrite Forall_forall in Hbound.
  unfold listed_body.
  destruct (safe_date_total y (Z.pos mo) dd Hy Hr (Hbound dd Hdd)) as [o ->].
  cbn [mbind res_bind]. destruct o; [case_bool_decide|]; eauto.
Qed.

(** *** Single dates *)

Lemma single_step_total (y : Z) (text : str) (st : state) (m : pymatch) :
  fits_c_int y = true -> found SINGLE_DAY_RE text m ->
  exists st', single_step y text st m = Ok st'.
Proof.
  intros Hy Hm. destruct st as [nw ns]. unfold single_step, str_group.
  destruct (str_group_total SINGLE_DAY_RE text m "month" Hm) as [mt ->]; [sure|].
  cbn [need mbind res_bind].
  destruct (_normalize_month mt) as [mo|] eqn:Hmo; [|eauto].
  pose proof (normalize_month_range _ _ Hmo) as Hr.
  destruct mo as [|mo|mo]; [lia| |lia].
  destruct (int_group_total SINGLE_DAY_RE text m "day" digits_1_2 2 Hm)
    as (dd & -> & Hdd); [sure | unique | apply digits_1_2_decimal | cbn; lia | done |].
  cbn [mbind res_bind].
  destruct (safe_date_total y (Z.pos mo) dd Hy Hr Hdd) as [o ->].
  cbn [mbind res_bind]. destruct o; [|eauto].
  case_bool_decide; [eauto|]. destruct (existsb _ TRIGGERS); eauto.
Qed.

(** *** Transfers *)

Lemma transfer_step_total (y : Z) (text : str) (st : state) (m : pymatch) :
  fits_c_int y = true -> found TRANSFER_RE text m ->
  exists st', transfer_step y text st m = Ok st'.
Proof.
  intros Hy Hm. destruct st as [nw ns]. unfold transfer_step, str_group.
  destruct (int_group_total TRANSFER_RE text m "from_day" digits_1_2 2 Hm)
    as (d1 & -> & Hd1); [sure | unique | apply digits_1_2_decimal | cbn; lia | done |].
  destruct (int_group_total TRANSFER_RE text m "to_day" digits_1_2 2 Hm)
    as (d2 & -> & Hd2); [sure | unique | apply digits_1_2_decimal | cbn; lia | done |].
  destruct (str_group_total TRANSFER_RE text m "from_month" Hm) as [mf ->]; [sure|].
  destruct (str_group_total TRANSFER_RE text m "to_month" Hm) as [mt ->]; [sure|].
  cbn [need mbind res_bind].
  destruct (_normalize_month mt) as [mo|] eqn:Hmo; [|eauto].
  pose proof (normalize_month_range _ _ Hmo) as Hr.
  destruct mo as [|mo|mo]; [lia| |lia].
  destruct (safe_date_total y (Z.pos mo) d2 Hy Hr Hd2) as [o ->].
  cbn [mbind res_bind]. destruct o; eauto.
Qed.

(** *** The year *)

Lemma year_20xx_decimal (P : pattern) (x : cp) :
  re_chars P year_20xx x = true -> is_decimal x = true.
Proof.
  change year_20xx
    with (Seq (Seq (Chr (CLit 0x32%N)) (Chr (CLit 0x30%N))) (Rep true 2 (Some 2) digit)).
  cbn [re_chars digit]. rewrite char_ok_digit. unfold char_ok. cbn [cset_match].
  intros H. repeat apply orb_true_iff in H as [H | H]; [| |done];
    eapply ascii_digit_lit; try exact H; lia.
Qed.

Lemma year_group_total (pat : pattern) (text : str) (m : pymatch) :
  pat ∈ YEAR_PATTERNS -> found pat text m ->
  exists y, int_group text m "year" = Ok y /\ (0 <= y < 10 ^ 4)%Z.
Proof.
  intros Hpat Hm.
  apply (int_group_total pat text m "year" year_20xx 4 Hm);
    [| |apply year_20xx_decimal | cbn; lia | reflexivity];
    unfold YEAR_PATTERNS in Hpat;
    repeat (apply elem_of_cons in Hpat as [-> | Hpat]);
    try (by apply elem_of_nil in Hpat); [sure..|unique|unique|unique].
Qed.

Lemma detect_year_loop_total (pats : list pattern) (text : str) (r : res Z) :
  (forall pat, pat ∈ pats -> pat ∈ YEAR_PATTERNS) ->
  detect_year_loop pats text = Some r ->
  exists y, r = Ok y /\ (0 <= y < 10 ^ 4)%Z.
Proof.
  induction pats as [|p0 pats IH]; intros Hsub; [done|].
  cbn [detect_year_loop]. destruct (search p0 text 0) as [m|] eqn:Hs.
  - intros [= <-]. apply (year_group_total p0); [apply Hsub; left|].
    by eapply search_found.
  - apply IH. intros pat Hpat. apply Hsub. by right.
Qed.


Lemma detect_year_total (today : Z) (text : str) (hint : option Z) :
  fits_c_int today = true -> hint_fits hint ->
  exists y, _detect_year today text hint = Ok y /\ fits_c_int y = true.
Proof.
  intros Ht Hh. unfold _detect_year.
  destruct (detect_year_loop YEAR_PATTERNS text) as [r|] eqn:Hr.
  - apply detect_year_loop_total in Hr as (y & -> & Hy); [|done].
    exists y. split; [done | by apply fits_small].
  - destruct hint as [h|]; [|eauto]. destruct (h =? 0)%Z; eauto.
Qed.

Lemma stage_total (P : pattern) (text : str)
    (step : state -> pymatch -> res state) (st : state) :
  (forall s m, found P text m -> exists s', step s m = Ok s') ->
  exists st', for_each (finditer P text) st step = Ok st'.
Proof.
  intros Hstep.
  destruct (for_each_total (fun _ => True) (finditer P text) step st)
    as (st' & H & _); [|done|eauto].
  intros s0 m Hm _. destruct (Hstep s0 m) as [s' Hs']; [by apply finditer_found|].
  eauto.
Qed.

Lemma extract_total (today : Z) (text : str) (hint : option Z) :
  fits_c_int today = true -> hint_fits hint ->
  exists r, extract_nonworking_dates today text hint = Ok r.
Proof.
  intros Ht Hh. unfold extract_nonworking_dates.
  destruct (detect_year_total today text hint Ht Hh) as (y & -> & Hy).
  cbn [mbind res_bind].
  destruct (stage_total RANGE_RE text (range_step y text) (∅, [])) as [st1 H1].
  { intros s m. by apply range_step_total. }
  unfold range_stage. rewrite H1. cbn [mbind res_bind].
  destruct (stage_total LISTED_DAYS_RE text (listed_step y text) st1) as [st2 H2].
  { intros s m. by apply listed_step_total. }
  unfold listed_stage. rewrite H2. cbn [mbind res_bind].
  destruct (stage_total SINGLE_DAY_RE text (single_step y text) st2) as [st3 H3].
  { intros s m. by apply single_step_total. }
  unfold single_stage. rewrite H3. cbn [mbind res_bind].
  destruct (stage_total TRANSFER_RE text (transfer_step y text) st3) as [st4 H4].
  { intros s m. by apply transfer_step_total. }
  unfold transfer_stage. rewrite H4. cbn [mbind res_bind].
  eauto.
Qed.

End Totality.

(** ** The Latin and Cyrillic database obeys the laws *)

Lemma in_ranges_cons (lo hi : N) (tbl : list (N * N)) (c : cp) :
  in_ranges ((lo, hi) :: tbl) c = true
  <-> (lo <= c <= hi)%N \/ in_ranges tbl c = true.
Proof.
  unfold in_ranges. cbn [existsb fst snd].
  rewrite orb_true_iff, andb_true_iff, !N.leb_le. tauto.
Qed.

Lemma in_ranges_nil (c : cp) : in_ranges [] c = true <-> False.
Proof. cbn. split; [discriminate | tauto]. Qed.

Ltac ranges :=
  repeat match goal with
  | H : in_ranges _ _ = false |- _ => apply not_true_iff_false in H
  | |- in_ranges _ _ = false => apply not_true_iff_false; intros ?
  end;
  unfold DECIMAL_RANGES, DIGIT_RANGES, SPACE_RANGES, ALNUM_RANGES,
    CASED_RANGES in *;
  rewrite ?in_ranges_cons, ?in_ranges_nil in *.

Lemma digit_lower_ru (c : cp) : in_ranges DIGIT_RANGES c = true -> lower_ru c = c.
Proof.
  intros H. unfold lower_ru.
  repeat match goal with
  | |- context [if ?b then _ else _] => destruct b eqn:?
  end; try reflexivity; exfalso;
  repeat match goal with
  | H : (_ && _)%bool = true |- _ => apply andb_true_iff in H as [H _]
  | H : (_ =? _)%N = true |- _ => apply N.eqb_eq in H
  end; ranges; lia.
Qed.

Lemma cased_lower_not_digit (x : cp) :
  in_ranges CASED_RANGES x = true -> in_ranges DIGIT_RANGES (lower_ru x) = false.
Proof.
  intros H. unfold lower_ru.
  repeat match goal with
  | |- context [if ?b then _ else _] => destruct b eqn:?
  end;
  repeat match goal with
  | H : (_ && _)%bool = true |- _ => apply andb_true_iff in H as [H _]
  | H : (_ =? _)%N = true |- _ => apply N.eqb_eq in H
  | H : (_ && _)%bool = false |- _ => clear H
  | H : (_ =? _)%N = false |- _ => clear H
  end; ranges; lia.
Qed.

Lemma case_fixes_not_digit (k c : cp) :
  In c (assoc_fixes CASE_FIXES k) -> in_ranges DIGIT_RANGES c = false.
Proof.
  unfold CASE_FIXES. cbn [assoc_fixes].
  repeat match goal with
  | |- context [if ?b then _ else _] => destruct b
  end; cbn [In]; intros H;
  repeat (destruct H as [<- | H]; [reflexivity|]); destruct H.
Qed.

Lemma unicode_ru_laws : UnicodeLaws unicode_ru.
Proof.
  split; cbn [is_decimal decimal_value is_digit is_space iscased lower
              case_fixes unicode_ru].
  - intros c H. ranges. lia.
  - intros c H. ranges. lia.
  - intros c H. ranges. lia.
  - intros x c Hd. unfold lit_match.
    cbn [is_decimal decimal_value is_digit is_space iscased lower
         case_fixes unicode_ru andb].
    destruct (in_ranges CASED_RANGES x) eqn:Hx; [|by intros ->%N.eqb_eq].
    unfold fold_eq. cbn [lower case_fixes unicode_ru].
    rewrite (digit_lower_ru c Hd). intros H. exfalso.
    apply orb_true_iff in H as [H | H].
    + apply N.eqb_eq in H. subst c.
      rewrite cased_lower_not_digit in Hd by done. done.
    + apply existsb_exists in H as (y & Hy & ->%N.eqb_eq).
      apply case_fixes_not_digit in Hy. congruence.
  - intros c H. split; [ranges; lia | ranges; lia].
  - reflexivity.
  - intros c H. ranges. lia.
  - reflexivity.
Qed.

#[global] Existing Instance unicode_ru_laws.

(** * The claims *)

(** ** The calendar builder *)

(** C1.  In the map [build_year_map] returns, a day that falls on a Saturday
    or a Sunday is labelled non-working whether or not it is among the
    exceptions, a day among the exceptions is labelled non-working, and every
    other day is labelled working.  The map is returned for every year from
    1 to 9998, the years for which [date(year + 1, 1, 1)] exists. *)
Theorem build_year_map_labels (fuel : nat) (year : Z) (nonworking : list date) :
  (366 < fuel)%nat -> (1 <= year <= 9998)%Z ->
  exists m,
    build_year_map fuel year nonworking = Ok m
    /\ forall d, valid_date d -> date_year d = year ->
         ((weekday d = 5 \/ weekday d = 6)%Z ->
            m !! day_of_year d = Some NON_WORKING)
         /\ (d ∈ nonworking -> m !! day_of_year d = Some NON_WORKING)
         /\ ((weekday d < 5)%Z -> d ∉ nonworking ->
               m !! day_of_year d = Some WORKING).
Proof.
  intros Hfuel Hyear.
  destruct (build_year_map_spec fuel year nonworking Hfuel Hyear)
    as (m & Hm & _ & _ & Hlab).
  exists m. split; [exact Hm|]. intros d Hv Hy.
  rewrite (Hlab d Hv Hy). unfold day_label.
  split; [|split].
  - intros Hw. destruct (Z.leb_spec 5 (weekday d)); [done | lia].
  - intros Hin. rewrite bool_decide_eq_true_2 by by apply elem_of_list_to_set.
    by rewrite orb_true_r.
  - intros Hw Hnot. destruct (Z.leb_spec 5 (weekday d)); [lia|].
    rewrite bool_decide_eq_false_2; [done|]. by rewrite elem_of_list_to_set.
Qed.

Lemma build_year_map_labels_witness :
  exists m,
    build_year_map 367 2025 [mkdate 2025 5 1] = Ok m
    /\ forall d, valid_date d -> date_year d = 2025%Z ->
         ((weekday d = 5 \/ weekday d = 6)%Z ->
            m !! day_of_year d = Some NON_WORKING)
         /\ (d ∈ [mkdate 2025 5 1] -> m !! day_of_year d = Some NON_WORKING)
         /\ ((weekday d < 5)%Z -> d ∉ [mkdate 2025 5 1] ->
               m !! day_of_year d = Some WORKING).
Proof. apply (build_year_map_labels 367 2025 [mkdate 2025 5 1]); lia. Defined.

(** C2.  The map has 365 entries for a common year and 366 for a leap year,
    and its keys are exactly the integers from 1 to that number. *)
Theorem build_year_map_keys (fuel : nat) (year : Z) (nonworking : list date) :
  (366 < fuel)%nat -> (1 <= year <= 9998)%Z ->
  exists m,
    build_year_map fuel year nonworking = Ok m
    /\ size m = (if _is_leap year then 366 else 365)%nat
    /\ forall k : Z, k ∈ dom m <-> (1 <= k <= if _is_leap year then 366 else 365)%Z.
Proof.
  intros Hfuel Hyear.
  destruct (build_year_map_spec fuel year nonworking Hfuel Hyear)
    as (m & Hm & Hkeys & Hsize & _).
  exists m. split; [exact Hm|]. unfold days_in_year in *. split.
  - destruct (_is_leap year); lia.
  - intros k. rewrite elem_of_dom. apply Hkeys.
Qed.

Lemma build_year_map_keys_witness :
  exists m,
    build_year_map 367 2024 [] = Ok m
    /\ size m = (if _is_leap 2024 then 366 else 365)%nat
    /\ forall k : Z, k ∈ dom m <-> (1 <= k <= if _is_leap 2024 then 366 else 365)%Z.
Proof. apply (build_year_map_keys 367 2024 []); lia. Defined.

(** Past the last year the builder cannot form the first day of the next
    year. *)
Example build_year_map_9999 (fuel : nat) :
  build_year_map fuel 9999 [] = Raise ValueError.
Proof. reflexivity. Qed.

(** 1 January 2025 was a Wednesday, 4 January a Saturday. *)
Example build_year_map_2025 :
  match build_year_map 367 2025 [mkdate 2025 1 2] with
  | Ok m => [m !! 1%Z; m !! 2%Z; m !! 4%Z; m !! 6%Z; m !! 365%Z; m !! 366%Z]
  | _ => []
  end
  = [Some WORKING; Some NON_WORKING; Some NON_WORKING; Some WORKING;
     Some WORKING; None].
Proof. vm_compute. reflexivity. Qed.

(** ** The range stage *)

Section RangeStage.
Context {U : UnicodeDB}.


Lemma range_step_done (y : Z) (text : str) (st st' : state) (m : pymatch) :
  range_step y text st m = Ok st' -> range_done y text m st'.
Proof.
  destruct st as [nw ns], st' as [nw' ns']. intros H mt mo d1 d2 Hmt Hmo Hd1 Hd2.
  apply range_step_spec in H
    as (mt' & Hmt' & [(Hnone & _) | (mo' & e1 & e2 & Hmo' & He1 & He2 & Hloop & ->)]).
  - congruence.
  - assert (mt' = mt) by congruence. subst mt'.
    assert (mo' = mo) by congruence. subst mo'.
    assert (e1 = d1) by congruence. assert (e2 = d2) by congruence. subst e1 e2.
    apply range_loop_spec in Hloop as (_ & Hall & _). cbn [fst snd]. split.
    + intros dd d Hdd Hd. apply (Hall dd d); [|done].
      apply elem_of_py_range. lia.
    + apply elem_of_app. right. left.
Qed.

Lemma range_done_grows (y : Z) (text : str) (m : pymatch) (st st' : state) :
  range_done y text m st -> grows y st st' -> range_done y text m st'.
Proof.
  intros Hdone (Hsub & _ & added & Hnotes) mt mo d1 d2 Hmt Hmo Hd1 Hd2.
  destruct (Hdone mt mo d1 d2 Hmt Hmo Hd1 Hd2) as [Hdates Hnote]. split.
  - intros dd d Hdd Hd. apply Hsub. eauto.
  - rewrite Hnotes. apply elem_of_app. by left.
Qed.

Lemma range_stage_done (y : Z) (text : str) (st st' : state) :
  range_stage y text st = Ok st' ->
  forall m, m ∈ finditer RANGE_RE text -> range_done y text m st'.
Proof.
  intros H. refine (for_each_established (range_done y text) _ _ _ _ _ _ H).
  - intros s0 m s1 _. apply range_step_done.
  - intros m s0 m' s1 Hdone Hstep. eapply range_done_grows; [exact Hdone|].
    by eapply range_step_grows.
Qed.

End RangeStage.


(** C4.  For every match of the range pattern whose month is recognised the
    extractor's result holds every valid date of that month from the smaller
    to the larger day bound, and the note of the range; an invalid date
    raises nothing and leaves no trace, the set holding valid dates only.
    On "с 1 по 8 января" with the year 2025 the result is the eight dates
    2025-01-01 .. 2025-01-08 and one note. *)
Theorem range_dates_added :
  (forall (U : UnicodeDB) (HL : UnicodeLaws U) (today : Z) (text : str)
          (hint : option Z),
      fits_c_int today = true -> hint_fits hint ->
      exists r,
        extract_nonworking_dates today text hint = Ok r
        /\ (forall m, m ∈ finditer RANGE_RE text -> range_done (year r) text m
                        (nonworking_dates r, notes r))
        /\ (forall d, d ∈ nonworking_dates r -> valid_date d))
  /\ (forall today : Z,
        extract_nonworking_dates today (utf8 "с 1 по 8 января") (Some 2025%Z)
        = Ok {| year := 2025; nonworking_dates := JAN_1_8;
                notes := [utf8 "Диапазон: 1-8 января"] |}).
Proof.
  split.
  - intros U HL today text hint Ht Hh.
    destruct (extract_total today text hint Ht Hh) as [r Hr].
    exists r. split; [exact Hr|].
    destruct (extract_grows today text hint r Hr) as (st1 & H1 & G1 & G2).
    split.
    + intros m Hm. eapply range_done_grows; [|exact G2].
      by eapply range_stage_done.
    + intros d Hd. destruct (grows_trans _ _ _ _ G1 G2) as (_ & Hof & _).
      apply Hof; [|exact Hd]. intros d0 Hd0. by apply elem_of_empty in Hd0.
  - intros today. vm_compute. reflexivity.
Qed.

Lemma range_dates_added_witness :
  exists r,
    extract_nonworking_dates 2025%Z (utf8 "с 30 по 31 апреля") (Some 2025%Z) = Ok r
    /\ (forall m, m ∈ finditer RANGE_RE (utf8 "с 30 по 31 апреля") ->
          range_done (year r) (utf8 "с 30 по 31 апреля") m
            (nonworking_dates r, notes r))
    /\ (forall d, d ∈ nonworking_dates r -> valid_date d).
Proof.
  apply (proj1 range_dates_added unicode_ru unicode_ru_laws 2025%Z
           (utf8 "с 30 по 31 апреля") (Some 2025%Z)); reflexivity.
Defined.

(** Day 31 of April is dropped, day 30 kept. *)
Example range_drops_invalid_day (today : Z) :
  extract_nonworking_dates today (utf8 "с 30 по 31 апреля") (Some 2025%Z)
  = Ok {| year := 2025; nonworking_dates := {[ mkdate 2025 4 30 ]};
          notes := [utf8 "Диапазон: 30-31 апреля"] |}.
Proof. vm_compute. reflexivity. Qed.

(** ** The list stage *)

Section ListStage.
Context {U : UnicodeDB} {HL : UnicodeLaws U}.

Lemma digit_match_at (raw : str) (p : nat) :
  match_at DIGIT_RE raw p
  = match raw !! p with
    | Some x => if is_decimal x
                then Some {| m_start := p; m_end := S p; m_caps := [] |}
                else None
    | None => None
    end.
Proof.
  unfold match_at. cbn [re_match pat_re DIGIT_RE digit].
  destruct (raw !! p) as [x|]; [|done].
  rewrite char_ok_digit. by destruct (is_decimal x).
Qed.

Lemma digit_search_from_none (raw : str) (n p : nat) :
  search_from DIGIT_RE raw n p = None ->
  forall i x, (p <= i <= p + n)%nat -> raw !! i = Some x -> is_decimal x = false.
Proof.
  revert p. induction n as [|n IH]; intros p; cbn [search_from];
    rewrite digit_match_at; intros H i x Hi Hx.
  - assert (i = p) by lia. subst i. rewrite Hx in H.
    by destruct (is_decimal x).
  - destruct (Nat.eq_dec i p) as [-> | Hne].
    + rewrite Hx in H. by destruct (is_decimal x).
    + destruct (raw !! p) as [y|]; [destruct (is_decimal y); [done|]|];
        apply (IH (S p) H i x); done || lia.
Qed.

(** [re.search(r"\d", raw)] fails only on a string without decimal digit. *)
Lemma digit_search_none (raw : str) :
  search DIGIT_RE raw 0 = None -> Forall (fun x => is_decimal x = false) raw.
Proof.
  unfold search. cbn [Nat.leb]. intros H. apply Forall_lookup_2. intros i x Hx.
  apply (digit_search_from_none raw _ 0 H i x); [|done].
  apply lookup_lt_Some in Hx. lia.
Qed.

Lemma digit_search_first (x : cp) (raw : str) :
  is_decimal x = true -> search DIGIT_RE (x :: raw) 0 <> None.
Proof.
  intros Hx. unfold search. cbn [Nat.leb].
  generalize (length (x :: raw) - 0)%nat. intros n.
  destruct n; cbn [search_from]; rewrite digit_match_at;
    cbn; by rewrite Hx.
Qed.

(** Without a digit in the day list no day is parsed. *)
Lemma listed_days_none (raw : str) :
  Forall (fun x => is_digit x = false) raw -> listed_days raw = Ok [].
Proof.
  intros Hraw. unfold listed_days.
  set (chunk := replace (utf8 " и ") (utf8 ",") raw).
  assert (Hchunk : Forall (fun x => is_digit x = false) chunk).
  { apply replace_go_Forall; [|exact Hraw].
    change (utf8 ",") with [0x2C%N]. constructor; [|constructor].
    apply comma_not_digit. }
  destruct (for_each_total (fun days : list Z => days = [])
              (split_on 0x2C%N chunk)
              (fun days token =>
                 let token := strip token in
                 if isdigit token then d ← py_int token; Ok (days ++ [d])
                 else Ok days) [])
    as (days & Hrun & ->); [|done|exact Hrun].
  intros days token Htok ->. cbv beta zeta.
  destruct (isdigit (strip token)) eqn:Hdig; [|eauto]. exfalso.
  apply isdigit_Forall in Hdig as [Hne Hdig].
  assert (Hf : factor (strip token) chunk).
  { eapply factor_trans; [apply strip_by_factor | by eapply split_on_factor]. }
  pose proof (factor_Forall _ _ _ Hf Hchunk) as Hnot.
  destruct (strip token) as [|x t]; [done|].
  apply Forall_cons in Hdig as [Hx _]. apply Forall_cons in Hnot as [Hx' _].
  congruence.
Qed.

(** The day list of a match of the list pattern. *)
Lemma found_days (text : str) (m : pymatch) :
  found LISTED_DAYS_RE text m ->
  exists raw, group text m "days" = Some raw
    /\ Forall (fun x => is_digit x = true -> is_decimal x = true) raw.
Proof.
  intros (q & Hq & Hm).
  destruct (match_at_group_span LISTED_DAYS_RE text q m "days" days_body Hm)
    as (a & b & c1 & c2 & Hg & Hbody).
  { vm_compute; repeat ((left; reflexivity) || right). }
  { intros b0 Hb. vm_compute in Hb.
    repeat (destruct Hb as [Hb | Hb]; [try discriminate Hb|]);
      try (injection Hb as <-; reflexivity); try (destruct Hb). }
  exists (slice text a b). split; [exact Hg|].
  eapply Forall_impl; [exact (Matches_slice_chars _ _ _ _ _ _ _ Hbody)|].
  intros x Hx. by apply days_body_chars.
Qed.

End ListStage.

(** C5.  On a match of the list pattern the list stage adds every valid date
    of the listed days that the set does not hold yet, and nothing else; it
    appends one note when at least one date was new, and none otherwise.  On
    "1, 2 и 7 января нерабочие" with the year 2025 the result is the three
    dates and one note; after a range that covers 1 to 8 January the stage
    adds no date and no note. *)
Theorem listed_adds_new_and_notes :
  (forall (U : UnicodeDB) (HL : UnicodeLaws U) (y : Z) (text : str)
          (nw : gset date) (ns : list str) (m : pymatch),
      fits_c_int y = true -> m ∈ finditer LISTED_DAYS_RE text ->
      exists nw' ns',
        listed_step y text (nw, ns) m = Ok (nw', ns')
        /\ (forall mt mo raw days,
              group text m "month" = Some mt -> _normalize_month mt = Some mo ->
              group text m "days" = Some raw -> listed_days raw = Ok days ->
              forall d, d ∈ nw' <->
                d ∈ nw \/ exists dd, dd ∈ days /\ date_new y mo dd = Ok d)
        /\ ((exists d, d ∈ nw' /\ d ∉ nw) -> exists note, ns' = ns ++ [note])
        /\ ((forall d, d ∈ nw' -> d ∈ nw) -> ns' = ns))
  /\ (forall today : Z,
        extract_nonworking_dates today (utf8 "1, 2 и 7 января нерабочие")
          (Some 2025%Z)
        = Ok {| year := 2025;
                nonworking_dates :=
                  {[ mkdate 2025 1 1; mkdate 2025 1 2; mkdate 2025 1 7 ]};
                notes := [utf8 "Перечень: 1, 2 и 7 января"] |})
  /\ listed_stage 2025 (utf8 "1, 2 и 7 января нерабочие") (JAN_1_8, [])
     = Ok (JAN_1_8, [])
  /\ (forall today : Z,
        extract_nonworking_dates today
          (utf8 "с 1 по 8 января; 1, 2 и 7 января нерабочие") (Some 2025%Z)
        = Ok {| year := 2025; nonworking_dates := JAN_1_8;
                notes := [utf8 "Диапазон: 1-8 января"] |}).
Proof.
  split; [|split; [|split]].
  - intros U HL y text nw ns m Hy Hm. apply finditer_found in Hm.
    destruct (listed_step_total y text (nw, ns) m Hy Hm) as [[nw' ns'] Hstep].
    exists nw', ns'. split; [exact Hstep|].
    destruct (found_days text m Hm) as (raw0 & Hraw0 & HQ).
    apply listed_step_spec in Hstep
      as (mt0 & Hmt0 & [(-> & -> & Hwhy)
           | (mo0 & raw1 & days0 & a & Hmo0 & Hraw1 & _ & _ & Hdays0 & _ & Hloop & ->)]).
    + split; [|split; [|done]].
      * intros mt mo raw days Hmt Hmo Hraw Hdays d.
        assert (days = []) as ->.
        { destruct Hwhy as [H | [H | [H | [(r & Hr & H) | (r & Hr & H)]]]];
            try congruence.
          - assert (raw = []) by congruence. subst raw.
            vm_compute in Hdays. congruence.
          - assert (r = raw) by congruence. subst r.
            apply digit_search_none in H.
            assert (Hnd : Forall (fun x => is_digit x = false) raw).
            { assert (raw0 = raw) by congruence. subst raw0.
              rewrite Forall_forall in HQ, H. apply Forall_forall.
              intros x Hx. destruct (is_digit x) eqn:E; [|done].
              pose proof (HQ x Hx E). pose proof (H x Hx). congruence. }
            rewrite (listed_days_none raw Hnd) in Hdays. congruence. }
        split; [by left | intros [H | (dd & Hdd & _)]; [done|]].
        by apply elem_of_nil in Hdd.
      * intros (d & Hin & Hout). done.
    + apply listed_loop_spec in Hloop as (Hsub & Hall & Honly & Hflag).
      split; [|split].
      * intros mt mo raw days Hmt Hmo Hraw Hdays d.
        assert (mt0 = mt) by congruence. subst mt0.
        assert (mo0 = mo) by congruence. subst mo0.
        assert (raw1 = raw) by congruence. subst raw1.
        assert (days0 = days) by congruence. subst days0.
        split; [apply Honly|]. intros [Hin | (dd & Hdd & Hd)]; [by apply Hsub|].
        eapply Hall; eauto.
      * intros Hnew. destruct a; [by eexists|].
        destruct Hflag as [_ Hflag]. discriminate Hflag. by right.
      * intros Hold. destruct a; [|done].
        destruct Hflag as [[Hf | (d & Hin & Hout)] _]; [done | discriminate|].
        exfalso. apply Hout. by apply Hold.
  - intros today. vm_compute. reflexivity.
  - vm_compute. reflexivity.
  - intros today. vm_compute. reflexivity.
Qed.

Lemma listed_adds_new_and_notes_witness :
  exists nw' ns',
    listed_step 2025 (utf8 "1, 2 и 7 января")
      ({[ mkdate 2025 1 2 ]}, [])
      {| m_start := 0; m_end := 15;
         m_caps := [("month"%string, (9, 15)%nat); ("days"%string, (0, 8)%nat)] |}
    = Ok (nw', ns')
    /\ (forall mt mo raw days,
          group (utf8 "1, 2 и 7 января")
            {| m_start := 0; m_end := 15;
               m_caps := [("month"%string, (9, 15)%nat); ("days"%string, (0, 8)%nat)] |}
            "month" = Some mt ->
          _normalize_month mt = Some mo ->
          group (utf8 "1, 2 и 7 января")
            {| m_start := 0; m_end := 15;
               m_caps := [("month"%string, (9, 15)%nat); ("days"%string, (0, 8)%nat)] |}
            "days" = Some raw ->
          listed_days raw = Ok days ->
          forall d, d ∈ nw' <->
            d ∈ ({[ mkdate 2025 1 2 ]} : gset date)
            \/ exists dd, dd ∈ days /\ date_new 2025 mo dd = Ok d)
    /\ ((exists d, d ∈ nw' /\ d ∉ ({[ mkdate 2025 1 2 ]} : gset date)) ->
        exists note, ns' = [] ++ [note])
    /\ ((forall d, d ∈ nw' -> d ∈ ({[ mkdate 2025 1 2 ]} : gset date)) -> ns' = []).
Proof.
  apply (proj1 listed_adds_new_and_notes unicode_ru unicode_ru_laws 2025%Z
           (utf8 "1, 2 и 7 января") {[ mkdate 2025 1 2 ]} []).
  - reflexivity.
  - vm_compute. left.
Defined.

(** A bare day before a month name is a match of the list pattern, and the
    list stage takes it as it is. *)
Section BareDay.
Context {U : UnicodeDB} {HL : UnicodeLaws U}.

Lemma replace_go_none (c0 : cp) (old new s : str) :
  Forall (fun x => x <> c0) s -> replace_go (c0 :: old) new 0 s = s.
Proof.
  induction s as [|c s IH]; intros Hs; [done|].
  apply Forall_cons in Hs as [Hc Hs]. cbn [replace_go prefix_b].
  destruct (N.eqb_spec c0 c) as [->|_]; [done|]. cbn [andb].
  by rewrite IH.
Qed.

Lemma split_on_none (sep : cp) (s : str) :
  Forall (fun x => x <> sep) s -> split_on sep s = [s].
Proof.
  induction s as [|c s IH]; intros Hs; [done|].
  apply Forall_cons in Hs as [Hc Hs]. cbn [split_on].
  destruct (N.eqb_spec c sep) as [->|_]; [done|]. by rewrite IH.
Qed.

Lemma lstrip_by_none (f : cp -> bool) (s : str) :
  Forall (fun x => f x = false) s -> lstrip_by f s = s.
Proof.
  destruct s as [|c s]; [done|]. intros [Hc _]%Forall_cons.
  cbn [lstrip_by]. by rewrite Hc.
Qed.

Lemma strip_by_none (f : cp -> bool) (s : str) :
  Forall (fun x => f x = false) s -> strip_by f s = s.
Proof.
  intros Hs. unfold strip_by. rewrite (lstrip_by_none f s Hs).
  rewrite lstrip_by_none; [apply rev_involutive|].
  apply Forall_forall. intros x Hx. rewrite Forall_forall in Hs. apply Hs.
  apply list_elem_of_In. apply in_rev. by apply list_elem_of_In.
Qed.

(** A run of decimal digits is parsed as one day. *)
Lemma listed_days_bare (raw : str) (dd : Z) :
  raw <> [] -> Forall (fun x => is_decimal x = true) raw ->
  py_int raw = Ok dd -> listed_days raw = Ok [dd].
Proof.
  intros Hne Hraw Hint. unfold listed_days.
  change (utf8 " и ") with [0x20%N; 0x438%N; 0x20%N].
  unfold replace. rewrite replace_go_none.
  2:{ eapply Forall_impl; [exact Hraw|]. intros x Hx ->.
      apply decimal_is_digit, digit_not_space in Hx.
      pose proof blank_is_space. congruence. }
  rewrite split_on_none.
  2:{ eapply Forall_impl; [exact Hraw|]. intros x Hx ->.
      apply decimal_is_digit in Hx. pose proof comma_not_digit. congruence. }
  cbn [for_each]. unfold strip. rewrite strip_by_none.
  2:{ eapply Forall_impl; [exact Hraw|]. intros x Hx.
      by apply digit_not_space, decimal_is_digit. }
  assert (isdigit raw = true) as ->.
  { unfold isdigit. destruct raw as [|x raw]; [done|].
    apply forallb_forall. intros y Hy. apply decimal_is_digit.
    rewrite Forall_forall in Hraw. apply Hraw. by apply list_elem_of_In. }
  rewrite Hint. reflexivity.
Qed.

End BareDay.

(** C9.  The list pattern also matches a single day before a month name, with
    no comma and no conjunction; on such a match, when the month is
    recognised and the date is valid and not yet in the set, the list stage
    adds the date and notes it, consulting no context window. *)
Theorem listed_takes_bare_day :
  (forall (U : UnicodeDB) (HL : UnicodeLaws U) (y : Z) (text : str)
          (nw : gset date) (ns : list str) (m : pymatch)
          (mt : str) (mo : Z) (raw : str) (dd : Z) (d : date),
      group text m "month" = Some mt -> _normalize_month mt = Some mo ->
      group text m "days" = Some raw ->
      raw <> [] -> Forall (fun x => is_decimal x = true) raw ->
      py_int raw = Ok dd -> date_new y mo dd = Ok d -> d ∉ nw ->
      listed_step y text (nw, ns) m
      = Ok ({[d]} ∪ nw, ns ++ [listed_note raw mt]))
  /\ finditer LISTED_DAYS_RE (utf8 "8 марта")
     = [ {| m_start := 0; m_end := 7;
            m_caps := [("month"%string, (2, 7)%nat); ("days"%string, (0, 1)%nat)] |} ]
  /\ listed_stage 2025 (utf8 "8 марта") (∅, [])
     = Ok ({[ mkdate 2025 3 8 ]}, [utf8 "Перечень: 8 марта"]).
Proof.
  split; [|split; vm_compute; reflexivity].
  intros U HL y text nw ns m mt mo raw dd d Hmt Hmo Hraw Hne Hdec Hint Hd Hnew.
  unfold listed_step, str_group. rewrite Hmt. cbn [need mbind res_bind].
  rewrite Hmo. pose proof (normalize_month_range _ _ Hmo) as Hr.
  destruct mo as [|mo|mo]; [lia| |lia].
  rewrite Hraw. destruct raw as [|x raw]; [done|].
  destruct (search DIGIT_RE (x :: raw) 0) eqn:Hs.
  2:{ exfalso. apply (digit_search_first x raw); [|done].
      by apply Forall_cons in Hdec as [? _]. }
  rewrite (listed_days_bare (x :: raw) dd Hne Hdec Hint).
  cbn [mbind res_bind for_each listed_body].
  unfold _safe_date. rewrite Hd. cbn [mbind res_bind].
  rewrite bool_decide_eq_false_2 by done. reflexivity.
Qed.

Lemma listed_takes_bare_day_witness :
  listed_step 2025 (utf8 "8 марта") (∅, [])
    {| m_start := 0; m_end := 7;
       m_caps := [("month"%string, (2, 7)%nat); ("days"%string, (0, 1)%nat)] |}
  = Ok ({[ mkdate 2025 3 8 ]} ∪ ∅, [] ++ [listed_note (utf8 "8") (utf8 "марта")]).
Proof.
  apply (proj1 listed_takes_bare_day unicode_ru unicode_ru_laws 2025%Z
           (utf8 "8 марта") ∅ [] _ (utf8 "марта") 3%Z (utf8 "8") 8%Z
           (mkdate 2025 3 8)).
  - reflexivity.
  - vm_compute. reflexivity.
  - reflexivity.
  - vm_compute. discriminate.
  - vm_compute. repeat constructor.
  - reflexivity.
  - reflexivity.
  - apply not_elem_of_empty.
Defined.

(** C3.  The single-date stage consults the window, but the list stage has
    already taken the date: "8 марта" alone yields 2025-03-08, noted as a
    list, although the window holds no trigger and the single-date stage run
    alone adds nothing. *)
Theorem bare_day_added_without_trigger :
  (forall today : Z,
      extract_nonworking_dates today (utf8 "8 марта") (Some 2025%Z)
      = Ok {| year := 2025; nonworking_dates := {[ mkdate 2025 3 8 ]};
              notes := [utf8 "Перечень: 8 марта"] |})
  /\ single_stage 2025 (utf8 "8 марта") (∅, []) = Ok (∅, [])
  /\ (forall today : Z,
        extract_nonworking_dates today (utf8 "8 марта — нерабочий день")
          (Some 2025%Z)
        = Ok {| year := 2025; nonworking_dates := {[ mkdate 2025 3 8 ]};
                notes := [utf8 "Перечень: 8 марта"] |})
  /\ single_stage 2025 (utf8 "8 марта — нерабочий день") (∅, [])
     = Ok ({[ mkdate 2025 3 8 ]}, [utf8 "Одиночная дата: 8 марта"]).
Proof.
  split; [|split; [|split]]; try intros today; vm_compute; reflexivity.
Qed.

(** ** The transfer stage *)

Section TransferStage.
Context {U : UnicodeDB}.


Lemma transfer_stage_only (y : Z) (text : str) (st st' : state) :
  transfer_stage y text st = Ok st' ->
  st.1 ⊆ st'.1
  /\ forall d, d ∈ st'.1 ->
       d ∈ st.1 \/ exists m, m ∈ finditer TRANSFER_RE text /\ destination y text m d.
Proof.
  unfold transfer_stage.
  apply (for_each_inv (fun s : state =>
           st.1 ⊆ s.1
           /\ forall d, d ∈ s.1 ->
                d ∈ st.1
                \/ exists m, m ∈ finditer TRANSFER_RE text /\ destination y text m d)).
  - intros [nw0 ns0] m [nw1 ns1] Hm [Hsub Honly] Hstep. cbn [fst snd] in *.
    apply transfer_step_spec in Hstep
      as [(-> & ->) | (tt & mo & dd & d & Hg & Hn & Hi & Hd & -> & ->)];
      [done|].
    split; [set_solver|]. intros d' Hd'.
    apply elem_of_union in Hd' as [Hd' | Hd']; [|by apply Honly].
    apply elem_of_singleton in Hd' as ->. right. exists m. split; [done|].
    by exists tt, mo, dd.
  - split; [done | by left].
Qed.

End TransferStage.


(** C6, as stated, fails: on the transfer phrase the result holds the source
    date 2025-01-05 next to the destination 2025-01-08. *)
Lemma transfer_phrase_keeps_source_date :
  extract_nonworking_dates 2025 TRANSFER_TEXT (Some 2025%Z)
  = Ok {| year := 2025;
          nonworking_dates := {[ mkdate 2025 1 5; mkdate 2025 1 8 ]};
          notes := [utf8 "Перечень: 5 января"; utf8 "Перечень: 8 января";
                    utf8 "Перенос на: 8 января"] |}
  /\ ({[ mkdate 2025 1 5; mkdate 2025 1 8 ]} : gset date) <> {[ mkdate 2025 1 8 ]}.
Proof.
  split; [vm_compute; reflexivity|].
  intros H. assert (Hin : mkdate 2025 1 5 ∈ ({[ mkdate 2025 1 8 ]} : gset date)).
  { rewrite <- H. apply elem_of_union. left. by apply elem_of_singleton. }
  apply elem_of_singleton in Hin. discriminate.
Qed.

(** C6, amended.  The transfer stage adds nothing but destination dates of
    its matches; run alone on the transfer phrase it yields only 2025-01-08
    and one note, and the extractor's result holds that date.  The source
    date comes from the other stages: the window of the single-date stage
    around "5 января" holds the trigger "выходн". *)
Theorem transfer_adds_destinations_only :
  (forall (U : UnicodeDB) (HL : UnicodeLaws U) (y : Z) (text : str) (st : state),
      fits_c_int y = true ->
      exists st',
        transfer_stage y text st = Ok st'
        /\ st.1 ⊆ st'.1
        /\ forall d, d ∈ st'.1 ->
             d ∈ st.1
             \/ exists m, m ∈ finditer TRANSFER_RE text /\ destination y text m d)
  /\ transfer_stage 2025 TRANSFER_TEXT (∅, [])
     = Ok ({[ mkdate 2025 1 8 ]}, [utf8 "Перенос на: 8 января"])
  /\ (forall today : Z,
        exists r,
          extract_nonworking_dates today TRANSFER_TEXT (Some 2025%Z) = Ok r
          /\ mkdate 2025 1 8 ∈ nonworking_dates r)
  /\ single_stage 2025 TRANSFER_TEXT (∅, [])
     = Ok ({[ mkdate 2025 1 5; mkdate 2025 1 8 ]},
           [utf8 "Одиночная дата: 5 января"; utf8 "Одиночная дата: 8 января"]).
Proof.
  split; [|split; [|split]].
  - intros U HL y text st Hy.
    destruct (stage_total TRANSFER_RE text (transfer_step y text) st) as [st' H].
    { intros s m. by apply transfer_step_total. }
    exists st'. split; [exact H|]. by apply transfer_stage_only.
  - vm_compute. reflexivity.
  - intros today.
    exists {| year := 2025;
              nonworking_dates := {[ mkdate 2025 1 5; mkdate 2025 1 8 ]};
              notes := [utf8 "Перечень: 5 января"; utf8 "Перечень: 8 января";
                        utf8 "Перенос на: 8 января"] |}.
    split; [vm_compute; reflexivity|].
    cbn [nonworking_dates]. apply elem_of_union. right. by apply elem_of_singleton.
  - vm_compute. reflexivity.
Qed.

Lemma transfer_adds_destinations_only_witness :
  exists st',
    transfer_stage 2025 TRANSFER_TEXT (({[ mkdate 2025 1 1 ]}, []) : state)
    = Ok st'
    /\ (({[ mkdate 2025 1 1 ]}, []) : state).1 ⊆ st'.1
    /\ forall d, d ∈ st'.1 ->
         d ∈ (({[ mkdate 2025 1 1 ]}, []) : state).1
         \/ exists m, m ∈ finditer TRANSFER_RE TRANSFER_TEXT
                      /\ destination 2025 TRANSFER_TEXT m d.
Proof.
  apply (proj1 transfer_adds_destinations_only unicode_ru unicode_ru_laws 2025%Z
           TRANSFER_TEXT ({[ mkdate 2025 1 1 ]}, [])).
  reflexivity.
Defined.

(** ** The year and the dates of a result *)

(** C7.  The year detector tries the three patterns in order and returns the
    year group of the first that matches somewhere in the text, whatever the
    hint; when none matches it returns the hint if there is one and it is
    not zero, and the current year otherwise.  "календарь на 2026 год" gives
    2026 under every hint; a text without year phrase gives 2024 under the
    hint 2024. *)
Theorem detect_year_first_match :
  (forall (U : UnicodeDB) (HL : UnicodeLaws U) (today : Z) (text : str)
          (fallback : option Z) (i : nat) (pat : pattern) (m : pymatch),
      YEAR_PATTERNS !! i = Some pat -> search pat text 0 = Some m ->
      (forall j pj, (j < i)%nat -> YEAR_PATTERNS !! j = Some pj ->
                    search pj text 0 = None) ->
      exists y, int_group text m "year" = Ok y
                /\ _detect_year today text fallback = Ok y)
  /\ (forall (U : UnicodeDB) (today : Z) (text : str) (fallback : option Z),
        (forall pat, pat ∈ YEAR_PATTERNS -> search pat text 0 = None) ->
        _detect_year today text fallback
        = Ok match fallback with
             | Some f => if (f =? 0)%Z then today else f
             | None => today
             end)
  /\ (forall today hint : Z,
        _detect_year today (utf8 "календарь на 2026 год") (Some hint) = Ok 2026%Z)
  /\ (forall today : Z,
        (forall pat, pat ∈ YEAR_PATTERNS ->
                     search pat (utf8 "8 марта — нерабочий день") 0 = None)
        /\ _detect_year today (utf8 "8 марта — нерабочий день") (Some 2024%Z)
           = Ok 2024%Z).
Proof.
  split; [|split; [|split]].
  - intros U HL today text fallback i pat m Hi Hm Hbefore.
    destruct (year_group_total pat text m) as (y & Hy & _).
    { by eapply list_elem_of_lookup_2. }
    { by eapply search_found. }
    exists y. split; [exact Hy|]. unfold _detect_year.
    by rewrite (detect_year_loop_first YEAR_PATTERNS text i pat m Hi Hm Hbefore).
  - intros U today text fallback Hnone. unfold _detect_year.
    rewrite (detect_year_loop_none YEAR_PATTERNS text Hnone).
    destruct fallback as [f|]; [|done]. by destruct (f =? 0)%Z.
  - intros today hint. vm_compute. reflexivity.
  - intros today. split; [|vm_compute; reflexivity].
    intros pat Hpat. unfold YEAR_PATTERNS in Hpat.
    repeat (apply elem_of_cons in Hpat as [-> | Hpat]; [vm_compute; reflexivity|]).
    by apply elem_of_nil in Hpat.
Qed.

Lemma detect_year_first_match_witness :
  exists y,
    int_group (utf8 "календарь на 2026 год")
      {| m_start := 0; m_end := 17; m_caps := [("year"%string, (13, 17)%nat)] |}
      "year" = Ok y
    /\ _detect_year 2030 (utf8 "календарь на 2026 год") (Some 2025%Z) = Ok y.
Proof.
  apply (proj1 detect_year_first_match unicode_ru unicode_ru_laws 2030%Z
           (utf8 "календарь на 2026 год") (Some 2025%Z) 2%nat
           (ignorecase (cat [lit "календар";
                             Chr (CIn [ILit 0x44C%N; ILit 0x44F%N; ILit 0x435%N]);
                             plus (Chr (CIn [ICat CatWord; ICat CatSpace]));
                             Group "year" year_20xx]))).
  - reflexivity.
  - vm_compute. reflexivity.
  - intros j pj Hj Hpj.
    destruct j as [|[|j]]; [| |lia]; injection Hpj as <-; vm_compute; reflexivity.
Defined.

(** The first phrase that matches wins over later ones, and the hint is not
    consulted. *)
Example detect_year_order (today hint : Z) :
  _detect_year today (utf8 "календарь на 2026 год, утверждён в 2025 года")
    (Some hint) = Ok 2025%Z.
Proof. vm_compute. reflexivity. Qed.

(** C8.  The extractor raises on a year hint that does not fit a C [int]:
    [date] answers such a year with [OverflowError], which [_safe_date] does
    not catch. *)
Theorem extract_raises_on_huge_hint (today : Z) :
  extract_nonworking_dates today (utf8 "1 января") (Some 2147483648%Z)
  = Raise OverflowError.
Proof. vm_compute. reflexivity. Qed.

(** For every other year hint, and whatever the text, it returns. *)
Theorem extract_returns (U : UnicodeDB) (HL : UnicodeLaws U) (today : Z)
    (text : str) (hint : option Z) :
  fits_c_int today = true -> hint_fits hint ->
  exists r, extract_nonworking_dates today text hint = Ok r.
Proof. apply extract_total. Qed.

Lemma extract_returns_witness :
  exists r,
    extract_nonworking_dates 2030 (utf8 "с 30 по 31 апреля, 31 июня") None = Ok r.
Proof.
  apply (extract_returns unicode_ru unicode_ru_laws 2030%Z
           (utf8 "с 30 по 31 апреля, 31 июня") None); reflexivity.
Defined.

(** C10.  Every date of a result carries the year of that result. *)
Theorem dates_carry_result_year (U : UnicodeDB) (today : Z) (text : str)
    (hint : option Z) :
  (forall r, extract_nonworking_dates today text hint = Ok r ->
             forall d, d ∈ nonworking_dates r -> date_year d = year r)
  /\ (UnicodeLaws U -> fits_c_int today = true -> hint_fits hint ->
      exists r, extract_nonworking_dates today text hint = Ok r).
Proof.
  split; [|intros HL Ht Hh; by apply extract_total].
  intros r Hr d Hd.
  destruct (extract_grows today text hint r Hr) as (st1 & _ & G1 & G2).
  destruct (grows_trans _ _ _ _ G1 G2) as (_ & Hof & _).
  apply Hof; [|exact Hd]. intros d0 Hd0. by apply elem_of_empty in Hd0.
Qed.


Lemma dates_carry_result_year_witness :
  date_year (mkdate 2026 1 8) = year RESULT_2026.
Proof.
  apply (proj1 (dates_carry_result_year unicode_ru 2030%Z
                  (utf8 "календарь на 2026 год: 5 и 8 января") (Some 2025%Z))
           RESULT_2026).
  - vm_compute. reflexivity.
  - apply elem_of_union. right. apply elem_of_singleton. reflexivity.
Defined.

(** * Further properties of the code *)

(** ** The calendar builder, key by key *)

Section BuildYearMapKeys.
Local Open Scope Z_scope.

Lemma valid_jan_1 (y : Z) : 1 <= y <= 9999 -> valid_date (mkdate y 1 1).
Proof.
  intros Hy. unfold valid_date, MINYEAR, MAXYEAR; cbn.
  unfold _days_in_month. table. lia.
Qed.

Lemma day_of_year_jan_1 (y : Z) : day_of_year (mkdate y 1 1) = 1.
Proof. rewrite day_of_year_eq; cbn. unfold _days_before_month. table. lia. Qed.

Lemma toordinal_day_of_year (d : date) :
  toordinal d = _days_before_year (date_year d) + day_of_year d.
Proof.
  assert (H1 : _days_before_month (date_year d) 1 = 0).
  { unfold _days_before_month. table. lia. }
  unfold day_of_year, days_between, toordinal, _ymd2ord; cbn. lia.
Qed.

(** Every day number of a year is the number of one of its dates. *)
Lemma date_of_key (y : Z) (n : nat) :
  1 <= y <= 9998 -> Z.of_nat n < days_in_year y ->
  exists d, valid_date d /\ date_year d = y /\ day_of_year d = Z.of_nat n + 1.
Proof.
  intros Hy. induction n as [|n IH]; intros Hn.
  - exists (mkdate y 1 1). split; [apply valid_jan_1; lia|].
    split; [reflexivity | apply day_of_year_jan_1].
  - destruct IH as (d & Hv & Hyd & Hk); [lia|].
    destruct (date_add_day_spec d Hv) as (d' & _ & Hv' & _ & Hcase).
    { unfold MAXYEAR. lia. }
    destruct Hcase as [[Hy' Hd'] | [_ Hlast]].
    + exists d'. repeat split; [apply Hv'.. | congruence | lia].
    + rewrite Hyd in Hlast. lia.
Qed.

Lemma labels_differ : WORKING <> NON_WORKING.
Proof. vm_compute. discriminate. Qed.

Lemma build_year_map_by_key (fuel : nat) (year : Z) (nonworking : list date) :
  (366 < fuel)%nat -> 1 <= year <= 9998 ->
  exists m,
    build_year_map fuel year nonworking = Ok m
    /\ forall k, 1 <= k <= days_in_year year ->
         exists d, valid_date d /\ date_year d = year /\ day_of_year d = k
                   /\ m !! k = Some (day_label (list_to_set nonworking) d).
Proof.
  intros Hfuel Hy.
  destruct (build_year_map_spec fuel year nonworking Hfuel Hy)
    as (m & Hm & _ & _ & Hlab).
  exists m. split; [exact Hm|]. intros k Hk.
  destruct (date_of_key year (Z.to_nat (k - 1)) Hy) as (d & Hv & Hyd & Hd); [lia|].
  exists d. rewrite <- (Hlab d Hv Hyd).
  replace (day_of_year d) with k by lia. repeat split; try apply Hv; try done; lia.
Qed.

Lemma build_year_loop_ext (y : Z) (nw1 nw2 : gset date) :
  1 <= y <= 9998 ->
  (forall d, valid_date d -> date_year d = y -> (d ∈ nw1 <-> d ∈ nw2)) ->
  forall (fuel : nat) (d : date) (result : gmap Z str),
    valid_date d -> date_year d = y \/ d = mkdate (y + 1) 1 1 ->
    build_year_loop fuel (mkdate y 1 1) (mkdate (y + 1) 1 1) d nw1 result
    = build_year_loop fuel (mkdate y 1 1) (mkdate (y + 1) 1 1) d nw2 result.
Proof.
  intros Hy Hsame. induction fuel as [|fuel IH]; intros d result Hv Hd;
    [reflexivity|].
  cbn [build_year_loop].
  destruct (date_ltb d (mkdate (y + 1) 1 1)) eqn:Hlt; [|reflexivity].
  destruct Hd as [Hyd | ->].
  - rewrite (bool_decide_ext _ _ (Hsame d Hv Hyd)).
    destruct (date_add_day_spec d Hv) as (d' & Hadd & Hv' & _ & Hcase).
    { unfold MAXYEAR. lia. }
    rewrite Hadd. cbn [mbind res_bind]. apply IH; [exact Hv'|].
    destruct Hcase as [[Hy' _] | [-> _]]; [left; congruence | right; congruence].
  - unfold date_ltb in Hlt; cbn in Hlt.
    rewrite Z.ltb_irrefl, Z.eqb_refl in Hlt. discriminate.
Qed.

End BuildYearMapKeys.

Lemma build_year_map_value_error (fuel : nat) (year : Z) (nonworking : list date) :
  fits_c_int year = true -> ~ (1 <= year <= 9998)%Z ->
  build_year_map fuel year nonworking = Raise ValueError.
Proof.
  unfold build_year_map, date_new, fits_c_int, MINYEAR, MAXYEAR.
  intros Hfit Hbad. apply andb_true_iff in Hfit as [H1 H2].
  apply Z.leb_le in H1, H2.
  destruct (decide (year = 9999%Z)) as [-> | Hne]; [reflexivity|].
  rewrite (proj2 (Z.leb_le _ _) H1), (proj2 (Z.leb_le _ _) H2).
  cbn [andb negb Z.leb Z.compare Pos.compare Pos.compare_cont mbind res_bind].
  destruct (Z.leb_spec 1%Z year); cbn [andb negb mbind res_bind]; [|reflexivity].
  rewrite (proj2 (Z.leb_gt year 9999)) by lia. reflexivity.
Qed.

(** X1.  [build_year_map] returns for the years 1 to 9998 only: for every
    other year that fits a C [int] the first day of the year or of the next
    one cannot be formed and [ValueError] is raised, and a year outside the
    C [int] range raises [OverflowError]; the exceptions are not looked at. *)
Theorem build_year_map_bad_year (fuel : nat) (year : Z) (nonworking : list date) :
  (fits_c_int year = true -> ~ (1 <= year <= 9998)%Z ->
   build_year_map fuel year nonworking = Raise ValueError)
  /\ (fits_c_int year = false ->
      build_year_map fuel year nonworking = Raise OverflowError).
Proof.
  split; [apply build_year_map_value_error|].
  intros Hfit. unfold build_year_map, date_new. rewrite Hfit. reflexivity.
Qed.

(** X2.  The exceptions count as a set, and only those of the year asked
    for: two exception lists holding the same valid dates of that year give
    the same outcome, whatever their order, their repetitions and their
    dates of other years. *)
Theorem build_year_map_exceptions_as_set (fuel : nat) (year : Z)
    (nw1 nw2 : list date) :
  (forall d, valid_date d -> date_year d = year -> (d ∈ nw1 <-> d ∈ nw2)) ->
  build_year_map fuel year nw1 = build_year_map fuel year nw2.
Proof.
  intros Hsame. unfold build_year_map.
  destruct (date_new year 1 1) as [start| |] eqn:Hs; try reflexivity.
  destruct (date_new (year + 1) 1 1) as [end_| |] eqn:He; try reflexivity.
  cbn [mbind res_bind].
  apply date_new_inv in Hs as [-> Hvs], He as [-> Hve].
  assert (Hy : (1 <= year <= 9998)%Z).
  { destruct Hvs as [Hs _], Hve as [He _]. unfold MINYEAR, MAXYEAR in *.
    cbn in *. lia. }
  apply build_year_loop_ext; [exact Hy | | exact Hvs | by left].
  intros d Hv Hd. rewrite !elem_of_list_to_set. by apply Hsame.
Qed.

Lemma build_year_map_exceptions_as_set_witness :
  build_year_map 367 2025
    [mkdate 2025 5 2; mkdate 2025 5 1; mkdate 2025 5 2; mkdate 2024 5 1]
  = build_year_map 367 2025 [mkdate 2025 5 1; mkdate 2025 5 2].
Proof.
  apply build_year_map_exceptions_as_set. intros d _ Hy.
  rewrite !elem_of_cons, !elem_of_nil. split.
  - intros [-> | [-> | [-> | [-> | []]]]]; auto. discriminate.
  - intros [-> | [-> | []]]; auto.
Defined.

(** X3.  Every entry of the map belongs to a date: for each key [k] from 1
    to the number of days of the year there is a valid date of that year
    whose day number is [k], and the entry is that date's label; no entry
    holds anything but one of the two labels. *)
Theorem build_year_map_entries (fuel : nat) (year : Z) (nonworking : list date) :
  (366 < fuel)%nat -> (1 <= year <= 9998)%Z ->
  exists m,
    build_year_map fuel year nonworking = Ok m
    /\ (forall k, (1 <= k <= days_in_year year)%Z ->
          exists d, valid_date d /\ date_year d = year /\ day_of_year d = k
                    /\ m !! k = Some (day_label (list_to_set nonworking) d))
    /\ (forall k v, m !! k = Some v -> v = WORKING \/ v = NON_WORKING).
Proof.
  intros Hfuel Hy.
  destruct (build_year_map_by_key fuel year nonworking Hfuel Hy) as (m & Hm & Hk).
  destruct (build_year_map_spec fuel year nonworking Hfuel Hy)
    as (m' & Hm' & Hkeys & _).
  assert (m' = m) by congruence. subst m'.
  exists m. split; [exact Hm|]. split; [exact Hk|].
  intros k v Hv.
  assert (Hin : (1 <= k <= days_in_year year)%Z) by (apply Hkeys; eauto).
  destruct (Hk k Hin) as (d & _ & _ & _ & Hd).
  rewrite Hd in Hv. injection Hv as <-. unfold day_label.
  destruct (_ || _); auto.
Qed.

Lemma build_year_map_entries_witness :
  exists m,
    build_year_map 367 2024 [mkdate 2024 2 29] = Ok m
    /\ (forall k, (1 <= k <= days_in_year 2024)%Z ->
          exists d, valid_date d /\ date_year d = 2024%Z /\ day_of_year d = k
                    /\ m !! k
                       = Some (day_label (list_to_set [mkdate 2024 2 29]) d))
    /\ (forall k v, m !! k = Some v -> v = WORKING \/ v = NON_WORKING).
Proof. apply (build_year_map_entries 367 2024); lia. Defined.

(** X4.  When no exception falls in the year, the label of the [k]-th day
    depends on [k] through its weekday alone, which is that of the ordinal
    [_days_before_year year + k]; so the labels repeat with period seven. *)
Theorem build_year_map_weekly (fuel : nat) (year : Z) (nonworking : list date) :
  (366 < fuel)%nat -> (1 <= year <= 9998)%Z ->
  (forall d, d ∈ nonworking -> date_year d <> year) ->
  exists m,
    build_year_map fuel year nonworking = Ok m
    /\ (forall k, (1 <= k <= days_in_year year)%Z ->
          m !! k = Some (if weekend_key year k then NON_WORKING else WORKING))
    /\ (forall k, (1 <= k)%Z -> (k + 7 <= days_in_year year)%Z ->
          m !! (k + 7)%Z = m !! k).
Proof.
  intros Hfuel Hy Hnone.
  destruct (build_year_map_by_key fuel year nonworking Hfuel Hy) as (m & Hm & Hk).
  exists m. split; [exact Hm|].
  assert (Hform : forall k, (1 <= k <= days_in_year year)%Z ->
            m !! k = Some (if weekend_key year k then NON_WORKING else WORKING)).
  { intros k Hin. destruct (Hk k Hin) as (d & Hv & Hyd & Hd & ->).
    unfold day_label, weekend_key, weekday.
    rewrite toordinal_day_of_year, Hyd, Hd.
    rewrite bool_decide_eq_false_2, orb_false_r; [reflexivity|].
    rewrite elem_of_list_to_set. intros Hin'. by apply (Hnone d Hin'). }
  split; [exact Hform|].
  intros k H1 H7. rewrite !Hform by lia. unfold weekend_key.
  replace (_days_before_year year + (k + 7) + 6)%Z
    with (_days_before_year year + k + 6 + 1 * 7)%Z by lia.
  by rewrite Z.mod_add.
Qed.

Lemma build_year_map_weekly_witness :
  exists m,
    build_year_map 367 2025 [mkdate 2024 3 8] = Ok m
    /\ (forall k, (1 <= k <= days_in_year 2025)%Z ->
          m !! k = Some (if weekend_key 2025 k then NON_WORKING else WORKING))
    /\ (forall k, (1 <= k)%Z -> (k + 7 <= days_in_year 2025)%Z ->
          m !! (k + 7)%Z = m !! k).
Proof.
  apply (build_year_map_weekly 367 2025); [lia | lia |].
  intros d Hd. apply list_elem_of_singleton in Hd as ->. discriminate.
Defined.

(** X5.  More exceptions never make a day a working day: when every
    exception of one list is in the other, each day the first map labels
    non-working is labelled non-working in the second. *)
Theorem build_year_map_monotone (fuel : nat) (year : Z) (nw1 nw2 : list date) :
  (366 < fuel)%nat -> (1 <= year <= 9998)%Z ->
  (forall d, d ∈ nw1 -> d ∈ nw2) ->
  exists m1 m2,
    build_year_map fuel year nw1 = Ok m1
    /\ build_year_map fuel year nw2 = Ok m2
    /\ forall k, m1 !! k = Some NON_WORKING -> m2 !! k = Some NON_WORKING.
Proof.
  intros Hfuel Hy Hsub.
  destruct (build_year_map_by_key fuel year nw1 Hfuel Hy) as (m1 & Hm1 & Hk1).
  destruct (build_year_map_spec fuel year nw2 Hfuel Hy)
    as (m2 & Hm2 & _ & _ & Hlab2).
  destruct (build_year_map_spec fuel year nw1 Hfuel Hy)
    as (m1' & Hm1' & Hkeys & _).
  assert (m1' = m1) by congruence. subst m1'.
  exists m1, m2. split; [exact Hm1|]. split; [exact Hm2|].
  intros k Hv.
  assert (Hin : (1 <= k <= days_in_year year)%Z) by (apply Hkeys; eauto).
  destruct (Hk1 k Hin) as (d & Hvd & Hyd & Hd & Hl).
  rewrite <- Hd, (Hlab2 d Hvd Hyd). rewrite Hl in Hv. injection Hv as Hv.
  f_equal. unfold day_label in *.
  destruct (5 <=? weekday d)%Z; cbn [orb] in *; [reflexivity|].
  destruct (bool_decide (d ∈ (list_to_set nw1 : gset date))) eqn:H1.
  - apply bool_decide_eq_true in H1. rewrite elem_of_list_to_set in H1.
    rewrite bool_decide_eq_true_2; [reflexivity|].
    rewrite elem_of_list_to_set. by apply Hsub.
  - by destruct labels_differ.
Qed.

Lemma build_year_map_monotone_witness :
  exists m1 m2,
    build_year_map 367 2025 [mkdate 2025 5 1] = Ok m1
    /\ build_year_map 367 2025 [mkdate 2025 5 2; mkdate 2025 5 1] = Ok m2
    /\ forall k, m1 !! k = Some NON_WORKING -> m2 !! k = Some NON_WORKING.
Proof.
  apply (build_year_map_monotone 367 2025); [lia | lia |].
  intros d Hd. apply list_elem_of_singleton in Hd as ->.
  rewrite !elem_of_cons. auto.
Defined.

(** ** [_safe_date] and [_normalize_month] *)

(** X6.  [_safe_date] answers a valid calendar date with that date and every
    other triple of C [int]s with [None]; it raises, with [OverflowError],
    exactly when an argument is outside the C [int] range. *)
Theorem safe_date_cases (year month day : Z) :
  (valid_date (mkdate year month day) ->
   _safe_date year month day = Ok (Some (mkdate year month day)))
  /\ (fits_c_int year && fits_c_int month && fits_c_int day = true ->
      ~ valid_date (mkdate year month day) ->
      _safe_date year month day = Ok None)
  /\ (fits_c_int year && fits_c_int month && fits_c_int day = false ->
      _safe_date year month day = Raise OverflowError).
Proof.
  split; [|split].
  - intros Hv. unfold _safe_date. by rewrite (date_new_ok _ _ _ Hv).
  - intros Hfit Hbad. unfold _safe_date.
    destruct (date_new year month day) as [d|e|] eqn:Hd.
    + apply date_new_inv in Hd as [-> Hv]. contradiction.
    + revert Hd. unfold date_new. rewrite Hfit. cbn [negb].
      repeat match goal with
      | |- context [negb ?b] => destruct b; cbn [negb]
      end; by intros [= <-].
    + revert Hd. unfold date_new.
      repeat match goal with
      | |- context [negb ?b] => destruct b; cbn [negb]
      end; discriminate.
  - intros Hfit. unfold _safe_date, date_new. rewrite Hfit. reflexivity.
Qed.

Section StripFacts.
Variable f : cp -> bool.

Lemma lstrip_by_all (p : str) :
  Forall (fun x => f x = true) p -> lstrip_by f p = [].
Proof. induction 1 as [|c p Hc _ IH]; cbn; [done | by rewrite Hc]. Qed.

Lemma lstrip_by_app_l (p s : str) :
  Forall (fun x => f x = true) p -> lstrip_by f (p ++ s) = lstrip_by f s.
Proof. induction 1 as [|c p Hc _ IH]; cbn; [done | by rewrite Hc]. Qed.

Lemma lstrip_by_app_r (s q : str) :
  Forall (fun x => f x = true) q ->
  lstrip_by f (s ++ q)
  = match lstrip_by f s with [] => [] | l => l ++ q end.
Proof.
  intros Hq. induction s as [|c s IH]; cbn.
  - by apply lstrip_by_all.
  - destruct (f c); [exact IH | reflexivity].
Qed.

(** Characters that [strip] removes do not count at either end. *)
Lemma strip_by_pad (p s q : str) :
  Forall (fun x => f x = true) p -> Forall (fun x => f x = true) q ->
  strip_by f (p ++ s ++ q) = strip_by f s.
Proof.
  intros Hp Hq. unfold strip_by.
  rewrite lstrip_by_app_l, lstrip_by_app_r by done.
  destruct (lstrip_by f s) as [|c l]; [reflexivity|].
  rewrite rev_app_distr, lstrip_by_app_l; [reflexivity|].
  by apply List.Forall_rev.
Qed.

End StripFacts.

(** The lower-case mapping of the database [unicode_ru] maps its own values
    to themselves. *)
Lemma lower_ru_idem (c : cp) : lower_ru (lower_ru c) = lower_ru c.
Proof.
  assert (Hpar : forall x, N.even (x + 1) = negb (N.even x)).
  { intros x. rewrite N.add_1_r, N.even_succ. symmetry. apply N.negb_even. }
  assert (Hodd : forall x, N.odd (x + 1) = negb (N.odd x)).
  { intros x. rewrite N.add_1_r, N.odd_succ. symmetry. apply N.negb_odd. }
  unfold lower_ru at 2. unfold in_ranges. cbn [existsb fst snd].
  repeat match goal with
  | |- context [(?a <=? ?b)%N] =>
      destruct (N.leb_spec a b); cbn [andb orb]; try (exfalso; lia)
  | |- context [(?a =? ?b)%N] =>
      destruct (N.eqb_spec a b); cbn [andb orb]; try (exfalso; lia)
  | |- context [N.even c] => destruct (N.even c) eqn:?; cbn [andb orb]
  | |- context [N.odd c] => destruct (N.odd c) eqn:?; cbn [andb orb]
  end;
  unfold lower_ru, in_ranges; cbn [existsb fst snd];
  rewrite ?Hpar, ?Hodd;
  repeat match goal with
  | |- context [(?a <=? ?b)%N] =>
      destruct (N.leb_spec a b); cbn [andb orb]; try (exfalso; lia)
  | |- context [(?a =? ?b)%N] =>
      destruct (N.eqb_spec a b); cbn [andb orb]; try (exfalso; lia)
  | H : N.even c = _ |- _ => rewrite ?H; clear H; cbn [andb orb negb]
  | H : N.odd c = _ |- _ => rewrite ?H; clear H; cbn [andb orb negb]
  end; try reflexivity; try lia.
Qed.

Lemma month_punct_spec (c : cp) :
  c ∈ MONTH_PUNCT -> lower_ru c = c /\ existsb (N.eqb c) MONTH_PUNCT = true.
Proof.
  change MONTH_PUNCT with [0x20; 0x2E; 0x2C; 0x3A; 0x3B]%N. intros H.
  repeat (apply elem_of_cons in H as [-> | H]; [split; reflexivity|]).
  by apply elem_of_nil in H.
Qed.

Lemma month_punct_lower (p : str) :
  Forall (fun c => c ∈ MONTH_PUNCT) p -> map lower_ru p = p.
Proof.
  induction 1 as [|c p Hc _ IH]; cbn; [reflexivity|].
  by rewrite IH, (proj1 (month_punct_spec c Hc)).
Qed.

(** X7.  The month table answers with a number from 1 to 12, never with the
    0 that the callers would take for an unknown month, and two tokens with
    the same number are the same name once lowered and stripped. *)
Theorem normalize_month_numbers :
  (forall (U : UnicodeDB) (token : str) (mo : Z),
      _normalize_month token = Some mo -> (1 <= mo <= 12)%Z)
  /\ (forall (U : UnicodeDB) (t1 t2 : str) (mo : Z),
        _normalize_month t1 = Some mo -> _normalize_month t2 = Some mo ->
        strip_chars MONTH_PUNCT (str_lower t1)
        = strip_chars MONTH_PUNCT (str_lower t2)).
Proof.
  split.
  - intros U token mo. apply normalize_month_range.
  - intros U t1 t2 mo. unfold _normalize_month, MONTHS_RU, MONTH_PUNCT.
    generalize (strip_chars (utf8 " .,:;") (str_lower t1)) as k1.
    generalize (strip_chars (utf8 " .,:;") (str_lower t2)) as k2.
    intros k2 k1 H1 H2. apply elem_of_list_to_map_2 in H1, H2.
    repeat (apply elem_of_cons in H1 as [[= -> ->] | H1];
            [ repeat (apply elem_of_cons in H2 as [E | H2]; [by simplify_eq|]);
              by apply elem_of_nil in H2 |]).
    by apply elem_of_nil in H1.
Qed.

(** X8.  On Latin and Cyrillic text [_normalize_month] ignores the
    characters blank, full stop, comma, colon and semicolon at either end of
    the token, and the case of its letters. *)
Theorem normalize_month_insensitive (token p q : str) :
  Forall (fun c => c ∈ MONTH_PUNCT) p -> Forall (fun c => c ∈ MONTH_PUNCT) q ->
  @_normalize_month unicode_ru (p ++ token ++ q)
  = @_normalize_month unicode_ru token
  /\ @_normalize_month unicode_ru (@str_lower unicode_ru token)
     = @_normalize_month unicode_ru token.
Proof.
  intros Hp Hq. unfold _normalize_month. cbn [str_lower unicode_ru]. split.
  - rewrite !map_app, (month_punct_lower p Hp), (month_punct_lower q Hq).
    unfold strip_chars. f_equal. apply strip_by_pad.
    + eapply Forall_impl; [exact Hp|]. intros c Hc.
      apply (proj2 (month_punct_spec c Hc)).
    + eapply Forall_impl; [exact Hq|]. intros c Hc.
      apply (proj2 (month_punct_spec c Hc)).
  - rewrite map_map. f_equal. f_equal. apply map_ext. intros c.
    apply lower_ru_idem.
Qed.

Lemma normalize_month_insensitive_witness :
  @_normalize_month unicode_ru (utf8 " " ++ utf8 "Мая" ++ utf8 ".;")
  = @_normalize_month unicode_ru (utf8 "Мая")
  /\ @_normalize_month unicode_ru (@str_lower unicode_ru (utf8 "Мая"))
     = @_normalize_month unicode_ru (utf8 "Мая").
Proof.
  apply normalize_month_insensitive.
  - change (utf8 " ") with [0x20%N]. repeat constructor.
  - change (utf8 ".;") with [0x2E%N; 0x3B%N].
    change MONTH_PUNCT with [0x20; 0x2E; 0x2C; 0x3A; 0x3B]%N.
    repeat (apply Forall_cons; split; [set_solver|]). constructor.
Defined.

(** ** What the extractor finds, and what it does not *)

Section StepEffects.
Context {U : UnicodeDB}.

(** An iteration leaves the state alone or appends one note. *)
Lemma range_step_effect (y : Z) (text : str) (s s' : state) (m : pymatch) :
  range_step y text s m = Ok s' ->
  s' = s \/ exists n, is_range_note n /\ s'.2 = s.2 ++ [n].
Proof.
  destruct s as [nw ns], s' as [nw' ns']. intros H.
  apply range_step_spec in H
    as (mt & _ & [(_ & -> & ->) | (mo & d1 & d2 & _ & _ & _ & _ & ->)]);
    [by left | right].
  exists (range_note d1 d2 mt). split; [by exists d1, d2, mt | reflexivity].
Qed.

Lemma listed_step_effect (y : Z) (text : str) (s s' : state) (m : pymatch) :
  listed_step y text s m = Ok s' ->
  s' = s \/ exists n, is_listed_note n /\ s'.2 = s.2 ++ [n].
Proof.
  destruct s as [nw ns], s' as [nw' ns']. intros H.
  apply listed_step_spec in H
    as (mt & _ & [(-> & -> & _)
                 | (mo & raw & days & a & _ & _ & _ & _ & _ & _ & Hloop & ->)]);
    [by left|].
  apply listed_loop_spec in Hloop as (Hsub & _ & Hfrom & Hany).
  destruct a.
  - right. exists (listed_note raw mt). split; [by exists raw, mt | reflexivity].
  - left. f_equal. apply set_eq. intros d. split; [|apply Hsub].
    intros Hd. destruct (decide (d ∈ nw)) as [|Hnew]; [done|].
    assert (false = true) as Hf by (apply Hany; right; eauto). discriminate.
Qed.

Lemma single_step_effect (y : Z) (text : str) (s s' : state) (m : pymatch) :
  single_step y text s m = Ok s' ->
  s' = s \/ exists n, is_single_note n /\ s'.2 = s.2 ++ [n].
Proof.
  destruct s as [nw ns], s' as [nw' ns']. intros H.
  apply single_step_spec in H
    as [(-> & ->) | (mt & mo & dd & d & _ & _ & _ & _ & _ & _ & _ & ->)];
    [by left | right].
  exists (single_note dd mt). split; [by exists dd, mt | reflexivity].
Qed.

Lemma transfer_step_effect (y : Z) (text : str) (s s' : state) (m : pymatch) :
  transfer_step y text s m = Ok s' ->
  s' = s \/ exists n, is_transfer_note n /\ s'.2 = s.2 ++ [n].
Proof.
  destruct s as [nw ns], s' as [nw' ns']. intros H.
  apply transfer_step_spec in H
    as [(-> & ->) | (tt & mo & dd & d & _ & _ & _ & _ & _ & ->)];
    [by left | right].
  exists (transfer_note dd tt). split; [by exists dd, tt | reflexivity].
Qed.

(** A stage appends notes of its own shape, and changes the set only when
    it appends a note. *)
Lemma stage_effect (shape : str -> Prop) (ms : list pymatch)
    (step : state -> pymatch -> res state) (st st' : state) :
  (forall s m s', step s m = Ok s' ->
                  s' = s \/ exists n, shape n /\ s'.2 = s.2 ++ [n]) ->
  for_each ms st step = Ok st' ->
  exists added, st'.2 = st.2 ++ added /\ Forall shape added
                /\ (added = [] -> st'.1 = st.1).
Proof.
  intros Hstep.
  apply (for_each_inv (fun s : state =>
           exists added, s.2 = st.2 ++ added /\ Forall shape added
                         /\ (added = [] -> s.1 = st.1))).
  - intros s0 m s1 _ (added & Hn & Hs & Hset) H.
    apply Hstep in H as [-> | (n & Hsh & Hn')]; [by exists added|].
    exists (added ++ [n]). rewrite Hn', Hn, app_assoc. split; [done|].
    split; [apply Forall_app; split; [done | by constructor]|].
    intros Hnil. by destruct added.
  - exists []. by rewrite app_nil_r.
Qed.

Lemma extract_effects (today : Z) (text : str) (hint : option Z) (r : ParseResult) :
  extract_nonworking_dates today text hint = Ok r ->
  exists n1 n2 n3 n4,
    notes r = n1 ++ n2 ++ n3 ++ n4
    /\ Forall is_range_note n1 /\ Forall is_listed_note n2
    /\ Forall is_single_note n3 /\ Forall is_transfer_note n4
    /\ (notes r = [] -> nonworking_dates r = ∅).
Proof.
  intros H.
  apply extract_stages in H
    as (st1 & st2 & st3 & st4 & _ & H1 & H2 & H3 & H4 & -> & ->).
  apply (stage_effect is_range_note) in H1 as (n1 & E1 & F1 & S1);
    [|intros s m s'; apply range_step_effect].
  apply (stage_effect is_listed_note) in H2 as (n2 & E2 & F2 & S2);
    [|intros s m s'; apply listed_step_effect].
  apply (stage_effect is_single_note) in H3 as (n3 & E3 & F3 & S3);
    [|intros s m s'; apply single_step_effect].
  apply (stage_effect is_transfer_note) in H4 as (n4 & E4 & F4 & S4);
    [|intros s m s'; apply transfer_step_effect].
  cbn [fst snd] in *. exists n1, n2, n3, n4.
  assert (E : st4.2 = n1 ++ n2 ++ n3 ++ n4).
  { rewrite E4, E3, E2, E1. cbn [app]. by rewrite <- !app_assoc. }
  repeat split; try done.
  rewrite E. intros Hnil.
  apply app_eq_nil in Hnil as [-> Hnil]. apply app_eq_nil in Hnil as [-> Hnil].
  apply app_eq_nil in Hnil as [-> ->].
  rewrite S4, S3, S2, S1; done.
Qed.

End StepEffects.

(** X9.  With a year outside 1..9999, which only a hint or the clock can
    give, no date can be formed and the result holds none. *)
Theorem no_dates_outside_calendar (U : UnicodeDB) (today : Z) (text : str)
    (hint : option Z) (r : ParseResult) :
  extract_nonworking_dates today text hint = Ok r ->
  ~ (1 <= year r <= 9999)%Z -> nonworking_dates r = ∅.
Proof.
  intros Hr Hy.
  destruct (extract_grows today text hint r Hr) as (st1 & _ & G1 & G2).
  destruct (grows_trans _ _ _ _ G1 G2) as (_ & Hof & _).
  apply set_eq. intros d. split; [|by intros ?%elem_of_empty].
  intros Hd. destruct Hy.
  destruct (Hof (fun d0 Hd0 => False_ind _ (proj1 (elem_of_empty d0) Hd0)) d Hd)
    as [<- [Hyear _]].
  exact Hyear.
Qed.

Lemma no_dates_outside_calendar_witness :
  extract_nonworking_dates 2025 (utf8 "с 1 по 8 января, 9 мая") (Some (-5)%Z)
  = Ok {| year := -5; nonworking_dates := ∅;
          notes := [utf8 "Диапазон: 1-8 января"] |}
  /\ nonworking_dates
       {| year := -5; nonworking_dates := ∅;
          notes := [utf8 "Диапазон: 1-8 января"] |} = ∅.
Proof.
  assert (H : extract_nonworking_dates 2025 (utf8 "с 1 по 8 января, 9 мая")
                (Some (-5)%Z)
              = Ok {| year := -5; nonworking_dates := ∅;
                      notes := [utf8 "Диапазон: 1-8 января"] |}).
  { vm_compute. reflexivity. }
  split; [exact H|].
  apply (no_dates_outside_calendar unicode_ru 2025
           (utf8 "с 1 по 8 января, 9 мая") (Some (-5)%Z) _ H).
  cbn [year]. lia.
Defined.

(** X10.  No date enters the set without a note: a result whose notes are
    empty has an empty set. *)
Theorem no_note_no_date (U : UnicodeDB) (today : Z) (text : str)
    (hint : option Z) (r : ParseResult) :
  extract_nonworking_dates today text hint = Ok r ->
  notes r = [] -> nonworking_dates r = ∅.
Proof.
  intros Hr. destruct (extract_effects today text hint r Hr)
    as (n1 & n2 & n3 & n4 & _ & _ & _ & _ & _ & H).
  exact H.
Qed.

Lemma no_note_no_date_witness :
  extract_nonworking_dates 2030 (utf8 "31 июня празднуем") (Some 2025%Z)
  = Ok {| year := 2025; nonworking_dates := ∅; notes := [] |}
  /\ nonworking_dates {| year := 2025; nonworking_dates := ∅; notes := [] |} = ∅.
Proof.
  assert (H : extract_nonworking_dates 2030 (utf8 "31 июня празднуем")
                (Some 2025%Z)
              = Ok {| year := 2025; nonworking_dates := ∅; notes := [] |}).
  { vm_compute. reflexivity. }
  split; [exact H|].
  exact (no_note_no_date unicode_ru 2030 (utf8 "31 июня празднуем")
           (Some 2025%Z) _ H eq_refl).
Defined.

(** X11.  The notes come grouped by stage, in the order of the stages: the
    notes of the ranges, then those of the lists, of the single dates and of
    the transfers. *)
Theorem notes_grouped_by_stage (U : UnicodeDB) (today : Z) (text : str)
    (hint : option Z) (r : ParseResult) :
  extract_nonworking_dates today text hint = Ok r ->
  exists n1 n2 n3 n4,
    notes r = n1 ++ n2 ++ n3 ++ n4
    /\ Forall is_range_note n1 /\ Forall is_listed_note n2
    /\ Forall is_single_note n3 /\ Forall is_transfer_note n4.
Proof.
  intros Hr. destruct (extract_effects today text hint r Hr)
    as (n1 & n2 & n3 & n4 & H1 & H2 & H3 & H4 & H5 & _).
  by exists n1, n2, n3, n4.
Qed.

Lemma notes_grouped_by_stage_witness :
  exists n1 n2 n3 n4,
    notes {| year := 2025;
             nonworking_dates := {[ mkdate 2025 1 5; mkdate 2025 1 8 ]};
             notes := [utf8 "Перечень: 5 января"; utf8 "Перечень: 8 января";
                       utf8 "Перенос на: 8 января"] |}
    = n1 ++ n2 ++ n3 ++ n4
    /\ Forall is_range_note n1 /\ Forall is_listed_note n2
    /\ Forall is_single_note n3 /\ Forall is_transfer_note n4.
Proof.
  apply (notes_grouped_by_stage unicode_ru 2025 TRANSFER_TEXT (Some 2025%Z)).
  vm_compute. reflexivity.
Defined.

(** ** Matches need a digit *)

Section DigitNeeded.
Context {U : UnicodeDB}.
Variable (P : pattern) (text : str).

Lemma Matches_needs_digit (r : re) p c p' c' :
  Matches P text r p c p' c' -> needs_digit r = true ->
  exists i x, (p <= i < p')%nat /\ text !! i = Some x /\ is_decimal x = true.
Proof.
  induction 1 as [ | s p c x Hx Hok
                 | r1 r2 p c p1 c1 p2 c2 H1 IH1 H2 IH2 | | |
                 | g lo hi r p c p1 c1 p2 c2 Hc H1 IH1 Hlt H2 IH2 | | | ];
    cbn [needs_digit]; intros Hn; try discriminate.
  - destruct s as [|[|[| |[]] []]|]; try discriminate.
    exists p, x. split; [lia|]. split; [exact Hx|].
    by rewrite <- (char_ok_digit P).
  - pose proof (Matches_min _ _ _ _ _ _ _ H1) as M1.
    pose proof (Matches_min _ _ _ _ _ _ _ H2) as M2.
    apply orb_true_iff in Hn as [Hn | Hn].
    + destruct (IH1 Hn) as (i & x & Hi & Hx). exists i, x. split; [lia | done].
    + destruct (IH2 Hn) as (i & x & Hi & Hx). exists i, x. split; [lia | done].
  - apply andb_true_iff in Hn as [Hn _]; eauto.
  - apply andb_true_iff in Hn as [_ Hn]; eauto.
  - pose proof (Matches_min _ _ _ _ _ _ _ H2) as M2.
    apply andb_true_iff in Hn as [_ Hn].
    destruct (IH1 Hn) as (i & x & Hi & Hx). exists i, x. split; [lia | done].
  - eauto.
Qed.

Lemma search_from_none (n p : nat) :
  (forall q, match_at P text q = None) -> search_from P text n p = None.
Proof.
  intros Hno. revert p. induction n as [|n IH]; intros p; cbn [search_from];
    rewrite Hno; [reflexivity | apply IH].
Qed.

Lemma finditer_nil :
  (forall q, match_at P text q = None) ->
  finditer P text = [] /\ search P text 0 = None.
Proof.
  intros Hno.
  assert (Hs : search P text 0 = None).
  { unfold search. destruct (0 <=? length text)%nat; [|reflexivity].
    by apply search_from_none. }
  split; [|exact Hs]. unfold finditer. cbn [finditer_from]. by rewrite Hs.
Qed.

Lemma no_digit_no_match :
  needs_digit (pat_re P) = true ->
  Forall (fun x => is_decimal x = false) text ->
  forall q, match_at P text q = None.
Proof.
  intros Hn Hno q. destruct (match_at P text q) as [m|] eqn:Hm; [|reflexivity].
  apply match_at_Matches in Hm as [_ Hm].
  destruct (Matches_needs_digit _ _ _ _ _ Hm Hn) as (i & x & _ & Hx & Hd).
  rewrite (Forall_lookup_1 _ _ _ _ Hno Hx) in Hd. discriminate.
Qed.

End DigitNeeded.

(** X12.  Every pattern of the source asks for a digit, so a text holding no
    decimal digit gives no year, no date and no note: the result is the
    fallback year with an empty set and no notes. *)
Theorem no_digit_nothing_found (U : UnicodeDB) (today : Z) (text : str)
    (hint : option Z) :
  Forall (fun x => is_decimal x = false) text ->
  extract_nonworking_dates today text hint
  = Ok {| year := fallback_year today hint; nonworking_dates := ∅; notes := [] |}.
Proof.
  intros Hno.
  assert (Hnil : forall P, needs_digit (pat_re P) = true ->
            finditer P text = [] /\ search P text 0 = None).
  { intros P HP. apply finditer_nil. by apply no_digit_no_match. }
  unfold extract_nonworking_dates, _detect_year.
  rewrite detect_year_loop_none.
  2:{ intros pat Hpat. apply Hnil. unfold YEAR_PATTERNS in Hpat.
      repeat (apply elem_of_cons in Hpat as [-> | Hpat]; [reflexivity|]).
      by apply elem_of_nil in Hpat. }
  assert (Hy : match hint with
               | Some f => if (f =? 0)%Z then Ok today else Ok f
               | None => Ok today
               end = Ok (fallback_year today hint)).
  { unfold fallback_year. destruct hint as [f|]; [|reflexivity].
    by destruct (f =? 0)%Z. }
  rewrite Hy. cbn [mbind res_bind].
  unfold range_stage, listed_stage, single_stage, transfer_stage.
  rewrite (proj1 (Hnil RANGE_RE eq_refl)). cbn [for_each mbind res_bind].
  rewrite (proj1 (Hnil LISTED_DAYS_RE eq_refl)). cbn [for_each mbind res_bind].
  rewrite (proj1 (Hnil SINGLE_DAY_RE eq_refl)). cbn [for_each mbind res_bind].
  rewrite (proj1 (Hnil TRANSFER_RE eq_refl)). cbn [for_each mbind res_bind].
  reflexivity.
Qed.

Lemma no_digit_nothing_found_witness :
  extract_nonworking_dates 2030 (utf8 "первого января выходной") (Some 0%Z)
  = Ok {| year := fallback_year 2030 (Some 0%Z); nonworking_dates := ∅;
          notes := [] |}.
Proof.
  apply (no_digit_nothing_found unicode_ru).
  apply Forall_forall. intros x Hx. vm_compute in Hx.
  repeat (apply elem_of_cons in Hx as [-> | Hx]; [reflexivity|]).
  by apply elem_of_nil in Hx.
Defined.

(** ** The single-date stage *)

Section SingleStage.
Context {U : UnicodeDB}.

Lemma single_stage_only (y : Z) (text : str) (st st' : state) :
  single_stage y text st = Ok st' ->
  forall d, d ∈ st'.1 ->
    d ∈ st.1
    \/ exists m, m ∈ finditer SINGLE_DAY_RE text
                 /\ triggered text m = true /\ single_date y text m d.
Proof.
  unfold single_stage.
  apply (for_each_inv (fun s : state =>
           forall d, d ∈ s.1 ->
             d ∈ st.1
             \/ exists m, m ∈ finditer SINGLE_DAY_RE text
                          /\ triggered text m = true /\ single_date y text m d)).
  - intros [nw0 ns0] m [nw1 ns1] Hm Honly Hstep. cbn [fst snd] in *.
    apply single_step_spec in Hstep
      as [(-> & ->) | (mt & mo & dd & d & Hg & Hn & Hi & Hd & _ & Ht & -> & ->)];
      [done|].
    intros d' Hd'.
    apply elem_of_union in Hd' as [Hd' | Hd']; [|by apply Honly].
    apply elem_of_singleton in Hd' as ->. right. exists m.
    split; [done|]. split; [exact Ht|]. by exists mt, mo, dd.
  - intros d Hd. by left.
Qed.

End SingleStage.

(** X13.  The single-date stage adds a date only for a match of its pattern
    whose window, forty characters to either side, holds one of the three
    trigger words; every other date of its result was there before, and no
    date is lost. *)
Theorem single_stage_gate (U : UnicodeDB) (y : Z) (text : str) (st st' : state) :
  single_stage y text st = Ok st' ->
  st.1 ⊆ st'.1
  /\ forall d, d ∈ st'.1 ->
       d ∈ st.1
       \/ exists m, m ∈ finditer SINGLE_DAY_RE text
                    /\ triggered text m = true /\ single_date y text m d.
Proof.
  intros H. split; [|by apply single_stage_only].
  apply (stage_grows y (finditer SINGLE_DAY_RE text) (single_step y text)).
  - intros s m s'. apply single_step_grows.
  - exact H.
Qed.

Lemma single_stage_gate_witness :
  single_stage 2025 (utf8 "8 марта — нерабочий день") (∅, [])
  = Ok ({[ mkdate 2025 3 8 ]}, [utf8 "Одиночная дата: 8 марта"])
  /\ ((∅, []) : state).1
     ⊆ (({[ mkdate 2025 3 8 ]}, [utf8 "Одиночная дата: 8 марта"]) : state).1
  /\ forall d,
       d ∈ (({[ mkdate 2025 3 8 ]}, [utf8 "Одиночная дата: 8 марта"]) : state).1 ->
       d ∈ ((∅, []) : state).1
       \/ exists m, m ∈ finditer SINGLE_DAY_RE (utf8 "8 марта — нерабочий день")
                    /\ triggered (utf8 "8 марта — нерабочий день") m = true
                    /\ single_date 2025 (utf8 "8 марта — нерабочий день") m d.
Proof.
  assert (H : single_stage 2025 (utf8 "8 марта — нерабочий день") (∅, [])
              = Ok ({[ mkdate 2025 3 8 ]}, [utf8 "Одиночная дата: 8 марта"])).
  { vm_compute. reflexivity. }
  split; [exact H|].
  exact (single_stage_gate unicode_ru 2025 (utf8 "8 марта — нерабочий день")
           _ _ H).
Defined.

(** X14.  A match of the single-date pattern never starts right after a
    decimal digit: it starts the text, or follows a character that is not a
    decimal digit. *)
Theorem single_match_not_after_digit (U : UnicodeDB) (text : str) (m : pymatch) :
  m ∈ finditer SINGLE_DAY_RE text ->
  m_start m = 0%nat
  \/ exists x, text !! (m_start m - 1)%nat = Some x /\ is_decimal x = false.
Proof.
  intros Hm. apply finditer_match_at in Hm as (q & Hq & Hm).
  apply match_at_Matches in Hm as [Hs Hm]. rewrite Hs. clear Hs.
  change (pat_re SINGLE_DAY_RE)
    with (Seq (NotBehind (CIn [ICat CatDigit]))
              (cat [Group "day" digits_1_2; plus space;
                    Group "month" (plus cyr); WordB])) in Hm.
  apply Matches_seq_inv in Hm as (q' & c1 & Hnb & _).
  assert (Hb : behind SINGLE_DAY_RE text (CIn [ICat CatDigit]) q = false)
    by (inversion Hnb; subst; assumption).
  clear Hnb. destruct q as [|q]; [by left | right].
  cbn [behind] in Hb. replace (S q - 1)%nat with q by lia.
  destruct (text !! q) as [x|] eqn:Hx.
  - exists x. split; [reflexivity|]. by rewrite <- (char_ok_digit SINGLE_DAY_RE).
  - apply lookup_ge_None in Hx. lia.
Qed.

Lemma single_match_not_after_digit_witness :
  finditer SINGLE_DAY_RE (utf8 "112 мая, 12 мая")
  = [ {| m_start := 9; m_end := 15;
         m_caps := [("month"%string, (12, 15)%nat); ("day"%string, (9, 11)%nat)] |} ]
  /\ (m_start {| m_start := 9; m_end := 15;
                 m_caps := [("month"%string, (12, 15)%nat);
                            ("day"%string, (9, 11)%nat)] |} = 0%nat
      \/ exists x,
           utf8 "112 мая, 12 мая"
             !! (m_start {| m_start := 9; m_end := 15;
                            m_caps := [("month"%string, (12, 15)%nat);
                                       ("day"%string, (9, 11)%nat)] |} - 1)%nat
           = Some x
           /\ is_decimal x = false).
Proof.
  assert (H : finditer SINGLE_DAY_RE (utf8 "112 мая, 12 мая")
              = [ {| m_start := 9; m_end := 15;
                     m_caps := [("month"%string, (12, 15)%nat);
                                ("day"%string, (9, 11)%nat)] |} ]).
  { vm_compute. reflexivity. }
  split; [exact H|].
  apply (single_match_not_after_digit unicode_ru (utf8 "112 мая, 12 мая")).
  rewrite H. apply list_elem_of_singleton. reflexivity.
Defined.

(** ** The year read in the text *)

Section MatchesInv2.
Context {U : UnicodeDB}.
Variable (P : pattern) (text : str).

Lemma Matches_chr_inv (s : cset) a c b c' :
  Matches P text (Chr s) a c b c' ->
  b = S a /\ exists x, text !! a = Some x /\ char_ok P s x = true.
Proof. inversion 1; subst. eauto. Qed.

Lemma Matches_rep_succ_inv (g : bool) (lo : nat) (hi : option nat) (r : re)
    a c b c' :
  Matches P text (Rep g (S lo) hi r) a c b c' ->
  exists m c1, Matches P text r a c m c1
               /\ Matches P text (Rep g lo (dec_hi hi) r) m c1 b c'.
Proof. inversion 1; subst. eauto. Qed.

Lemma Matches_rep_done (g : bool) (r : re) a c b c' :
  Matches P text (Rep g 0 (Some 0%nat) r) a c b c' -> b = a.
Proof. inversion 1; subst; [reflexivity | discriminate]. Qed.

Lemma slice_four (s : nat) (x0 x1 x2 x3 : cp) :
  text !! s = Some x0 -> text !! S s = Some x1 ->
  text !! S (S s) = Some x2 -> text !! S (S (S s)) = Some x3 ->
  slice text s (S (S (S (S s)))) = [x0; x1; x2; x3].
Proof.
  intros H0 H1 H2 H3. unfold slice.
  replace (S (S (S (S s))) - s)%nat with 4%nat by lia.
  rewrite (drop_S _ _ _ H0), (drop_S _ _ _ H1), (drop_S _ _ _ H2),
    (drop_S _ _ _ H3).
  reflexivity.
Qed.

End MatchesInv2.

Ltac in_sure_groups := vm_compute; repeat ((left; reflexivity) || right).
Ltac one_body :=
  let b := fresh "b" in
  let Hb := fresh "Hb" in
  intros b Hb; vm_compute in Hb;
  repeat (destruct Hb as [Hb | Hb]; [try discriminate Hb|]);
  try (injection Hb as <-; reflexivity); try (destruct Hb).

Section YearCentury.
Context {U : UnicodeDB} {HL : UnicodeLaws U}.
Hypothesis value_2 : decimal_value 0x32%N = 2%Z.
Hypothesis value_0 : decimal_value 0x30%N = 0%Z.

Lemma ascii_digit_only (P : pattern) (d x : cp) :
  (0x30 <= d <= 0x39)%N -> char_ok P (CLit d) x = true -> x = d.
Proof.
  intros Hd. unfold char_ok. cbn [cset_match]. unfold lit_match.
  rewrite (proj2 (ascii_digit d Hd)), andb_false_r.
  by intros ?%N.eqb_eq.
Qed.

Lemma Matches_year_20xx (P : pattern) (text : str) s c e c' :
  Matches P text year_20xx s c e c' ->
  exists a b, slice text s e = [0x32; 0x30; a; b]%N
              /\ is_decimal a = true /\ is_decimal b = true.
Proof.
  change year_20xx
    with (Seq (Seq (Chr (CLit 0x32%N)) (Chr (CLit 0x30%N)))
              (Rep true 2 (Some 2%nat) digit)).
  intros H.
  apply Matches_seq_inv in H as (p2 & c2 & H20 & Hdd).
  apply Matches_seq_inv in H20 as (p1 & c1 & H2 & H0).
  apply Matches_chr_inv in H2 as (-> & x0 & Hx0 & Hc0).
  apply Matches_chr_inv in H0 as (-> & x1 & Hx1 & Hc1).
  apply Matches_rep_succ_inv in Hdd as (p3 & c3 & Ha & Hdd).
  apply Matches_chr_inv in Ha as (-> & a & Hxa & Hca).
  cbn [dec_hi Nat.pred] in Hdd.
  apply Matches_rep_succ_inv in Hdd as (p4 & c4 & Hb & Hdd).
  apply Matches_chr_inv in Hb as (-> & b & Hxb & Hcb).
  cbn [dec_hi Nat.pred] in Hdd.
  apply Matches_rep_done in Hdd as ->.
  apply ascii_digit_only in Hc0 as ->; [|lia].
  apply ascii_digit_only in Hc1 as ->; [|lia].
  rewrite char_ok_digit in Hca, Hcb.
  exists a, b. split; [by apply slice_four | done].
Qed.

Lemma year_group_century (pat : pattern) (text : str) (m : pymatch) :
  pat ∈ YEAR_PATTERNS -> found pat text m ->
  exists y, int_group text m "year" = Ok y /\ (2000 <= y <= 2099)%Z.
Proof.
  intros Hpat (q & Hq & Hm).
  destruct (match_at_group_span pat text q m "year" year_20xx Hm)
    as (s & e & c1 & c2 & Hg & HM).
  { unfold YEAR_PATTERNS in Hpat.
    repeat (apply elem_of_cons in Hpat as [-> | Hpat]; [in_sure_groups|]).
    by apply elem_of_nil in Hpat. }
  { unfold YEAR_PATTERNS in Hpat.
    repeat (apply elem_of_cons in Hpat as [-> | Hpat]; [one_body|]).
    by apply elem_of_nil in Hpat. }
  apply Matches_year_20xx in HM as (a & b & Hs & Ha & Hb).
  unfold int_group. rewrite Hg, Hs. cbn [need mbind res_bind py_int forallb].
  rewrite (proj1 (ascii_digit 0x32%N ltac:(lia))),
    (proj1 (ascii_digit 0x30%N ltac:(lia))), Ha, Hb.
  cbn [andb fold_left]. rewrite value_2, value_0.
  pose proof (decimal_value_range a Ha) as Ra.
  pose proof (decimal_value_range b Hb) as Rb.
  set (va := decimal_value a) in *. set (vb := decimal_value b) in *.
  clearbody va vb. eexists. split; [reflexivity | lia].
Qed.

Lemma detect_year_loop_some (pats : list pattern) (text : str) (r : res Z) :
  detect_year_loop pats text = Some r ->
  exists pat m, pat ∈ pats /\ search pat text 0 = Some m
                /\ r = int_group text m "year".
Proof.
  induction pats as [|p0 pats IH]; [done|]. cbn [detect_year_loop].
  destruct (search p0 text 0) as [m|] eqn:Hs.
  - intros [= <-]. exists p0, m. split; [left | done].
  - intros H. destruct (IH H) as (pat & m & Hin & Hm & Hr).
    exists pat, m. split; [by right | done].
Qed.

Lemma detect_year_loop_unmatched (pats : list pattern) (text : str) :
  detect_year_loop pats text = None ->
  forall pat, pat ∈ pats -> search pat text 0 = None.
Proof.
  induction pats as [|p0 pats IH]; intros H pat Hpat;
    [by apply elem_of_nil in Hpat|].
  cbn [detect_year_loop] in H.
  destruct (search p0 text 0) as [m|] eqn:Hs; [discriminate|].
  apply elem_of_cons in Hpat as [-> | Hpat]; [exact Hs | by apply IH].
Qed.

End YearCentury.

(** X15.  The year of a text is a year from 2000 to 2099 read in a year
    phrase of the text, or else, when no pattern of [YEAR_PATTERNS] matches,
    the year hint if it is given and not zero and the current year
    otherwise; the detector always returns.  The digits 2 and 0 are taken to
    have their values. *)
Theorem detected_year_origin (U : UnicodeDB) (HL : UnicodeLaws U) (today : Z)
    (text : str) (hint : option Z) :
  decimal_value 0x32%N = 2%Z -> decimal_value 0x30%N = 0%Z ->
  exists y,
    _detect_year today text hint = Ok y
    /\ (((2000 <= y <= 2099)%Z
         /\ exists pat, pat ∈ YEAR_PATTERNS /\ search pat text 0 <> None)
        \/ (y = fallback_year today hint
            /\ forall pat, pat ∈ YEAR_PATTERNS -> search pat text 0 = None)).
Proof.
  intros H2 H0. unfold _detect_year.
  destruct (detect_year_loop YEAR_PATTERNS text) as [r|] eqn:Hr.
  - apply detect_year_loop_some in Hr as (pat & m & Hin & Hm & ->).
    destruct (year_group_century H2 H0 pat text m Hin) as (y & Hy & Hrange).
    { by eapply search_found. }
    exists y. split; [exact Hy | left]. split; [exact Hrange|].
    exists pat. split; [exact Hin|]. by rewrite Hm.
  - exists (fallback_year today hint). split.
    + unfold fallback_year. destruct hint as [f|]; [|reflexivity].
      by destruct (f =? 0)%Z.
    + right. split; [reflexivity|]. by apply detect_year_loop_unmatched.
Qed.

Lemma detected_year_origin_witness :
  exists y,
    _detect_year 2030 (utf8 "календарь на 2026 год") (Some 2025%Z) = Ok y
    /\ (((2000 <= y <= 2099)%Z
         /\ exists pat, pat ∈ YEAR_PATTERNS
                        /\ search pat (utf8 "календарь на 2026 год") 0 <> None)
        \/ (y = fallback_year 2030 (Some 2025%Z)
            /\ forall pat, pat ∈ YEAR_PATTERNS ->
                 search pat (utf8 "календарь на 2026 год") 0 = None)).
Proof.
  apply (detected_year_origin unicode_ru unicode_ru_laws); reflexivity.
Defined.

(** ** The entry point *)

(** X16.  The entry point hands the text it fetched to the extractor and the
    extractor's year and dates to the builder.  When the year lies between 1
    and 9998 it returns that year, the notes, and a map over all days of the
    year in which every extracted date is labelled non-working; for any
    other year the builder's [ValueError] comes out of it. *)
Theorem parse_calendar_composes (U : UnicodeDB) (HL : UnicodeLaws U)
    (Cookies : Type) (fetch : str -> option Cookies -> option str)
    (fuel : nat) (today : Z) (url : str) (hint : option Z)
    (cookies : option Cookies) (text : str) :
  fetch url cookies = Some text ->
  (366 < fuel)%nat -> fits_c_int today = true -> hint_fits hint ->
  exists r,
    extract_nonworking_dates today text hint = Ok r
    /\ ((1 <= year r <= 9998)%Z ->
        exists m,
          parse_calendar_from_consultant fetch fuel today url hint cookies
          = Some (Ok (year r, m, notes r))
          /\ (forall k, is_Some (m !! k) <-> (1 <= k <= days_in_year (year r))%Z)
          /\ (forall d, d ∈ nonworking_dates r ->
                        m !! day_of_year d = Some NON_WORKING))
    /\ (~ (1 <= year r <= 9998)%Z ->
        parse_calendar_from_consultant fetch fuel today url hint cookies
        = Some (Raise ValueError)).
Proof.
  intros Hfetch Hfuel Ht Hh.
  destruct (extract_total today text hint Ht Hh) as [r Hr].
  exists r. split; [exact Hr|].
  unfold parse_calendar_from_consultant. rewrite Hfetch, Hr.
  cbn [mbind res_bind]. split.
  - intros Hy.
    destruct (build_year_map_spec fuel (year r)
                (elements (nonworking_dates r)) Hfuel Hy)
      as (m & -> & Hkeys & _ & Hlab).
    cbn [mbind res_bind]. exists m. split; [reflexivity|].
    split; [exact Hkeys|]. intros d Hd.
    destruct (extract_grows today text hint r Hr) as (st1 & _ & G1 & G2).
    destruct (grows_trans _ _ _ _ G1 G2) as (_ & Hof & _).
    destruct (Hof (fun d0 Hd0 => False_ind _ (proj1 (elem_of_empty d0) Hd0)) d Hd)
      as [Hyd Hv].
    rewrite (Hlab d Hv Hyd). unfold day_label.
    rewrite (bool_decide_eq_true_2 (d ∈ list_to_set (elements (nonworking_dates r)))).
    + by rewrite orb_true_r.
    + rewrite elem_of_list_to_set. by apply elem_of_elements.
  - intros Hy.
    destruct (detect_year_total today text hint Ht Hh) as (y & Hdet & Hfit).
    apply extract_stages in Hr as (_ & _ & _ & _ & Hdet' & _).
    assert (y = year r) by congruence. subst y.
    by rewrite (build_year_map_value_error fuel (year r) _ Hfit Hy).
Qed.

Lemma parse_calendar_composes_witness :
  exists r,
    extract_nonworking_dates 2030 (utf8 "с 1 по 8 января 2025 года") None = Ok r
    /\ ((1 <= year r <= 9998)%Z ->
        exists m,
          parse_calendar_from_consultant
            (fun (_ : str) (_ : option unit) => Some (utf8 "с 1 по 8 января 2025 года"))
            367 2030 (utf8 "calendar") None None
          = Some (Ok (year r, m, notes r))
          /\ (forall k, is_Some (m !! k) <-> (1 <= k <= days_in_year (year r))%Z)
          /\ (forall d, d ∈ nonworking_dates r ->
                        m !! day_of_year d = Some NON_WORKING))
    /\ (~ (1 <= year r <= 9998)%Z ->
        parse_calendar_from_consultant
          (fun (_ : str) (_ : option unit) => Some (utf8 "с 1 по 8 января 2025 года"))
          367 2030 (utf8 "calendar") None None
        = Some (Raise ValueError)).
Proof.
  apply (parse_calendar_composes unicode_ru unicode_ru_laws unit
           (fun _ _ => Some (utf8 "с 1 по 8 января 2025 года"))
           367 2030 (utf8 "calendar") None None
           (utf8 "с 1 по 8 января 2025 года"));
    [reflexivity | lia | reflexivity | exact I].
Defined.

(** ** Where the dates of a result come from *)

Section Origins.
Context {U : UnicodeDB}.

Lemma range_stage_only (y : Z) (text : str) (st st' : state) :
  range_stage y text st = Ok st' ->
  forall d, d ∈ st'.1 ->
    d ∈ st.1 \/ exists m, m ∈ finditer RANGE_RE text /\ range_date y text m d.
Proof.
  unfold range_stage.
  apply (for_each_inv (fun s : state =>
           forall d, d ∈ s.1 ->
             d ∈ st.1
             \/ exists m, m ∈ finditer RANGE_RE text /\ range_date y text m d)).
  - intros [nw0 ns0] m [nw1 ns1] Hm Honly Hstep. cbn [fst snd] in *.
    apply range_step_spec in Hstep
      as (mt & Hg & [(_ & -> & ->)
                    | (mo & d1 & d2 & Hn & H1 & H2 & Hloop & ->)]);
      [done|].
    apply range_loop_spec in Hloop as (_ & _ & Hfrom).
    intros d Hd. destruct (Hfrom d Hd) as [Hold | (dd & Hdd & Hnew)];
      [by apply Honly|].
    apply elem_of_py_range in Hdd.
    right. exists m. split; [done|].
    exists mt, mo, d1, d2, dd. repeat split; try done; lia.
  - intros d Hd. by left.
Qed.

Lemma listed_stage_only (y : Z) (text : str) (st st' : state) :
  listed_stage y text st = Ok st' ->
  forall d, d ∈ st'.1 ->
    d ∈ st.1
    \/ exists m, m ∈ finditer LISTED_DAYS_RE text /\ listed_date y text m d.
Proof.
  unfold listed_stage.
  apply (for_each_inv (fun s : state =>
           forall d, d ∈ s.1 ->
             d ∈ st.1
             \/ exists m, m ∈ finditer LISTED_DAYS_RE text
                          /\ listed_date y text m d)).
  - intros [nw0 ns0] m [nw1 ns1] Hm Honly Hstep. cbn [fst snd] in *.
    apply listed_step_spec in Hstep
      as (mt & Hg & [(-> & -> & _)
                    | (mo & raw & days & a & Hn & Hraw & _ & _ & Hdays & _
                       & Hloop & _)]);
      [done|].
    apply listed_loop_spec in Hloop as (_ & _ & Hfrom & _).
    intros d Hd. destruct (Hfrom d Hd) as [Hold | (dd & Hdd & Hnew)];
      [by apply Honly|].
    right. exists m. split; [done|].
    by exists mt, mo, raw, days, dd.
  - intros d Hd. by left.
Qed.

Lemma slice_lookup_in (text : str) (s e i : nat) (x : cp) :
  (s <= i < e)%nat -> text !! i = Some x -> slice text s e !! (i - s)%nat = Some x.
Proof.
  intros Hi Hx. unfold slice.
  rewrite lookup_take_Some, lookup_drop. split; [|lia].
  by replace (s + (i - s))%nat with i by lia.
Qed.

Lemma listed_days_group (text : str) (m : pymatch) :
  m ∈ finditer LISTED_DAYS_RE text ->
  exists raw, group text m "days" = Some raw
    /\ exists j x, raw !! j = Some x /\ is_decimal x = true.
Proof.
  intros Hm. apply finditer_match_at in Hm as (q & Hq & Hm).
  destruct (match_at_group_span LISTED_DAYS_RE text q m "days" days_body Hm)
    as (s & e & c1 & c2 & Hg & HM); [in_sure_groups | one_body |].
  exists (slice text s e). split; [exact Hg|].
  destruct (Matches_needs_digit _ _ _ _ _ _ _ HM eq_refl) as (i & x & Hi & Hx & Hd).
  exists (i - s)%nat, x. split; [by apply slice_lookup_in | exact Hd].
Qed.

End Origins.

(** X17.  Every date of a result is owed to a match of one of the four
    patterns: it lies between the bounds of a range match, or is a day of a
    list match, or is the date of a single-date match with a trigger word in
    its window, or is the destination of a transfer match; each with a
    recognised month and the year of the result. *)
Theorem extract_dates_origin (U : UnicodeDB) (today : Z) (text : str)
    (hint : option Z) (r : ParseResult) :
  extract_nonworking_dates today text hint = Ok r ->
  forall d, d ∈ nonworking_dates r ->
    (exists m, m ∈ finditer RANGE_RE text /\ range_date (year r) text m d)
    \/ (exists m, m ∈ finditer LISTED_DAYS_RE text
                  /\ listed_date (year r) text m d)
    \/ (exists m, m ∈ finditer SINGLE_DAY_RE text
                  /\ triggered text m = true /\ single_date (year r) text m d)
    \/ (exists m, m ∈ finditer TRANSFER_RE text
                  /\ destination (year r) text m d).
Proof.
  intros H d Hd.
  apply extract_stages in H
    as (st1 & st2 & st3 & st4 & _ & H1 & H2 & H3 & H4 & E & _).
  rewrite E in Hd.
  destruct (proj2 (transfer_stage_only _ _ _ _ H4) d Hd) as [Hd3 | ?]; [|tauto].
  destruct (single_stage_only _ _ _ _ H3 d Hd3) as [Hd2 | ?]; [|tauto].
  destruct (listed_stage_only _ _ _ _ H2 d Hd2) as [Hd1 | ?]; [|tauto].
  destruct (range_stage_only _ _ _ _ H1 d Hd1) as [Hd0 | ?]; [|tauto].
  by apply elem_of_empty in Hd0.
Qed.

Lemma extract_dates_origin_witness :
  extract_nonworking_dates 2025 TRANSFER_TEXT (Some 2025%Z)
  = Ok {| year := 2025;
          nonworking_dates := {[ mkdate 2025 1 5; mkdate 2025 1 8 ]};
          notes := [utf8 "Перечень: 5 января"; utf8 "Перечень: 8 января";
                    utf8 "Перенос на: 8 января"] |}
  /\ forall d, d ∈ ({[ mkdate 2025 1 5; mkdate 2025 1 8 ]} : gset date) ->
       (exists m, m ∈ finditer RANGE_RE TRANSFER_TEXT
                  /\ range_date 2025 TRANSFER_TEXT m d)
       \/ (exists m, m ∈ finditer LISTED_DAYS_RE TRANSFER_TEXT
                     /\ listed_date 2025 TRANSFER_TEXT m d)
       \/ (exists m, m ∈ finditer SINGLE_DAY_RE TRANSFER_TEXT
                     /\ triggered TRANSFER_TEXT m = true
                     /\ single_date 2025 TRANSFER_TEXT m d)
       \/ (exists m, m ∈ finditer TRANSFER_RE TRANSFER_TEXT
                     /\ destination 2025 TRANSFER_TEXT m d).
Proof.
  assert (H : extract_nonworking_dates 2025 TRANSFER_TEXT (Some 2025%Z)
              = Ok {| year := 2025;
                      nonworking_dates := {[ mkdate 2025 1 5; mkdate 2025 1 8 ]};
                      notes := [utf8 "Перечень: 5 января";
                                utf8 "Перечень: 8 января";
                                utf8 "Перенос на: 8 января"] |}).
  { vm_compute. reflexivity. }
  split; [exact H|].
  exact (extract_dates_origin unicode_ru 2025 TRANSFER_TEXT (Some 2025%Z) _ H).
Defined.

(** X18.  The day list of a match of the list pattern always holds a decimal
    digit: the guard of the list stage against an empty or digitless day
    list never fires on a match. *)
Theorem listed_match_has_digit (U : UnicodeDB) (text : str) (m : pymatch) :
  m ∈ finditer LISTED_DAYS_RE text ->
  exists raw, group text m "days" = Some raw
    /\ raw <> [] /\ search DIGIT_RE raw 0 <> None.
Proof.
  intros Hm. destruct (listed_days_group text m Hm) as (raw & Hg & j & x & Hx & Hd).
  exists raw. split; [exact Hg|]. split.
  - intros ->. discriminate.
  - intros Hnone. apply digit_search_none in Hnone.
    rewrite (Forall_lookup_1 _ _ _ _ Hnone Hx) in Hd. discriminate.
Qed.

Lemma listed_match_has_digit_witness :
  exists raw,
    group (utf8 "8 марта")
      {| m_start := 0; m_end := 7;
         m_caps := [("month"%string, (2, 7)%nat); ("days"%string, (0, 1)%nat)] |}
      "days" = Some raw
    /\ raw <> [] /\ search DIGIT_RE raw 0 <> None.
Proof.
  apply (listed_match_has_digit unicode_ru (utf8 "8 марта")).
  assert (H : finditer LISTED_DAYS_RE (utf8 "8 марта")
     = [ {| m_start := 0; m_end := 7;
            m_caps := [("month"%string, (2, 7)%nat); ("days"%string, (0, 1)%nat)] |} ]).
  { vm_compute. reflexivity. }
  rewrite H. apply list_elem_of_singleton. reflexivity.
Defined.

(** ** The parser of day lists *)

Section DayListParser.
Context {U : UnicodeDB} {HL : UnicodeLaws U}.
Hypothesis comma_not_space : is_space 0x2C%N = false.
Hypothesis conj_not_space : is_space 0x438%N = false.

Lemma unit_avoids (u : day_unit) (c : cp) :
  well_formed_unit u -> is_space c = false -> is_digit c = false ->
  Forall (fun x => x <> c) (unit_text u).
Proof.
  intros (Ha & _ & Hw & Hb) Hs Hd. unfold unit_text.
  repeat apply Forall_app_2.
  - eapply Forall_impl; [exact Ha|]. intros x Hx ->. congruence.
  - eapply Forall_impl; [exact Hw|]. intros x Hx ->.
    apply decimal_is_digit in Hx. congruence.
  - eapply Forall_impl; [exact Hb|]. intros x Hx ->. congruence.
Qed.

Lemma unit_no_comma (u : day_unit) :
  well_formed_unit u -> Forall (fun x => x <> 0x2C%N) (unit_text u).
Proof.
  intros Hu. apply unit_avoids; [done | done | apply comma_not_digit].
Qed.

Lemma unit_no_conj (u : day_unit) :
  well_formed_unit u -> Forall (fun x => x <> 0x438%N) (unit_text u).
Proof.
  intros Hu. apply unit_avoids; [done | done |].
  apply cyrillic_not_digit. lia.
Qed.

(** [replace] passes over a stretch without the conjunction's letter. *)
Lemma replace_go_pass (new v tail : str) :
  Forall (fun x => x <> 0x438%N) v ->
  (forall t, tail <> 0x438%N :: t) ->
  replace_go (sep_text SepConj) new 0 (v ++ tail)
  = v ++ replace_go (sep_text SepConj) new 0 tail.
Proof.
  intros Hv Ht. induction Hv as [|c v Hc Hv IH]; [reflexivity|].
  cbn [app replace_go sep_text].
  match goal with
  | |- context [prefix_b ?a ?b] => assert (Hp : prefix_b a b = false)
  end.
  { cbn [prefix_b]. apply andb_false_iff. right.
    destruct v as [|b v]; cbn [app].
    - destruct tail as [|b tail]; [reflexivity|].
      destruct (N.eqb_spec 0x438 b) as [<- | _]; [|reflexivity].
      by destruct (Ht tail).
    - apply Forall_cons in Hv as [Hb _].
      destruct (N.eqb_spec 0x438 b) as [<- | _]; [done | reflexivity]. }
  rewrite Hp. f_equal. exact IH.
Qed.

Lemma replace_units (u : day_unit) (rest : list (day_sep * day_unit)) :
  well_formed_unit u -> Forall (fun p => well_formed_unit p.2) rest ->
  replace (sep_text SepConj) (sep_text SepComma) (day_list_text u rest)
  = day_list_text u (map (fun p => (SepComma, p.2)) rest).
Proof.
  unfold replace. revert u.
  induction rest as [|[s u'] rest IH]; intros u Hu Hrest; cbn [day_list_text map].
  - rewrite replace_go_pass; [reflexivity | by apply unit_no_conj | done].
  - apply Forall_cons in Hrest as [Hu' Hrest]. cbn [snd] in *.
    rewrite replace_go_pass; [|by apply unit_no_conj|by destruct s].
    f_equal. destruct s; cbn [sep_text app replace_go prefix_b length Nat.sub].
    + cbn. f_equal. by apply IH.
    + cbn. f_equal. by apply IH.
Qed.

Lemma split_on_app_sep (sep : cp) (v r : str) :
  Forall (fun x => x <> sep) v ->
  split_on sep (v ++ sep :: r) = v :: split_on sep r.
Proof.
  induction 1 as [|c v Hc _ IH]; cbn [app split_on].
  - by rewrite N.eqb_refl.
  - rewrite (proj2 (N.eqb_neq c sep) Hc), IH. reflexivity.
Qed.

Lemma split_units (u : day_unit) (rest : list (day_sep * day_unit)) :
  well_formed_unit u -> Forall (fun p => well_formed_unit p.2) rest ->
  split_on 0x2C%N (day_list_text u (map (fun p => (SepComma, p.2)) rest))
  = map unit_text (u :: map snd rest).
Proof.
  revert u. induction rest as [|[s u'] rest IH]; intros u Hu Hrest;
    cbn [day_list_text map].
  - rewrite app_nil_r. apply split_on_none. by apply unit_no_comma.
  - apply Forall_cons in Hrest as [Hu' Hrest]. cbn [snd sep_text app] in *.
    rewrite split_on_app_sep by (by apply unit_no_comma).
    f_equal. by apply IH.
Qed.

Lemma strip_unit (u : day_unit) :
  well_formed_unit u -> strip (unit_text u) = unit_digits u.
Proof.
  intros (Ha & _ & Hw & Hb). unfold strip, unit_text.
  rewrite strip_by_pad by done. apply strip_by_none.
  eapply Forall_impl; [exact Hw|]. intros x Hx.
  by apply digit_not_space, decimal_is_digit.
Qed.

Lemma forallb_of_Forall (f : cp -> bool) (w : str) :
  Forall (fun x => f x = true) w -> forallb f w = true.
Proof. induction 1 as [|c w Hc _ IH]; cbn; [done | by rewrite Hc]. Qed.

Lemma tokens_units (units : list day_unit) (acc : list Z) :
  Forall well_formed_unit units ->
  for_each (map unit_text units) acc
    (fun days token =>
       let token := strip token in
       if isdigit token then d ← py_int token; Ok (days ++ [d]) else Ok days)
  = Ok (acc ++ map (fun u => digits_value (unit_digits u)) units).
Proof.
  intros Hunits. revert acc.
  induction Hunits as [|u units Hu _ IH]; intros acc; cbn [map for_each].
  - by rewrite app_nil_r.
  - cbv zeta. rewrite (strip_unit u Hu).
    destruct Hu as (_ & Hne & Hw & _).
    assert (Hd : isdigit (unit_digits u) = true).
    { unfold isdigit. destruct (unit_digits u) as [|c w]; [done|].
      apply forallb_of_Forall. eapply Forall_impl; [exact Hw|].
      intros x. apply decimal_is_digit. }
    assert (Hi : py_int (unit_digits u) = Ok (digits_value (unit_digits u))).
    { unfold py_int, digits_value. destruct (unit_digits u) as [|c w]; [done|].
      by rewrite (forallb_of_Forall _ _ Hw). }
    rewrite Hd, Hi. cbn [mbind res_bind]. rewrite IH, <- app_assoc. reflexivity.
Qed.

End DayListParser.

(** X19.  The list stage reads a day list as written: days separated by
    commas or by the conjunction between two blanks, each a run of decimal
    digits with any white space around it, are parsed into exactly their
    numbers, in order and with repetitions.  The comma and the conjunction's
    letter are taken not to be white space. *)
Theorem listed_days_parses (U : UnicodeDB) (HL : UnicodeLaws U)
    (u : day_unit) (rest : list (day_sep * day_unit)) :
  is_space 0x2C%N = false -> is_space 0x438%N = false ->
  well_formed_unit u -> Forall (fun p => well_formed_unit p.2) rest ->
  listed_days (day_list_text u rest)
  = Ok (map (fun v => digits_value (unit_digits v)) (u :: map snd rest)).
Proof.
  intros Hc Hi Hu Hrest. unfold listed_days.
  change (utf8 " и ") with (sep_text SepConj).
  change (utf8 ",") with (sep_text SepComma).
  rewrite (replace_units Hi u rest Hu Hrest), (split_units Hc u rest Hu Hrest).
  rewrite tokens_units; [reflexivity|].
  constructor; [exact Hu|]. apply Forall_map.
  eapply Forall_impl; [exact Hrest | done].
Qed.

Lemma listed_days_parses_witness :
  listed_days
    (day_list_text
       {| pad_before := []; unit_digits := utf8 "1"; pad_after := [] |}
       [ (SepComma,
          {| pad_before := utf8 " "; unit_digits := utf8 "2"; pad_after := [] |});
         (SepConj,
          {| pad_before := []; unit_digits := utf8 "07"; pad_after := [] |}) ])
  = Ok (map (fun v => digits_value (unit_digits v))
          ({| pad_before := []; unit_digits := utf8 "1"; pad_after := [] |}
           :: map snd
                [ (SepComma,
                   {| pad_before := utf8 " "; unit_digits := utf8 "2";
                      pad_after := [] |});
                  (SepConj,
                   {| pad_before := []; unit_digits := utf8 "07";
                      pad_after := [] |}) ])).
Proof.
  apply (listed_days_parses unicode_ru unicode_ru_laws);
    [reflexivity | reflexivity | |].
  - unfold well_formed_unit. cbn [pad_before unit_digits pad_after].
    repeat split; [constructor | discriminate | | constructor].
    change (utf8 "1") with [0x31%N]. by repeat constructor.
  - repeat constructor; cbn [snd pad_before unit_digits pad_after];
      discriminate.
Defined.

(** ** What the result depends on *)

Section YearSources.
Context {U : UnicodeDB}.

Lemma detect_year_phrase (t1 t2 : Z) (text : str) (h1 h2 : option Z) :
  (exists pat, pat ∈ YEAR_PATTERNS /\ search pat text 0 <> None) ->
  _detect_year t1 text h1 = _detect_year t2 text h2.
Proof.
  intros (pat & Hin & Hs). unfold _detect_year.
  destruct (detect_year_loop YEAR_PATTERNS text) as [r|] eqn:Hr; [reflexivity|].
  destruct Hs. by apply (detect_year_loop_unmatched YEAR_PATTERNS text Hr).
Qed.

Lemma detect_year_hint (t1 t2 : Z) (text : str) (h : Z) :
  h <> 0%Z -> _detect_year t1 text (Some h) = _detect_year t2 text (Some h).
Proof.
  intros Hh. unfold _detect_year.
  destruct (detect_year_loop YEAR_PATTERNS text); [reflexivity|].
  by rewrite (proj2 (Z.eqb_neq h 0) Hh).
Qed.

End YearSources.

(** X20.  The clock and the hint are last resorts: when a year phrase of
    the text matches, the whole result is the same under every year hint
    and every current year, and under a hint that is not zero it is the same
    for every current year. *)
Theorem result_year_sources (U : UnicodeDB) (today1 today2 : Z) (text : str) :
  (forall hint1 hint2 : option Z,
      (exists pat, pat ∈ YEAR_PATTERNS /\ search pat text 0 <> None) ->
      extract_nonworking_dates today1 text hint1
      = extract_nonworking_dates today2 text hint2)
  /\ (forall h : Z, h <> 0%Z ->
        extract_nonworking_dates today1 text (Some h)
        = extract_nonworking_dates today2 text (Some h)).
Proof.
  split.
  - intros h1 h2 Hp. unfold extract_nonworking_dates.
    by rewrite (detect_year_phrase today1 today2 text h1 h2 Hp).
  - intros h Hh. unfold extract_nonworking_dates.
    by rewrite (detect_year_hint today1 today2 text h Hh).
Qed.
